(** * Modern Minds: a shallow embedding of the screens' event handlers
    and of the character components' animation set-up.

    Conventions used throughout.
    - A JavaScript [number] is a double. One that the program only ever
      uses as an integer (ids, streaks, step counters) is a [Z]; one that
      is a fraction or the result of [Math.random()] is a [Q]. The sums,
      differences and products the handlers and the set-up code compute
      round as the arithmetic of doubles does ([Double]); the completion
      percentage of the habits screen is kept as the exact quotient.
    - A [useState] cell is a field of the screen's state record and a
      handler is a function from state to state, run once per UI event
      against the state of the render that installed it.
    - A Reanimated shared value holds the last thing assigned to its
      [.value]: a plain number or an animation descriptor built with
      [withTiming], [withSequence], [withRepeat] and [withDelay]. *)

From Stdlib Require Import ZArith QArith Qround Qabs Qpower List Bool String Ascii Lia Lqa.
From Stdlib Require Floats.SpecFloat.
From stdpp Require Import base list option.
Import ListNotations.

Set Warnings "-register-all".

Local Open Scope string_scope.
Local Open Scope list_scope.
Local Open Scope Z_scope.

(* ===================================================================== *)
(** ** JavaScript numbers (IEEE 754 binary64) *)
(* ===================================================================== *)

(** A JavaScript [number] is a double. The finite ones are rationals, and
    [+], [-] and [*] give the exact result rounded to the nearest double,
    ties to the one with an even significand. [round] is that rounding on
    rationals: the significand has 53 bits and the least exponent of a
    normal number is -1022, below which the spacing stays that of the
    subnormals. Magnitudes from [2^1024] on, which round to [Infinity],
    and [NaN] never arise from the numbers this program computes and are
    not represented. *)
Module Double.

(** [2^e]. *)
Definition pow2 (e : Z) : Q := ((2 # 1) ^ e)%Q.

(** The exponent of the binade of a number other than zero:
    [2^(ilog2 x) <= |x| < 2^(ilog2 x + 1)]. *)
Definition ilog2 (x : Q) : Z :=
  let e0 := Z.log2 (Z.abs (Qnum x)) - Z.log2 (Zpos (Qden x)) in
  if Qle_bool (pow2 e0) (Qabs x) then e0 else e0 - 1.

(** Rounding to the nearest integer, ties to the even one. *)
Definition rne (x : Q) : Z :=
  let f := Qfloor x in
  match (x - inject_Z f ?= 1 # 2)%Q with
  | Lt => f
  | Gt => f + 1
  | Eq => if Z.even f then f else f + 1
  end.

(** The least exponent of a normal double. *)
Definition emin : Z := -1022.

(** The spacing of the doubles around [x]. *)
Definition ulp (x : Q) : Q := pow2 (Z.max (ilog2 x) emin - 52).

(** The double nearest to [x]. *)
Definition round (x : Q) : Q :=
  if Qeq_bool x 0 then 0%Q else Qred (inject_Z (rne (x / ulp x)) * ulp x)%Q.

(** [x + y], [x - y] and [x * y] on doubles. *)
Definition add (x y : Q) : Q := round (x + y)%Q.
Definition sub (x y : Q) : Q := round (x - y)%Q.
Definition mul (x y : Q) : Q := round (x * y)%Q.

(** A rational that is a double. *)
Definition representable (x : Q) : Prop := (round x == x)%Q.

(** The double a decimal literal of the source denotes. *)
Definition lit (x : Q) : Q := round x.

(** [a + b] and [a - b] on doubles whose value is an integer; the result
    is an integer again. *)
Definition addZ (a b : Z) : Z := Qfloor (add (inject_Z a) (inject_Z b)).
Definition subZ (a b : Z) : Z := Qfloor (sub (inject_Z a) (inject_Z b)).

(** The largest double below 1, [1 - 2^-53]. *)
Definition belowOne : Q := (1 - pow2 (-53))%Q.

(** The rational a finite float of the standard library's specification
    of IEEE 754 denotes, and whether such a float denotes [x]; used to
    compare [round] with that specification. *)
Definition ofSpec (f : SpecFloat.spec_float) : option Q :=
  match f with
  | SpecFloat.S754_zero _ => Some 0%Q
  | SpecFloat.S754_finite s m e =>
      Some ((if s then -1 else 1) * inject_Z (Zpos m) * pow2 e)%Q
  | _ => None
  end.

Definition denotes (f : SpecFloat.spec_float) (x : Q) : bool :=
  match ofSpec f with
  | Some y => Qeq_bool y x
  | None => false
  end.

Arguments round : simpl never.
Arguments add : simpl never.
Arguments sub : simpl never.
Arguments mul : simpl never.
Arguments lit : simpl never.
Arguments addZ : simpl never.
Arguments subZ : simpl never.

End Double.

(* ===================================================================== *)
(** ** Habits screen (HabitsScreen, src/unnamed/part_000) *)
(* ===================================================================== *)

Module Habits.

(** [interface Habit]. *)
Record Habit := mkHabit {
  id : Z;
  name : string;
  description : string;
  philosophy : string;
  streak : Z;
  completed : bool;
  color : string
}.

(** [const initialHabits: Habit[]]. *)
Definition initialHabits : list Habit :=
  [ mkHabit 1 "Morning Meditation" "Start the day with 10 minutes of mindfulness"
            "Buddhism" 3 false "#A1CEDC";
    mkHabit 2 "Journaling" "Evening reflection on daily events"
            "Stoicism" 5 false "#D0A1DC";
    mkHabit 3 "Nature Walk" "Connect with nature for 20 minutes"
            "Taoism" 1 false "#A1DCA5";
    mkHabit 4 "Gratitude Practice" "List three things you are grateful for"
            "Stoicism" 7 false "#DCA1A1" ].

(** The object built by the spread in [toggleHabitCompletion]:
    [{ ...habit, completed: !habit.completed,
       streak: !habit.completed ? habit.streak + 1 : habit.streak - 1 }]. *)
Definition toggled (habit : Habit) : Habit :=
  {| id := id habit;
     name := name habit;
     description := description habit;
     philosophy := philosophy habit;
     streak := if negb (completed habit) then Double.addZ (streak habit) 1
               else Double.subZ (streak habit) 1;
     completed := negb (completed habit);
     color := color habit |}.

(** [toggleHabitCompletion(id)] as the updater it hands to [setHabits]:
    [prevHabits.map(habit => habit.id === id ? {...} : habit)]. *)
Definition toggleHabitCompletion (id0 : Z) (prevHabits : list Habit) : list Habit :=
  map (fun habit => if id habit =? id0 then toggled habit else habit) prevHabits.

(** [getCompletionPercentage], kept as the pair (completedCount, habits.length)
    whose quotient times 100 the source passes to [withTiming]. *)
Definition completedCount (habits : list Habit) : nat :=
  length (filter (fun habit => completed habit = true) habits).

(** The positions of an array that an update leaves different from what
    they held before. *)
Fixpoint changedPositions {A} (eqb : A -> A -> bool) (before after : list A) (i : nat)
  : list nat :=
  match before, after with
  | b :: bs, a :: as_ =>
      if eqb b a then changedPositions eqb bs as_ (S i)
      else i :: changedPositions eqb bs as_ (S i)
  | _, _ => []
  end.

Definition Habit_eqb (h1 h2 : Habit) : bool :=
  (id h1 =? id h2) && String.eqb (name h1) (name h2)
  && String.eqb (description h1) (description h2)
  && String.eqb (philosophy h1) (philosophy h2)
  && (streak h1 =? streak h2) && Bool.eqb (completed h1) (completed h2)
  && String.eqb (color h1) (color h2).

(** The positions [toggleHabitCompletion id0] affects in [habits]. *)
Definition affected (id0 : Z) (habits : list Habit) : list nat :=
  changedPositions Habit_eqb habits (toggleHabitCompletion id0 habits) 0.

(** The positions whose element carries the id [id0]. *)
Fixpoint positionsWithId (id0 : Z) (habits : list Habit) (i : nat) : list nat :=
  match habits with
  | [] => []
  | h :: hs =>
      if id h =? id0 then i :: positionsWithId id0 hs (S i)
      else positionsWithId id0 hs (S i)
  end.

(** [getCompletionPercentage()]: [(completedCount / habits.length) * 100].
    With no habits the quotient is [0 / 0], which is [NaN]: [None] here. *)
Definition getCompletionPercentage (habits : list Habit) : option Q :=
  if (length habits =? 0)%nat then None
  else Some (inject_Z (Z.of_nat (completedCount habits))
             / inject_Z (Z.of_nat (length habits)) * 100)%Q.

(** The successive calls [toggleHabitCompletion(id)] of a session, applied
    to the state in order. *)
Definition toggleAll (ids : list Z) (habits : list Habit) : list Habit :=
  fold_left (fun hs id0 => toggleHabitCompletion id0 hs) ids habits.

(** A habit whose streak is a safe integer ([Number.isSafeInteger]):
    below [2^53] in magnitude. *)
Definition safeStreak (h : Habit) : Prop := Z.abs (streak h) < 2 ^ 53.

(** The quantity a toggle keeps: the streak without the day's completion. *)
Definition streakBase (h : Habit) : Z := streak h - (if completed h then 1 else 0).

(** A habit on which the two steps of a toggle are exact: the streak
    without the day's completion and that streak plus one are both
    within [2^53] in magnitude. *)
Definition exactBase (h : Habit) : Prop := - 2 ^ 53 <= streakBase h < 2 ^ 53.

End Habits.

(* ===================================================================== *)
(** ** Profile screen (ProfileScreen, src/unnamed/part_001) *)
(* ===================================================================== *)

Module Profile.

(** [interface PhilosophicalPreference]. *)
Record PhilosophicalPreference := mkPref {
  id : Z;
  name : string;
  selected : bool
}.

(** [const philosophicalPreferences]. *)
Definition philosophicalPreferences : list PhilosophicalPreference :=
  [ mkPref 1 "Stoicism" true;
    mkPref 2 "Buddhism" true;
    mkPref 3 "Taoism" true;
    mkPref 4 "Confucianism" false;
    mkPref 5 "Epicureanism" false;
    mkPref 6 "Existentialism" false ].

(** [togglePreference(id)] as the updater handed to [setPreferences]:
    [prevPreferences.map(pref => pref.id === id
       ? { ...pref, selected: !pref.selected } : pref)]. *)
Definition togglePreference (id0 : Z) (prevPreferences : list PhilosophicalPreference)
  : list PhilosophicalPreference :=
  map (fun pref =>
         if id pref =? id0
         then {| id := id pref; name := name pref; selected := negb (selected pref) |}
         else pref)
      prevPreferences.

Definition Pref_eqb (p1 p2 : PhilosophicalPreference) : bool :=
  (id p1 =? id p2) && String.eqb (name p1) (name p2)
  && Bool.eqb (selected p1) (selected p2).

Definition affected (id0 : Z) (prefs : list PhilosophicalPreference) : list nat :=
  Habits.changedPositions Pref_eqb prefs (togglePreference id0 prefs) 0.

Fixpoint positionsWithId (id0 : Z) (prefs : list PhilosophicalPreference) (i : nat)
  : list nat :=
  match prefs with
  | [] => []
  | p :: ps =>
      if id p =? id0 then i :: positionsWithId id0 ps (S i)
      else positionsWithId id0 ps (S i)
  end.

(** [interface AppSettings]. *)
Record AppSettings := mkSettings {
  darkMode : bool;
  notifications : bool;
  dailyReminders : bool;
  weeklyReports : bool;
  dataSync : bool
}.

(** [const initialSettings]. *)
Definition initialSettings : AppSettings :=
  {| darkMode := false; notifications := true; dailyReminders := true;
     weeklyReports := true; dataSync := false |}.

(** [keyof AppSettings]. *)
Inductive SettingKey :=
| key_darkMode | key_notifications | key_dailyReminders | key_weeklyReports | key_dataSync.

(** [settings[setting]]. *)
Definition getSetting (setting : SettingKey) (settings : AppSettings) : bool :=
  match setting with
  | key_darkMode => darkMode settings
  | key_notifications => notifications settings
  | key_dailyReminders => dailyReminders settings
  | key_weeklyReports => weeklyReports settings
  | key_dataSync => dataSync settings
  end.

(** [{ ...settings, [setting]: v }]. *)
Definition withSetting (setting : SettingKey) (v : bool) (settings : AppSettings)
  : AppSettings :=
  match setting with
  | key_darkMode =>
      {| darkMode := v; notifications := notifications settings;
         dailyReminders := dailyReminders settings;
         weeklyReports := weeklyReports settings; dataSync := dataSync settings |}
  | key_notifications =>
      {| darkMode := darkMode settings; notifications := v;
         dailyReminders := dailyReminders settings;
         weeklyReports := weeklyReports settings; dataSync := dataSync settings |}
  | key_dailyReminders =>
      {| darkMode := darkMode settings; notifications := notifications settings;
         dailyReminders := v;
         weeklyReports := weeklyReports settings; dataSync := dataSync settings |}
  | key_weeklyReports =>
      {| darkMode := darkMode settings; notifications := notifications settings;
         dailyReminders := dailyReminders settings;
         weeklyReports := v; dataSync := dataSync settings |}
  | key_dataSync =>
      {| darkMode := darkMode settings; notifications := notifications settings;
         dailyReminders := dailyReminders settings;
         weeklyReports := weeklyReports settings; dataSync := v |}
  end.

(** [toggleSetting(setting)] as the updater handed to [setSettings]:
    [prevSettings => ({ ...prevSettings, [setting]: !prevSettings[setting] })]. *)
Definition toggleSetting (setting : SettingKey) (prevSettings : AppSettings)
  : AppSettings :=
  withSetting setting (negb (getSetting setting prevSettings)) prevSettings.

End Profile.

(* ===================================================================== *)
(** ** JavaScript strings as the screens use them *)
(* ===================================================================== *)

Module JSString.

(** A JavaScript string is a sequence of UTF-16 code units. *)
Definition jsstring := list N.

(** A literal of the source that is plain ASCII. *)
Fixpoint lit (s : string) : jsstring :=
  match s with
  | EmptyString => []
  | String c rest => N_of_ascii c :: lit rest
  end.

(** ECMAScript's WhiteSpace and LineTerminator code points, the ones
    [String.prototype.trim] strips: TAB, LF, VT, FF, CR, SPACE, NBSP,
    U+1680, U+2000..U+200A, U+2028, U+2029, U+202F, U+205F, U+3000, U+FEFF. *)
Definition isWhiteSpace (c : N) : bool :=
  ((9 <=? c) && (c <=? 13) || (c =? 32) || (c =? 160) || (c =? 5760)
   || (8192 <=? c) && (c <=? 8202) || (c =? 8232) || (c =? 8233)
   || (c =? 8239) || (c =? 8287) || (c =? 12288) || (c =? 65279))%N.

Fixpoint trimStart (s : jsstring) : jsstring :=
  match s with
  | [] => []
  | c :: rest => if isWhiteSpace c then trimStart rest else s
  end.

Definition trimEnd (s : jsstring) : jsstring := rev (trimStart (rev s)).

(** [s.trim()]. *)
Definition trim (s : jsstring) : jsstring := trimEnd (trimStart s).

(** [!s] for a string: true exactly on the empty string. *)
Definition not (s : jsstring) : bool :=
  match s with [] => true | _ :: _ => false end.

(** A string that is empty or holds white space only. *)
Definition blank (s : jsstring) : Prop := Forall (fun c => isWhiteSpace c = true) s.

End JSString.

(* ===================================================================== *)
(** ** Reanimated animation descriptors *)
(* ===================================================================== *)

Module Reanimated.

(** The easing functions the sources name. *)
Inductive Easing :=
| ease | linear | quad | cubic | sin
| back (s : Q)
| bezier (x1 y1 x2 y2 : Q)
| Easing_in (e : Easing)
| Easing_out (e : Easing)
| inOut (e : Easing).

(** What can be assigned to a shared value's [.value]. A missing
    [duration] or [easing] in the config object is [None] (the library's
    default). *)
Inductive Anim :=
| Num (v : Q)
| withTiming (toValue : Q) (duration : option Q) (easing : option Easing)
| withSequence (steps : list Anim)
| withRepeat (a : Anim) (numberOfReps : Z) (reverse : bool)
| withDelay (delayMs : Q) (a : Anim).

(** [withTiming(v, { duration: d })]. *)
Definition timing (v d : Q) : Anim := withTiming v (Some d) None.
(** [withTiming(v, { duration: d, easing: e })]. *)
Definition timingE (v d : Q) (e : Easing) : Anim := withTiming v (Some d) (Some e).

(** An animation that never completes by itself: a [withRepeat] with a
    non-positive repetition count at its head. *)
Definition endless (a : Anim) : bool :=
  match a with
  | withRepeat _ n _ => n <=? 0
  | _ => false
  end.

End Reanimated.

(* ===================================================================== *)
(** ** Decisions screen (src/app/(tabs)/decisions.tsx) *)
(* ===================================================================== *)

Module Decisions.
Import JSString Reanimated.

(** [interface Framework]. *)
Record Framework := mkFramework {
  id : Z;
  name : string;
  description : string;
  philosophy : string;
  steps : list string
}.

(** The double-quote character, which occurs inside one description. *)
Definition dquote : string := String (ascii_of_nat 34) EmptyString.

(** [const frameworks: Framework[]]. *)
Definition frameworks : list Framework :=
  [ mkFramework 1 "Stoic Fork"
      "Based on Stoic philosophy, this framework helps you focus on what you can control."
      "Stoicism"
      [ "Identify what aspects of the situation are within your control";
        "Recognize what aspects are outside your control";
        "Focus your energy only on what you can influence";
        "Accept with equanimity what you cannot change" ];
    mkFramework 2 "Middle Way"
      "Inspired by Buddhist philosophy, find balance between extremes."
      "Buddhism"
      [ "Identify the extreme positions or choices";
        "Reflect on the potential consequences of each extreme";
        "Find a balanced approach that avoids extremes";
        "Choose the path that minimizes suffering for all involved" ];
    mkFramework 3 "Wu Wei Decision"
      (String.append "Based on Taoist principle of "
         (String.append dquote
            (String.append "effortless action"
               (String.append dquote " - align with the natural flow."))))
      "Taoism"
      [ "Observe the natural patterns in the situation";
        "Consider which option requires the least force or resistance";
        "Identify which choice aligns with your true nature";
        "Choose the path of least resistance that accomplishes your goal" ];
    mkFramework 4 "Socratic Method"
      "Use systematic questioning to examine assumptions and reach clarity."
      "Greek Philosophy"
      [ "What do I think I know about this situation?";
        "How can I test these assumptions?";
        "What contradictions exist in my thinking?";
        "What is the most logical conclusion based on this examination?" ] ].

(** The screen's mascot moods. *)
Inductive Mood := thinking | happy | excited | meditating.

(** The component's [useState] cells and shared values. *)
Record State := mkState {
  decision : jsstring;
  selectedFramework : option Framework;
  currentStep : Z;
  responses : list jsstring;
  showResults : bool;
  inputText : jsstring;
  mascotMood : Mood;
  cardOpacity : Anim;
  cardTranslateY : Anim;
  stepOpacity : Anim;
  stepScale : Anim;
  resultsOpacity : Anim
}.

(** The values of the first render: the arguments of [useState] and
    [useSharedValue]. *)
Definition initialState : State :=
  {| decision := [];
     selectedFramework := None;
     currentStep := 0;
     responses := [];
     showResults := false;
     inputText := [];
     mascotMood := thinking;
     cardOpacity := Num 0;
     cardTranslateY := Num 30;
     stepOpacity := Num 0;
     stepScale := Num (9 # 10);
     resultsOpacity := Num 0 |}.

(** [steps.length] as a JavaScript number. *)
Definition stepsLength (f : Framework) : Z := Z.of_nat (length (steps f)).

(** [handleFrameworkSelect(framework)]. The closing [scrollTo] call acts on
    the scroll view only and is not part of the state. *)
Definition handleFrameworkSelect (framework : Framework) (st : State) : State :=
  {| decision := decision st;
     selectedFramework := Some framework;
     currentStep := 0;
     responses := [];
     showResults := false;
     inputText := inputText st;
     mascotMood := excited;
     cardOpacity := cardOpacity st;
     cardTranslateY := cardTranslateY st;
     stepOpacity := Num 0;
     stepScale := Num (9 # 10);
     resultsOpacity := Num 0 |}.

(** [handleNextStep(response)]. *)
Definition handleNextStep (response : jsstring) (st : State) : State :=
  let newResponses := responses st ++ [response] in
  let stepOpacity' := withSequence [timing 0 300; timing 1 300] in
  let stepScale' := withSequence [timing (9 # 10) 300; timing 1 300] in
  match selectedFramework st with
  | Some f =>
      if currentStep st <? stepsLength f - 1 then
        {| decision := decision st;
           selectedFramework := selectedFramework st;
           currentStep := currentStep st + 1;
           responses := newResponses;
           showResults := showResults st;
           inputText := [];
           mascotMood :=
             if currentStep st =? 0 then thinking
             else if currentStep st =? stepsLength f - 2 then excited
             else mascotMood st;
           cardOpacity := cardOpacity st;
           cardTranslateY := cardTranslateY st;
           stepOpacity := stepOpacity';
           stepScale := stepScale';
           resultsOpacity := resultsOpacity st |}
      else
        {| decision := decision st;
           selectedFramework := selectedFramework st;
           currentStep := currentStep st;
           responses := newResponses;
           showResults := true;
           inputText := [];
           mascotMood := meditating;
           cardOpacity := cardOpacity st;
           cardTranslateY := cardTranslateY st;
           stepOpacity := stepOpacity';
           stepScale := stepScale';
           resultsOpacity := withDelay 600 (timing 1 800) |}
  | None =>
      {| decision := decision st;
         selectedFramework := None;
         currentStep := currentStep st;
         responses := newResponses;
         showResults := true;
         inputText := [];
         mascotMood := meditating;
         cardOpacity := cardOpacity st;
         cardTranslateY := cardTranslateY st;
         stepOpacity := stepOpacity';
         stepScale := stepScale';
         resultsOpacity := withDelay 600 (timing 1 800) |}
  end.

(** [resetDecision()]. *)
Definition resetDecision (st : State) : State :=
  {| decision := [];
     selectedFramework := None;
     currentStep := 0;
     responses := [];
     showResults := false;
     inputText := inputText st;
     mascotMood := thinking;
     cardOpacity := timing 1 800;
     cardTranslateY := timing 0 800;
     stepOpacity := Num 0;
     stepScale := Num (9 # 10);
     resultsOpacity := Num 0 |}.

(** [setDecision] and [setInputText], the [onChangeText] callbacks. *)
Definition setDecision (text : jsstring) (st : State) : State :=
  {| decision := text;
     selectedFramework := selectedFramework st;
     currentStep := currentStep st;
     responses := responses st;
     showResults := showResults st;
     inputText := inputText st;
     mascotMood := mascotMood st;
     cardOpacity := cardOpacity st;
     cardTranslateY := cardTranslateY st;
     stepOpacity := stepOpacity st;
     stepScale := stepScale st;
     resultsOpacity := resultsOpacity st |}.

Definition setInputText (text : jsstring) (st : State) : State :=
  {| decision := decision st;
     selectedFramework := selectedFramework st;
     currentStep := currentStep st;
     responses := responses st;
     showResults := showResults st;
     inputText := text;
     mascotMood := mascotMood st;
     cardOpacity := cardOpacity st;
     cardTranslateY := cardTranslateY st;
     stepOpacity := stepOpacity st;
     stepScale := stepScale st;
     resultsOpacity := resultsOpacity st |}.

(** The mount effect: [useEffect(() => {...}, [])]. *)
Definition mountEffect (st : State) : State :=
  {| decision := decision st;
     selectedFramework := selectedFramework st;
     currentStep := currentStep st;
     responses := responses st;
     showResults := showResults st;
     inputText := inputText st;
     mascotMood := mascotMood st;
     cardOpacity := timing 1 800;
     cardTranslateY := timing 0 800;
     stepOpacity := stepOpacity st;
     stepScale := stepScale st;
     resultsOpacity := resultsOpacity st |}.

(** The body of the effect with dependencies [selectedFramework, currentStep]. *)
Definition stepEffect (st : State) : State :=
  match selectedFramework st with
  | Some _ =>
      {| decision := decision st;
         selectedFramework := selectedFramework st;
         currentStep := currentStep st;
         responses := responses st;
         showResults := showResults st;
         inputText := inputText st;
         mascotMood := mascotMood st;
         cardOpacity := cardOpacity st;
         cardTranslateY := cardTranslateY st;
         stepOpacity := timing 1 500;
         stepScale := timing 1 500;
         resultsOpacity := resultsOpacity st |}
  | None => st
  end.

(** Whether two renders hold the same framework object. The frameworks a
    render can hold are elements of the literal array, told apart by [id]. *)
Definition sameFramework (a b : option Framework) : bool :=
  match a, b with
  | None, None => true
  | Some f, Some g => id f =? id g
  | _, _ => false
  end.

(** React re-runs the step effect after a render whose dependencies differ
    from the previous render's. *)
Definition afterRender (prev next : State) : State :=
  if sameFramework (selectedFramework prev) (selectedFramework next)
     && (currentStep prev =? currentStep next)
  then next else stepEffect next.

(** The first render followed by both effects. *)
Definition mounted : State := stepEffect (mountEffect initialState).

(** What the user can do to the screen. *)
Inductive Event :=
| ChangeDecision (text : jsstring)
| PressFramework (i : nat)
| PressStartOver
| ChangeInputText (text : jsstring)
| PressNext
| PressNewDecision.

(** An event that does not type a decision with a character other than
    white space. *)
Definition keepsBlank (ev : Event) : Prop :=
  match ev with
  | ChangeDecision text => blank text
  | _ => True
  end.

(** [disabled={!decision.trim()}] on every framework card. *)
Definition cardDisabled (st : State) : bool := JSString.not (trim (decision st)).

(** The handler the rendered tree attaches to an event. A widget that the
    current branch of the JSX does not render, or a disabled
    [TouchableOpacity], attaches none. *)
Definition dispatch (ev : Event) (st : State) : State :=
  match selectedFramework st with
  | None =>
      match ev with
      | ChangeDecision text => setDecision text st
      | PressFramework i =>
          match frameworks !! i with
          | Some framework =>
              if cardDisabled st then st else handleFrameworkSelect framework st
          | None => st
          end
      | _ => st
      end
  | Some _ =>
      match ev with
      | PressStartOver => resetDecision st
      | ChangeInputText text => if showResults st then st else setInputText text st
      | PressNext => if showResults st then st else handleNextStep (inputText st) st
      | PressNewDecision => if showResults st then resetDecision st else st
      | _ => st
      end
  end.

(** One UI event: the handler, the re-render, the effects. *)
Definition step (st : State) (ev : Event) : State := afterRender st (dispatch ev st).

(** The screen after a sequence of events. *)
Definition run (evs : list Event) (st : State) : State := fold_left step evs st.

(** What holds of the step flow in every state the screen reaches: the
    selected framework is one of the literal ones, the step counter points
    at one of its steps, one response has been recorded per step taken
    while the steps are shown, and one per step once the results are. *)
Definition flowInvariant (st : State) : Prop :=
  match selectedFramework st with
  | None => True
  | Some f =>
      In f frameworks
      /\ 0 <= currentStep st < stepsLength f
      /\ (showResults st = false -> Z.of_nat (length (responses st)) = currentStep st)
      /\ (showResults st = true -> Z.of_nat (length (responses st)) = stepsLength f)
  end.

(** The pairs (currentStep, showResults) the screen goes through. *)
Fixpoint progression (evs : list Event) (st : State) : list (Z * bool) :=
  (currentStep st, showResults st) ::
  match evs with
  | [] => []
  | ev :: rest => progression rest (step st ev)
  end.

(** The label of the Next button:
    [currentStep < selectedFramework.steps.length - 1 ? 'Next Step' : 'Complete'].
    The button is rendered only with a framework selected. *)
Definition nextButtonLabel (st : State) : option string :=
  match selectedFramework st with
  | Some f => Some (if currentStep st <? stepsLength f - 1 then "Next Step" else "Complete")
  | None => None
  end.

(** The text under step [index] of the results view:
    [responses[index] || "No response provided"]. *)
Definition noResponse : jsstring := lit "No response provided".

Definition resultResponse (st : State) (index : nat) : jsstring :=
  match responses st !! index with
  | Some r => if JSString.not r then noResponse else r
  | None => noResponse
  end.

End Decisions.

(* ===================================================================== *)
(** ** Home screen (HomeScreen, src/unnamed/part_000) *)
(* ===================================================================== *)

Module Home.

Inductive Mood := happy | thinking | excited | meditating.

#[global] Instance Mood_eq_dec : EqDecision Mood.
Proof. solve_decision. Defined.

(** The local array [moods] of [changeMascotMood]. *)
Definition moods : list Mood := [happy; thinking; excited; meditating].

(** [a.indexOf(x)], counting from [i]: [-1] when [x] does not occur. *)
Fixpoint indexOfFrom (x : Mood) (a : list Mood) (i : Z) : Z :=
  match a with
  | [] => -1
  | y :: rest => if decide (y = x) then i else indexOfFrom x rest (i + 1)
  end.

Definition indexOf (x : Mood) (a : list Mood) : Z := indexOfFrom x a 0.

(** [a[i]]: [None] is [undefined]. *)
Definition at_index (a : list Mood) (i : Z) : option Mood :=
  if i <? 0 then None else a !! Z.to_nat i.

(** [changeMascotMood()]: the value it hands to [setMascotMood], given the
    current [mascotMood]. JavaScript's [%] is the remainder that takes the
    sign of the dividend, [Z.rem]. *)
Definition changeMascotMood (mascotMood : Mood) : option Mood :=
  let currentIndex := indexOf mascotMood moods in
  let nextIndex := Z.rem (currentIndex + 1) (Z.of_nat (length moods)) in
  at_index moods nextIndex.

(** [n] presses on the mascot. *)
Fixpoint presses (n : nat) (mascotMood : Mood) : option Mood :=
  match n with
  | O => Some mascotMood
  | S k =>
      match presses k mascotMood with
      | Some m => changeMascotMood m
      | None => None
      end
  end.

End Home.

(* ===================================================================== *)
(** ** The avatar of the profile screen (ProfileScreen, src/unnamed/part_001) *)
(* ===================================================================== *)

Module ProfileAvatar.
Import JSString.

(** [s.split(sep)] for a separator of one code unit: the pieces between
    the separators, the empty ones included. *)
Fixpoint split (sep : N) (s : jsstring) : list jsstring :=
  match s with
  | [] => [[]]
  | c :: rest =>
      if (c =? sep)%N then [] :: split sep rest
      else
        match split sep rest with
        | piece :: pieces => (c :: piece) :: pieces
        | [] => [[c]]
        end
  end.

(** [n[0]]: [None] is [undefined]. *)
Definition firstUnit (n : jsstring) : option N := head n.

(** [a.join('')] on single code units: [undefined] joins as the empty
    string. *)
Fixpoint joinEmpty (a : list (option N)) : jsstring :=
  match a with
  | [] => []
  | Some c :: rest => c :: joinEmpty rest
  | None :: rest => joinEmpty rest
  end.

(** The avatar text: [name.split(' ').map(n => n[0]).join('')]. *)
Definition initials (name : jsstring) : jsstring :=
  joinEmpty (map firstUnit (split 32 name)).

End ProfileAvatar.

(* ===================================================================== *)
(** ** The home, habits and profile screens at mount (src/unnamed) *)
(* ===================================================================== *)

(** [HomeScreen]: its two shared values, its mood cell and its mount
    effect. *)
Module HomeScreen.
Import Reanimated.

Record State := mkState {
  mascotMood : Home.Mood;
  scale : Anim;
  rotation : Anim
}.

Definition initialState : State :=
  {| mascotMood := Home.happy; scale := Num 1; rotation := Num 0 |}.

(** The body of [useEffect(..., [])]. *)
Definition mountEffect (st : State) : State :=
  {| mascotMood := mascotMood st;
     scale := withRepeat (timingE (11 # 10) 2000 (inOut ease)) (-1) true;
     rotation := withRepeat (timingE 360 20000 linear) (-1) false |}.

Definition mounted : State := mountEffect initialState.

End HomeScreen.

(** [ProfileScreen]: its two [useState] cells, its three shared values
    and its mount effect. *)
Module ProfileScreen.
Import Reanimated.

Record State := mkState {
  preferences : list Profile.PhilosophicalPreference;
  settings : Profile.AppSettings;
  profileOpacity : Anim;
  profileTranslateY : Anim;
  statsScale : Anim
}.

Definition initialState : State :=
  {| preferences := Profile.philosophicalPreferences;
     settings := Profile.initialSettings;
     profileOpacity := Num 0;
     profileTranslateY := Num 30;
     statsScale := Num (8 # 10) |}.

(** The body of [useEffect(..., [])]. *)
Definition mountEffect (st : State) : State :=
  {| preferences := preferences st;
     settings := settings st;
     profileOpacity := timing 1 800;
     profileTranslateY := timing 0 800;
     statsScale :=
       withSequence [ timingE (11 # 10) 400 (bezier (25 # 100) (1 # 10) (25 # 100) 1);
                      timing 1 200 ] |}.

Definition mounted : State := mountEffect initialState.

End ProfileScreen.

(** [HabitsScreen]: the screen reads the clock. Its [selectedDay] cell
    starts at [new Date().getDay()] and every render of the calendar
    strip computes the date numbers from further [new Date()] calls. *)
Module HabitsScreen.
Import Reanimated.

(** What a run's [Date] gives: the time value (milliseconds since the
    epoch) of each successive [new Date()], and the three methods the
    screen calls, on time values. [setDate t d] is the time value that
    [setDate(d)] leaves in a date that held [t], which is also what it
    returns. *)
Record Clock := mkClock {
  read : nat -> Z;
  getDay : Z -> Z;
  getDate : Z -> Z;
  setDate : Z -> Z -> Z
}.


(** [const daysOfWeek]. *)
Definition daysOfWeek : list string := ["Sun"; "Mon"; "Tue"; "Wed"; "Thu"; "Fri"; "Sat"].

Record State := mkState {
  habits : list Habits.Habit;
  selectedDay : Z;
  listOpacity : Anim;
  listTranslateY : Anim;
  progressWidth : option Anim     (* [None]: a timing towards [NaN] *)
}.

(** The first render: [useState(initialHabits)],
    [useState(new Date().getDay())] with the first [new Date()] of the
    run, and the three shared values. *)
Definition initialState (c : Clock) : State :=
  {| habits := Habits.initialHabits;
     selectedDay := getDay c (read c 0);
     listOpacity := Num 0;
     listTranslateY := Num 30;
     progressWidth := Some (Num 0) |}.

(** The body of [useEffect(..., [habits])]:
    [progressWidth.value = withTiming(getCompletionPercentage(), {...})]. *)
Definition progressEffect (st : State) : State :=
  {| habits := habits st;
     selectedDay := selectedDay st;
     listOpacity := listOpacity st;
     listTranslateY := listTranslateY st;
     progressWidth :=
       match Habits.getCompletionPercentage (habits st) with
       | Some p => Some (timingE p 500 (bezier (25 # 100) (1 # 10) (25 # 100) 1))
       | None => None
       end |}.

(** The body of [useEffect(..., [])]. *)
Definition mountEffect (st : State) : State :=
  {| habits := habits st;
     selectedDay := selectedDay st;
     listOpacity := timing 1 800;
     listTranslateY := timing 0 800;
     progressWidth := progressWidth st |}.

(** The first render followed by both effects. *)
Definition mounted (c : Clock) : State := progressEffect (mountEffect (initialState c)).

(** The date number under the day at [index], in a render whose
    [new Date()] calls for this cell start at the [k]-th of the run:
    [new Date(new Date().setDate(new Date().getDate() - new Date().getDay()
    + index)).getDate()]. The receiver of [setDate] is created first,
    then the two arguments' dates. *)
Definition dateShown (c : Clock) (k : nat) (index : Z) : Z :=
  getDate c
    (setDate c (read c k)
       (getDate c (read c (k + 1)%nat) - getDay c (read c (k + 2)%nat) + index)).

(** The calendar strip of a render whose [new Date()] calls start at the
    [k]-th of the run: for each day its name, its date number and
    whether it has the selected style ([selectedDay === index]). *)
Definition calendar (c : Clock) (k : nat) (st : State) : list (string * Z * bool) :=
  imap (fun i day =>
          (day, dateShown c (k + 3 * i)%nat (Z.of_nat i), selectedDay st =? Z.of_nat i))
       daysOfWeek.

(** The strip of the first render: the cell's initial value used the
    run's first [new Date()]. *)
Definition firstCalendar (c : Clock) : list (string * Z * bool) :=
  calendar c 1 (initialState c).

(** *** A clock for a device on universal time, after ECMA-262's Date *)

Definition msPerDay : Z := 86400000.

(** [Day(t)] and [TimeWithinDay(t)]. *)
Definition Day (t : Z) : Z := t / msPerDay.
Definition TimeWithinDay (t : Z) : Z := t mod msPerDay.

(** [DayFromYear(y)]: the day number of the first day of year [y]. *)
Definition DayFromYear (y : Z) : Z :=
  365 * (y - 1970) + (y - 1969) / 4 - (y - 1901) / 100 + (y - 1601) / 400.

Definition InLeapYear (y : Z) : bool :=
  (y mod 4 =? 0) && (negb (y mod 100 =? 0) || (y mod 400 =? 0)).

(** [YearFromTime]: the year whose first day is the last one not after
    the day [d]. *)
Definition yearFromDay (d : Z) : Z :=
  let y0 := 1970 + (d * 400) / 146097 in
  if d <? DayFromYear y0 then y0 - 1
  else if DayFromYear (y0 + 1) <=? d then y0 + 1
  else y0.

(** The days of the year before each month. *)
Definition daysBeforeMonth (leap : bool) (m : Z) : Z :=
  let l := if leap then 1 else 0 in
  match m with
  | 0 => 0 | 1 => 31 | 2 => 59 + l | 3 => 90 + l | 4 => 120 + l | 5 => 151 + l
  | 6 => 181 + l | 7 => 212 + l | 8 => 243 + l | 9 => 273 + l | 10 => 304 + l
  | _ => 334 + l
  end.

(** [MonthFromTime], from the day within the year. *)
Definition monthFromDay (d : Z) : Z :=
  let y := yearFromDay d in
  let n := d - DayFromYear y in
  let leap := InLeapYear y in
  if n <? daysBeforeMonth leap 1 then 0 else if n <? daysBeforeMonth leap 2 then 1
  else if n <? daysBeforeMonth leap 3 then 2 else if n <? daysBeforeMonth leap 4 then 3
  else if n <? daysBeforeMonth leap 5 then 4 else if n <? daysBeforeMonth leap 6 then 5
  else if n <? daysBeforeMonth leap 7 then 6 else if n <? daysBeforeMonth leap 8 then 7
  else if n <? daysBeforeMonth leap 9 then 8 else if n <? daysBeforeMonth leap 10 then 9
  else if n <? daysBeforeMonth leap 11 then 10 else 11.

(** [DateFromTime]: the day of the month, from 1. *)
Definition dateFromDay (d : Z) : Z :=
  let y := yearFromDay d in
  d - DayFromYear y - daysBeforeMonth (InLeapYear y) (monthFromDay d) + 1.

(** [MakeDay(year, month, date)] for a month in 0..11. *)
Definition MakeDay (year month date : Z) : Z :=
  DayFromYear year + daysBeforeMonth (InLeapYear year) month + date - 1.

(** [WeekDay(t)]. *)
Definition WeekDay (t : Z) : Z := (Day t + 4) mod 7.

(** The clock of a device on universal time on which every [new Date()]
    of the run gives the time value [t]. *)
Definition utc (t : Z) : Clock :=
  {| read := fun _ => t;
     getDay := WeekDay;
     getDate := fun t0 => dateFromDay (Day t0);
     setDate := fun t0 d =>
       MakeDay (yearFromDay (Day t0)) (monthFromDay (Day t0)) d * msPerDay
       + TimeWithinDay t0 |}.

End HabitsScreen.

(* ===================================================================== *)
(** ** Wisdom screen (WisdomScreen, src/unnamed/part_000) *)
(* ===================================================================== *)

Module Wisdom.
Import Reanimated.

(** [interface Quote]. *)
Record Quote := mkQuote {
  id : Z;
  text : string;
  author : string
}.

(** [interface Philosophy]. Its [id] field is [pid] here, the name [id]
    being taken by [Quote]'s; [icon] holds the emoji as its UTF-8 bytes. *)
Record Philosophy := mkPhilosophy {
  pid : Z;
  name : string;
  icon : string;
  description : string;
  quotes : list Quote
}.

(** [const philosophers: Philosophy[]]. *)
Definition philosophers : list Philosophy :=
  [ mkPhilosophy 1 "Stoicism" "🏛️"
      "Ancient Greek and Roman philosophy emphasizing virtue, reason, and resilience."
      [ mkQuote 1 "The happiness of your life depends upon the quality of your thoughts."
                "Marcus Aurelius";
        mkQuote 2 "You have power over your mind - not outside events. Realize this, and you will find strength."
                "Marcus Aurelius";
        mkQuote 3 "He who fears death will never do anything worthy of a man who is alive."
                "Seneca" ];
    mkPhilosophy 2 "Buddhism" "☸️"
      "Eastern philosophy focused on mindfulness, compassion, and the end of suffering."
      [ mkQuote 1 "Peace comes from within. Do not seek it without." "Buddha";
        mkQuote 2 "The mind is everything. What you think you become." "Buddha";
        mkQuote 3 "Holding on to anger is like grasping a hot coal with the intent of throwing it at someone else; you are the one who gets burned."
                "Buddha" ];
    mkPhilosophy 3 "Taoism" "☯️"
      "Chinese philosophy emphasizing living in harmony with the Tao (the Way)."
      [ mkQuote 1 "Nature does not hurry, yet everything is accomplished." "Lao Tzu";
        mkQuote 2 "A good traveler has no fixed plans and is not intent on arriving." "Lao Tzu";
        mkQuote 3 "The journey of a thousand miles begins with a single step." "Lao Tzu" ];
    mkPhilosophy 4 "Confucianism" "🧠"
      "Chinese ethical and philosophical system focused on proper conduct and social harmony."
      [ mkQuote 1 "It does not matter how slowly you go as long as you do not stop." "Confucius";
        mkQuote 2 "Life is really simple, but we insist on making it complicated." "Confucius";
        mkQuote 3 "Our greatest glory is not in never falling, but in rising every time we fall."
                "Confucius" ] ].

Inductive Mood := thinking | meditating.

(** The component's [useState] cells and shared values. [dailyQuote] is
    [None] when the state holds [undefined]. *)
Record State := mkState {
  selectedPhilosophy : option Philosophy;
  dailyQuote : option Quote;
  mascotMood : Mood;
  cardScale : Anim;
  quoteOpacity : Anim;
  quoteTranslateY : Anim
}.

Definition initialState : State :=
  {| selectedPhilosophy := None;
     dailyQuote := Some (mkQuote 0 "" "");
     mascotMood := thinking;
     cardScale := Num 1;
     quoteOpacity := Num 0;
     quoteTranslateY := Num 20 |}.

(** [philosophers.flatMap(p => p.quotes)]. *)
Definition allQuotes : list Quote := flat_map quotes philosophers.

(** [a[i]] for a number [i]: [undefined] outside the array. *)
Definition at_index {A} (a : list A) (i : Z) : option A :=
  if i <? 0 then None else a !! Z.to_nat i.

(** [Math.floor(random * allQuotes.length)], where [random] is what this
    call of [Math.random()] returned: the floor of the product as a
    double. *)
Definition randomIndex (random : Q) : Z :=
  Qfloor (Double.mul random (inject_Z (Z.of_nat (length allQuotes)))).

(** The mount effect, given the result of its [Math.random()] call. *)
Definition mountEffect (random : Q) (st : State) : State :=
  let randomQuote := at_index allQuotes (randomIndex random) in
  {| selectedPhilosophy := selectedPhilosophy st;
     dailyQuote := randomQuote;
     mascotMood := mascotMood st;
     cardScale := cardScale st;
     quoteOpacity := timing 1 1000;
     quoteTranslateY := timing 0 1000 |}.

(** The screen once mounted, in a run whose [Math.random()] gave [random]. *)
Definition mounted (random : Q) : State := mountEffect random initialState.

(** [handlePhilosophyPress(philosophy)]. *)
Definition handlePhilosophyPress (philosophy : Philosophy) (st : State) : State :=
  {| selectedPhilosophy := Some philosophy;
     dailyQuote := dailyQuote st;
     mascotMood := meditating;
     cardScale := withSequence [timing (95 # 100) 100; timing 1 100];
     quoteOpacity := quoteOpacity st;
     quoteTranslateY := quoteTranslateY st |}.


(** Whether a philosophy card gets [styles.selectedCard]:
    [selectedPhilosophy?.id === philosophy.id]. *)
Definition isSelectedCard (st : State) (philosophy : Philosophy) : bool :=
  match selectedPhilosophy st with
  | Some p => pid p =? pid philosophy
  | None => false
  end.

(** The positions of the cards of [philosophers.map(...)] that are
    highlighted. *)
Fixpoint selectedFrom (st : State) (cards : list Philosophy) (i : nat) : list nat :=
  match cards with
  | [] => []
  | p :: rest =>
      if isSelectedCard st p then i :: selectedFrom st rest (S i)
      else selectedFrom st rest (S i)
  end.

Definition highlighted (st : State) : list nat := selectedFrom st philosophers 0.

(** The quotes listed under Key Teachings:
    [selectedPhilosophy && selectedPhilosophy.quotes.map(...)]. *)
Definition keyTeachings (st : State) : list Quote :=
  match selectedPhilosophy st with
  | Some p => quotes p
  | None => []
  end.

(** A press on the card at position [i] of [philosophers.map(...)]. *)
Definition pressCard (st : State) (i : nat) : State :=
  match philosophers !! i with
  | Some p => handlePhilosophyPress p st
  | None => st
  end.

End Wisdom.

(* ===================================================================== *)
(** ** The effects a character component performs *)
(* ===================================================================== *)

(** A component's set-up code builds animations, assigns to shared
    values, cancels their animations, draws from [Math.random()], arms
    timers with [setTimeout], writes to the console and may throw. It is modelled as a state and
    exception monad over a [World] that records every primitive operation
    in the order it happened, with the time at which it happened. *)
Module Runtime.
Import Reanimated.

Section Effects.
Context {SV CB : Type}.

(** The primitive operations. *)
Inductive Op :=
| Assign (sv : SV) (a : Anim)          (* sv.value = a *)
| Normalize (sv : SV) (fallback : Q)   (* sv.value = sv.value || fallback *)
| Cancel (sv : SV)                     (* cancelAnimation(sv) *)
| SetTimeout (cb : CB) (delay : Q)     (* setTimeout(cb, delay) *)
| Warn (msg : string)                  (* console.warn(msg, error) *)
| OnPress                              (* onPress() *)
| Build (a : Anim).                    (* the builder calls that make a *)

(** What a run does not control: the successive results of
    [Math.random()], which primitive operations throw when attempted, and
    whether the parent passed an [onPress] prop. *)
Record Env := mkEnv {
  random : nat -> Q;
  throws : Op -> bool;
  onPressGiven : bool
}.

Record World := mkWorld {
  now : Q;                          (* the clock, in milliseconds *)
  drawn : nat;                      (* calls of Math.random() so far *)
  isComponentMounted : bool;        (* the ref of that name *)
  timers : list (Q * CB);           (* armed timers with their due times *)
  log : list (Q * Op)               (* operations performed, oldest first *)
}.

Inductive Result (A : Type) :=
| Ok (a : A)
| Throw.
Arguments Ok {A} a.
Arguments Throw {A}.

Definition M (A : Type) : Type := Env -> World -> World * Result A.

Definition ret {A} (a : A) : M A := fun _ w => (w, Ok a).

Definition bind {A B} (m : M A) (k : A -> M B) : M B :=
  fun env w =>
    match m env w with
    | (w', Ok a) => k a env w'
    | (w', Throw) => (w', Throw)
    end.

(** [try { body } catch (error) { handler }]. *)
Definition tryCatch (body handler : M unit) : M unit :=
  fun env w =>
    match body env w with
    | (w', Ok a) => (w', Ok a)
    | (w', Throw) => handler env w'
    end.

Definition record (op : Op) (w : World) : World :=
  {| now := now w; drawn := drawn w; isComponentMounted := isComponentMounted w;
     timers := timers w; log := log w ++ [(now w, op)] |}.

(** An operation that may throw: it is recorded when it succeeds. *)
Definition perform (op : Op) : M unit :=
  fun env w => if throws env op then (w, Throw) else (record op w, Ok tt).

(** Evaluating an animation expression such as
    [withSequence(withTiming(...), ...)]: the builder calls change nothing
    the log records, but any of them may throw. *)
Definition build (a : Anim) : M unit :=
  fun env w => if throws env (Build a) then (w, Throw) else (w, Ok tt).

(** [sv.value = <animation expression>]: the expression is evaluated,
    then its result is assigned. *)
Definition animate (sv : SV) (a : Anim) : M unit :=
  bind (build a) (fun _ => perform (Assign sv a)).

(** [console.warn]. *)
Definition warn (msg : string) : M unit :=
  fun _ w => (record (Warn msg) w, Ok tt).

(** Arm a timer due at time [t]. *)
Definition arm (cb : CB) (t : Q) (w : World) : World :=
  {| now := now w; drawn := drawn w; isComponentMounted := isComponentMounted w;
     timers := timers w ++ [(t, cb)]; log := log w |}.

(** [setTimeout(cb, delay)]: the timer is due [delay] after now. *)
Definition setTimeout (cb : CB) (delay : Q) : M unit :=
  fun _ w => (arm cb (now w + delay)%Q (record (SetTimeout cb delay) w), Ok tt).

(** Count one more call of [Math.random()]. *)
Definition tick (w : World) : World :=
  {| now := now w; drawn := S (drawn w); isComponentMounted := isComponentMounted w;
     timers := timers w; log := log w |}.

(** [Math.random()]. *)
Definition mathRandom : M Q :=
  fun env w => (tick w, Ok (random env (drawn w))).

Definition getMounted : M bool := fun _ w => (w, Ok (isComponentMounted w)).

Definition setMounted (b : bool) : M unit :=
  fun _ w =>
    ({| now := now w; drawn := drawn w; isComponentMounted := b;
        timers := timers w; log := log w |}, Ok tt).

(** The position and due time of the timer that fires next: the earliest,
    and among equally early ones the one armed first. *)
Fixpoint nextTimer (ts : list (Q * CB)) : option (nat * Q) :=
  match ts with
  | [] => None
  | (t, _) :: rest =>
      match nextTimer rest with
      | None => Some (O, t)
      | Some (i, t') => if Qle_bool t t' then Some (O, t) else Some (S i, t')
      end
  end.

(** Take the next timer off the list and move the clock to its due time. *)
Definition popTimer (w : World) : option (CB * World) :=
  match nextTimer (timers w) with
  | None => None
  | Some (i, t) =>
      match timers w !! i with
      | None => None
      | Some (_, cb) =>
          Some (cb, {| now := t; drawn := drawn w;
                       isComponentMounted := isComponentMounted w;
                       timers := delete i (timers w); log := log w |})
      end
  end.

(** A run in which no primitive operation throws and no [onPress] prop
    was passed. *)
Definition quiet (rnd : nat -> Q) : Env :=
  {| random := rnd; throws := fun _ => false; onPressGiven := false |}.

(** The results of [Math.random()] lie in [0, 1). *)
Definition unitInterval (rnd : nat -> Q) : Prop :=
  forall k, (0 <= rnd k)%Q /\ (rnd k < 1)%Q.

(** The operations of a log, without their times. *)
Definition ops (l : list (Q * Op)) : list Op := map snd l.

(** The value transitions of a log: its assignments. *)
Definition transitions (l : list (Q * Op)) : list (SV * Anim) :=
  flat_map (fun e => match snd e with Assign sv a => [(sv, a)] | _ => [] end) l.

(** The delays of the timers a log armed. *)
Definition delays (l : list (Q * Op)) : list Q :=
  flat_map (fun e => match snd e with SetTimeout _ d => [d] | _ => [] end) l.

(** The console warnings of a log. *)
Definition warnings (l : list (Q * Op)) : list string :=
  flat_map (fun e => match snd e with Warn msg => [msg] | _ => [] end) l.

(** An action that only ever adds to the log. *)
Definition grows {A} (m : M A) : Prop :=
  forall env w, exists l, log (fst (m env w)) = log w ++ l.

(** [m], run in [w], performs exactly the operations [l], all at the
    current time, and ends with [r]. *)
Definition runsTo (m : M unit) (env : Env) (w : World) (l : list Op) (r : Result unit)
  : Prop :=
  log (fst (m env w)) = log w ++ map (fun op => (now w, op)) l
  /\ now (fst (m env w)) = now w
  /\ snd (m env w) = r.

(** In a run that meets [G], an action adds to the log only operations
    that meet [P]. *)
Definition addsOnly (G : Env -> Prop) (P : Op -> Prop) {A} (m : M A) : Prop :=
  forall env w, G env ->
    exists l, log (fst (m env w)) = log w ++ l /\ Forall (fun e => P (snd e)) l.

(** An action leaves a component [f] of the world as it is. *)
Definition keeps {X} (f : World -> X) {A} (m : M A) : Prop :=
  forall env w, f (fst (m env w)) = f w.

(** When nothing throws, an action started with the mounted flag at [b]
    returns normally, arms timers for exactly the callbacks [cbs], in
    that order, and leaves the flag at [b']. *)
Definition arms (b b' : bool) {A} (m : M A) (cbs : list CB) : Prop :=
  forall rnd w, isComponentMounted w = b ->
    (exists a, snd (m (quiet rnd) w) = Ok a)
    /\ map snd (timers (fst (m (quiet rnd) w))) = map snd (timers w) ++ cbs
    /\ isComponentMounted (fst (m (quiet rnd) w)) = b'.

End Effects.

Arguments quiet {SV CB} rnd.
Arguments Op : clear implicits.
Arguments Env : clear implicits.
Arguments World : clear implicits.
Arguments M : clear implicits.
Arguments Ok {A} a.
Arguments Throw {A}.

Declare Scope eff_scope.
Delimit Scope eff_scope with eff.
Notation "x <- m ;; k" := (bind m (fun x => k))
  (at level 20, m at level 99, k at level 200, only parsing) : eff_scope.
Notation "m ;; k" := (bind m (fun _ => k))
  (at level 100, k at level 200, right associativity, only parsing) : eff_scope.

(** Less-than on numbers. *)
Definition Qltb (x y : Q) : bool := negb (Qle_bool y x).

End Runtime.

(* ===================================================================== *)
(** ** The owl mascot (src/components/MascotCharacter.tsx) *)
(* ===================================================================== *)

Module Mascot.
Import Reanimated Runtime.

Inductive Mood := happy | thinking | excited | meditating.

(** The component's shared values. *)
Inductive SharedValue :=
| bodyBounce | eyeBlink | wingFlap | headTilt | floatY
| floatingElement1Y | floatingElement2Y.

(** The closures handed to [setTimeout]. *)
Inductive Callback := blinkEyesCb.

Definition Eff := M SharedValue Callback.
Definition W := World SharedValue Callback.
Definition E := Env SharedValue Callback.

Local Open Scope eff_scope.

(** A [withTiming] with [Easing.inOut(Easing.ease)]. *)
Definition eased (v d : Q) : Anim := timingE v d (inOut ease).

(** [withRepeat(a, -1, true)]. *)
Definition forever (a : Anim) : Anim := withRepeat a (-1) true.

(** The four-step blink sequence. *)
Definition blinkSequence : Anim :=
  withSequence [timing (1 # 10) 100; timing 1 100; timing (1 # 10) 100; timing 1 100].

(** [blinkEyes]. *)
Definition blinkEyes : Eff unit :=
  m <- getMounted ;;
  if negb m then ret tt
  else
    animate eyeBlink blinkSequence ;;
    r <- mathRandom ;;
    setTimeout blinkEyesCb (Double.add 2000 (Double.mul r 2000)).

(** The wing-flap block of the effect. *)
Definition wingFlapFor (mood : Mood) : Eff unit :=
  match mood with
  | excited =>
      animate wingFlap (forever (withSequence [eased (-15) 200; eased 0 200]))
  | thinking =>
      animate wingFlap (forever (withSequence [eased (-5) 1000; eased 0 1000]))
  | _ => ret tt
  end.

(** The head-tilt block. *)
Definition headTiltFor (mood : Mood) : Eff unit :=
  match mood with
  | thinking =>
      animate headTilt (forever (withSequence [eased 10 1000; eased 0 1000]))
  | meditating => perform (Assign headTilt (Num 0))
  | _ => ret tt
  end.

(** The float block. *)
Definition floatFor (mood : Mood) : Eff unit :=
  match mood with
  | meditating =>
      animate floatY (forever (withSequence [eased (-10) 2000; eased 0 2000])) ;;
      animate floatingElement1Y (forever (withSequence [timing (-10) 1500; timing 0 1500])) ;;
      animate floatingElement2Y (forever (withSequence [timing (-8) 2000; timing 0 2000]))
  | _ => ret tt
  end.

(** The body of [useEffect(..., [mood])]. *)
Definition effect (mood : Mood) : Eff unit :=
  setMounted true ;;
  animate bodyBounce (forever (withSequence [eased (-5) 1000; eased 0 1000])) ;;
  blinkEyes ;;
  wingFlapFor mood ;;
  headTiltFor mood ;;
  floatFor mood.

(** The clean-up function the effect returns. *)
Definition cleanup : Eff unit :=
  setMounted false ;;
  perform (Cancel bodyBounce) ;;
  perform (Cancel eyeBlink) ;;
  perform (Cancel wingFlap) ;;
  perform (Cancel headTilt) ;;
  perform (Cancel floatY) ;;
  perform (Cancel floatingElement1Y) ;;
  perform (Cancel floatingElement2Y).

Definition callback (cb : Callback) : Eff unit :=
  match cb with blinkEyesCb => blinkEyes end.

(** The world of a component that has not rendered yet. *)
Definition start : W :=
  {| now := 0; drawn := O; isComponentMounted := true; timers := []; log := [] |}.

(** What happens to a component. React runs the effect on mount, the
    clean-up and then the effect when the [mood] prop changes, and the
    clean-up on unmount. *)
Inductive Event :=
| Mount (mood : Mood)
| ChangeMood (mood : Mood)
| Unmount
| TimerFires.

Definition step (env : E) (w : W) (ev : Event) : W :=
  match ev with
  | Mount mood => fst (effect mood env w)
  | ChangeMood mood => fst (effect mood env (fst (cleanup env w)))
  | Unmount => fst (cleanup env w)
  | TimerFires =>
      match popTimer w with
      | None => w
      | Some (cb, w') => fst (callback cb env w')
      end
  end.

(** A run: the component mounts with [mood] and [n] timers fire. *)
Definition run (env : E) (mood : Mood) (n : nat) : W :=
  fold_left (step env) (Mount mood :: repeat TimerFires n) start.





(** The number of mood changes among some events. *)
Fixpoint moodChanges (evs : list Event) : nat :=
  match evs with
  | [] => O
  | ChangeMood _ :: rest => S (moodChanges rest)
  | _ :: rest => moodChanges rest
  end.

(** What can happen to a component between its mount and its unmount. *)
Definition whileMounted (ev : Event) : Prop :=
  match ev with
  | ChangeMood _ | TimerFires => True
  | Mount _ | Unmount => False
  end.

(** An operation that is a [cancelAnimation]. *)
Definition isCancel (op : Op SharedValue Callback) : Prop :=
  match op with
  | Cancel _ => True
  | _ => False
  end.

End Mascot.

(* ===================================================================== *)
(** ** The boy character (src/components/PaxtonCharacter.tsx) *)
(* ===================================================================== *)

Module Paxton.
Import Reanimated Runtime.

Inductive Mood := happy | thinking | excited | shy.

(** The component's shared values. *)
Inductive SharedValue :=
| bodyBounce | bodyRotation | jumpHeight | characterRotation
| armWave | legSwing
| headTilt | eyeBlink | mouthSmile | floatY.

#[global] Instance SharedValue_eq_dec : EqDecision SharedValue.
Proof. solve_decision. Defined.

(** The closures handed to [setTimeout]. *)
Inductive Callback :=
| blinkCb (isFullBlink : bool)
| randomizeArmMovementsCb
| happyWaveCb
| changeGazeCb.

Definition Eff := M SharedValue Callback.
Definition W := World SharedValue Callback.
Definition E := Env SharedValue Callback.

Local Open Scope eff_scope.

(** [withRepeat(a, -1, true)]. *)
Definition forever (a : Anim) : Anim := withRepeat a (-1) true.

(** [startAnimation(animatedValue, animation)]. *)
Definition startAnimation (animatedValue : SharedValue) (animation : Anim) : Eff unit :=
  tryCatch
    (perform (Cancel animatedValue) ;;
     perform (Assign animatedValue animation))
    (warn "Animation error:").

(** [startAnimation(animatedValue, <animation expression>)]: the argument
    is evaluated before the call, outside the call's [try]. *)
Definition startBuilt (animatedValue : SharedValue) (animation : Anim) : Eff unit :=
  build animation ;;
  startAnimation animatedValue animation.

(** The four sequences [performJump] starts. *)
Definition jumpSequence : Anim :=
  withSequence
    [ timingE (-30) 280 (Easing_out quad);
      withDelay 50 (withTiming (-30) None None);
      timingE 0 350 (Easing_in quad);
      timing (-5) 100;
      timing 0 150 ].

Definition hatSequence : Anim :=
  withSequence [ withDelay 30 (timing (-8) 200); withDelay 50 (timing 0 300) ].

Definition jumpArmSequence : Anim :=
  withSequence
    [ timingE 40 180 (Easing_out ease);
      timingE (-20) 220 (inOut ease);
      timingE 5 150 (Easing_out ease);
      timing 0 100 ].

Definition jumpHeadSequence : Anim :=
  withSequence [ timing 5 150; timing (-2) 200; timing 0 150 ].

(** [if (onPress) { onPress(); }]. *)
Definition callOnPress : Eff unit :=
  fun env => if onPressGiven env then perform OnPress env else ret tt env.

(** [performJump()], the press handler. *)
Definition performJump : Eff unit :=
  tryCatch
    (perform (Cancel jumpHeight) ;;
     perform (Cancel armWave) ;;
     perform (Cancel headTilt) ;;
     perform (Cancel floatY) ;;
     startBuilt jumpHeight jumpSequence ;;
     startBuilt floatY hatSequence ;;
     startBuilt armWave jumpArmSequence ;;
     startBuilt headTilt jumpHeadSequence ;;
     callOnPress)
    (warn "Jump animation error:" ;;
     perform (Assign jumpHeight (Num 0)) ;;
     perform (Assign armWave (Num 1)) ;;
     perform (Assign headTilt (Num 1))).

(** [setupIdleBreathing()]. *)
Definition setupIdleBreathing : Eff unit :=
  startBuilt bodyBounce
    (forever (withSequence [ timingE (12 # 10) 2000 (inOut sin);
                             timingE 0 2200 (inOut sin) ])) ;;
  startBuilt armWave
    (forever (withSequence [ timing (8 # 10) 2100; timing (-5 # 10) 2300 ])).

(** [blink(isFullBlink)] of [setupEyeBlink]. Its [activeAnimation] flag is
    only cleared by a function that [setupEyeBlink] returns and that the
    effect drops, so it is always true. *)
Definition blink (isFullBlink : bool) : Eff unit :=
  m <- getMounted ;;
  if negb m then ret tt
  else
    r <- mathRandom ;;
    let nextBlink :=
      if isFullBlink then Double.add (Double.mul r 30000) 20000
      else Double.add (Double.mul r 0) 0 in
    animate eyeBlink
      (withSequence
         ([ timingE (if isFullBlink then 0 else 4 # 10)
                    (if isFullBlink then 70 else 40) (Easing_in cubic) ]
          ++ (if isFullBlink then [ timing 0 30 ] else [])
          ++ [ timingE 1 (if isFullBlink then 200 else 120)
                       (Easing_out cubic) ])) ;;
    setTimeout (blinkCb (negb isFullBlink)) nextBlink.

(** [setupEyeBlink()]. *)
Definition setupEyeBlink : Eff unit := blink true.

(** [randomizeArmMovements()] of [setupHandMovements]. *)
Definition randomizeArmMovements : Eff unit :=
  perform (Cancel armWave) ;;
  r <- mathRandom ;;
  (if Qltb r (Double.lit (9 # 10)) then perform (Assign armWave (Num 0))
   else
     r1 <- mathRandom ;;
     let randomAngle := Double.sub (Double.mul r1 8) 3 in
     r2 <- mathRandom ;;
     let randomDuration := Double.add 2000 (Double.mul r2 1000) in
     startBuilt armWave
       (withSequence [ timing randomAngle randomDuration; timing 0 1000 ])) ;;
  r3 <- mathRandom ;;
  let nextInterval := Double.add 25000 (Double.mul r3 10000) in
  setTimeout randomizeArmMovementsCb nextInterval.

(** [setupHandMovements()]. *)
Definition setupHandMovements : Eff unit := randomizeArmMovements.

(** [happyWave()] of the happy mood. *)
Definition happyWave : Eff unit :=
  r <- mathRandom ;;
  (if Qltb r (Double.lit (95 # 100)) then ret tt
   else
     r1 <- mathRandom ;;
     let randomAngle := Double.sub (Double.mul r1 10) 3 in
     startBuilt armWave
       (withSequence [ timing randomAngle 1500; timing 0 1000 ])) ;;
  r2 <- mathRandom ;;
  setTimeout happyWaveCb (Double.add 28000 (Double.mul r2 4000)).

(** [changeGaze()] of the thinking mood. *)
Definition changeGaze : Eff unit :=
  startBuilt eyeBlink (withSequence [ timing (7 # 10) 300; timing 1 400 ]) ;;
  r <- mathRandom ;;
  setTimeout changeGazeCb (Double.add 4000 (Double.mul r 6000)).

(** The mood-specific block of the effect. *)
Definition moodAnimations (mood : Mood) : Eff unit :=
  match mood with
  | happy =>
      startBuilt bodyBounce
        (forever (withSequence [ timingE (-8) 600 (Easing_out quad);
                                 timingE 0 800 (inOut sin) ])) ;;
      startBuilt mouthSmile (timingE (15 # 10) 400 (Easing_out (back (18 # 10)))) ;;
      happyWave
  | thinking =>
      startBuilt headTilt
        (forever (withSequence [ timing 7 2000; timing 3 1500; timing 7 2500 ])) ;;
      startBuilt bodyBounce (forever (timing (15 # 10) 3000)) ;;
      changeGaze
  | excited =>
      startBuilt bodyBounce (forever (timing (-5) 100)) ;;
      startBuilt eyeBlink (timing (12 # 10) 200) ;;
      startBuilt mouthSmile (timing (15 # 10) 300) ;;
      startBuilt armWave (forever (timing 30 3700))
  | shy =>
      startBuilt bodyBounce (timing 10 800) ;;
      startBuilt headTilt (timing 8 1000) ;;
      startBuilt armWave (timing 25 600)
  end.

(** The body of [useEffect(..., [mood])]. *)
Definition effect (mood : Mood) : Eff unit :=
  perform (Normalize bodyBounce 0) ;;
  perform (Normalize armWave 0) ;;
  perform (Normalize headTilt 0) ;;
  perform (Normalize floatY 0) ;;
  perform (Normalize eyeBlink 1) ;;
  perform (Normalize legSwing 0) ;;
  perform (Normalize bodyRotation 0) ;;
  perform (Normalize mouthSmile 0) ;;
  perform (Normalize characterRotation 0) ;;
  perform (Normalize jumpHeight 0) ;;
  setMounted true ;;
  startBuilt bodyBounce
    (forever (withSequence [ timingE (-3) 1500 (inOut sin);
                             timingE 0 1500 (inOut sin) ])) ;;
  startAnimation legSwing (Num 0) ;;
  setupIdleBreathing ;;
  setupEyeBlink ;;
  setupHandMovements ;;
  moodAnimations mood.

(** The clean-up function the effect returns. *)
Definition cleanup : Eff unit :=
  setMounted false ;;
  tryCatch
    (perform (Cancel bodyBounce) ;;
     perform (Cancel armWave) ;;
     perform (Cancel headTilt) ;;
     perform (Cancel floatY) ;;
     perform (Cancel eyeBlink) ;;
     perform (Cancel legSwing) ;;
     perform (Cancel bodyRotation) ;;
     perform (Cancel mouthSmile) ;;
     perform (Cancel characterRotation) ;;
     perform (Cancel jumpHeight))
    (warn "Error cleaning up animations:").

Definition callback (cb : Callback) : Eff unit :=
  match cb with
  | blinkCb isFullBlink => blink isFullBlink
  | randomizeArmMovementsCb => randomizeArmMovements
  | happyWaveCb => happyWave
  | changeGazeCb => changeGaze
  end.

(** The world of a component that has not rendered yet. *)
Definition start : W :=
  {| now := 0; drawn := O; isComponentMounted := true; timers := []; log := [] |}.

(** What happens to a component: React runs the effect on mount, the
    clean-up and then the effect when [mood] changes, the clean-up on
    unmount; the user presses the character; a timer fires. *)
Inductive Event :=
| Mount (mood : Mood)
| ChangeMood (mood : Mood)
| Unmount
| Press
| TimerFires.

Definition step (env : E) (w : W) (ev : Event) : W :=
  match ev with
  | Mount mood => fst (effect mood env w)
  | ChangeMood mood => fst (effect mood env (fst (cleanup env w)))
  | Unmount => fst (cleanup env w)
  | Press => fst (performJump env w)
  | TimerFires =>
      match popTimer w with
      | None => w
      | Some (cb, w') => fst (callback cb env w')
      end
  end.

Definition run (env : E) (evs : list Event) : W := fold_left (step env) evs start.

(** The operations an event adds to the log. *)
Definition performed (env : E) (w : W) (ev : Event) : list (Op SharedValue Callback) :=
  ops (drop (length (log w)) (log (step env w ev))).

(** The ten shared values, in the order the clean-up cancels them. *)
Definition allValues : list SharedValue :=
  [ bodyBounce; armWave; headTilt; floatY; eyeBlink; legSwing;
    bodyRotation; mouthSmile; characterRotation; jumpHeight ].

(** What the catch branch of [performJump] does. *)
Definition jumpRecovery : list (Op SharedValue Callback) :=
  [ Warn "Jump animation error:";
    Assign jumpHeight (Num 0); Assign armWave (Num 1); Assign headTilt (Num 1) ].

(** Whether something thrown inside the [try] block of [performJump]
    reaches its [catch]: one of the four leading [cancelAnimation] calls,
    the builder calls of one of the four sequences, or the [onPress]
    callback. What [startAnimation] throws inside, it catches itself. *)
Definition jumpFails (env : E) : bool :=
  throws env (Cancel jumpHeight) || throws env (Cancel armWave)
  || throws env (Cancel headTilt) || throws env (Cancel floatY)
  || throws env (Build jumpSequence) || throws env (Build hatSequence)
  || throws env (Build jumpArmSequence) || throws env (Build jumpHeadSequence)
  || (onPressGiven env && throws env OnPress).

(** What one call of [startAnimation] adds to the log: the cancel and the
    assignment, or, from the point where one of them throws, the console
    warning of the [catch]. *)
Definition startAnimationOps (env : E) (sv : SharedValue) (a : Anim)
  : list (Op SharedValue Callback) :=
  if throws env (Cancel sv) then [ Warn "Animation error:" ]
  else if throws env (Assign sv a) then [ Cancel sv; Warn "Animation error:" ]
  else [ Cancel sv; Assign sv a ].

(** The last [n] operations of a list. *)
Definition lastOps (n : nat) (l : list (Op SharedValue Callback))
  : list (Op SharedValue Callback) := drop (length l - n) l.

(** A run in which the [onPress] callback throws and nothing else does. *)
Definition pressThrows : E :=
  {| random := fun _ => 0%Q;
     throws := fun op => match op with OnPress => true | _ => false end;
     onPressGiven := true |}.

(** What a shared value holds according to a log: the last animation
    assigned to it, unless a later [cancelAnimation] or plain-number
    assignment stopped it. *)
Fixpoint holds (sv : SharedValue) (l : list (Op SharedValue Callback)) (cur : option Anim)
  : option Anim :=
  match l with
  | [] => cur
  | op :: rest =>
      holds sv rest
        match op with
        | Assign sv' a =>
            if decide (sv' = sv) then
              match a with Num _ => None | _ => Some a end
            else cur
        | Normalize sv' _ => if decide (sv' = sv) then None else cur
        | Cancel sv' => if decide (sv' = sv) then None else cur
        | _ => cur
        end
  end.

(** The range of the delay with which each callback is scheduled, read
    off the [setTimeout] calls for a [Math.random()] in [0, 1). The sums
    are sums of doubles, and rounding reaches the upper ends. *)
Definition delayRange (cb : Callback) (d : Q) : Prop :=
  match cb with
  | blinkCb false => (20000 <= d)%Q /\ (d <= 50000)%Q
  | blinkCb true => (d == 0)%Q
  | randomizeArmMovementsCb => (25000 <= d)%Q /\ (d <= 35000)%Q
  | happyWaveCb => (28000 <= d)%Q /\ (d <= 32000)%Q
  | changeGazeCb => (4000 <= d)%Q /\ (d <= 10000)%Q
  end.

(** A run whose results of [Math.random()] lie in [0, 1). *)
Definition drawsInRange (env : E) : Prop := unitInterval (random env).

Definition wellTimed (op : Op SharedValue Callback) : Prop :=
  match op with
  | SetTimeout cb d => delayRange cb d
  | _ => True
  end.

(** An operation that gives neither rotation a value and the leg swing
    nothing but the number 0. *)
Definition atRest (op : Op SharedValue Callback) : Prop :=
  match op with
  | Assign sv a =>
      sv <> bodyRotation /\ sv <> characterRotation /\ (sv = legSwing -> a = Num 0)
  | _ => True
  end.

(** The callbacks that do not look at the mounted flag. *)
Definition isChain (cb : Callback) : bool :=
  match cb with
  | blinkCb _ => false
  | _ => true
  end.

(** The callbacks of the pending timers, in the order they were armed. *)
Definition pending (w : W) : list Callback := map snd (timers w).

(** How many of some callbacks do not look at the mounted flag. *)
Definition chains (cbs : list Callback) : nat := length (List.filter isChain cbs).

(** The callback the mood block of the effect schedules. *)
Definition moodChain (mood : Mood) : list Callback :=
  match mood with
  | happy => [happyWaveCb]
  | thinking => [changeGazeCb]
  | excited | shy => []
  end.

(** The body-bounce animation of each mood's block. *)
Definition moodBounce (mood : Mood) : Anim :=
  match mood with
  | happy =>
      forever (withSequence [ timingE (-8) 600 (Easing_out quad);
                              timingE 0 800 (inOut sin) ])
  | thinking => forever (timing (15 # 10) 3000)
  | excited => forever (timing (-5) 100)
  | shy => timing 10 800
  end.

(** When nothing throws, an action returns normally and changes what
    [bodyBounce] holds by [f]. *)
Definition bounces {A} (f : option Anim -> option Anim) (m : Eff A) : Prop :=
  forall rnd w,
    (exists x, snd (m (quiet rnd) w) = Ok x)
    /\ exists l, log (fst (m (quiet rnd) w)) = log w ++ l
                 /\ forall cur, holds bodyBounce (ops l) cur = f cur.

(** An action that leaves what [bodyBounce] holds as it is, and one
    that leaves it holding [a]. *)
Definition leavesBounce {A} (m : Eff A) : Prop := bounces (fun cur => cur) m.
Definition setsBounce {A} (a : Anim) (m : Eff A) : Prop := bounces (fun _ => Some a) m.

(** What happens between two changes of mood while the component is
    mounted: presses and timers. *)
Definition betweenMoods (ev : Event) : Prop :=
  match ev with
  | Press | TimerFires => True
  | Mount _ | ChangeMood _ | Unmount => False
  end.

End Paxton.

(* ===================================================================== *)
(** ** Objects, arrays and references *)
(* ===================================================================== *)

(** The literal arrays are module-level objects and the [useState] cells
    first hold references to them ([useState(initialHabits)]), so whether
    a handler changes them is a question about the object store. Here the
    store is explicit: an object is a list of properties, an array a list
    of values, a reference an index into the store. *)
Module Store.
Import JSString.

(** A reference: the index of an object in the store. *)
Abbreviation loc := nat.

Inductive Val :=
| VNum (n : Z)
| VStr (s : jsstring)
| VBool (b : bool)
| VRef (l : loc)
| VNull
| VUndefined.

Inductive Obj :=
| Object (props : list (string * Val))
| Array (elems : list Val).

Abbreviation Heap := (list Obj).

(** Strict equality [===] on the values the handlers compare. *)
Definition strictEq (a b : Val) : bool :=
  match a, b with
  | VNum x, VNum y => x =? y
  | VStr x, VStr y => if decide (x = y) then true else false
  | VBool x, VBool y => Bool.eqb x y
  | VRef x, VRef y => (x =? y)%nat
  | VNull, VNull => true
  | VUndefined, VUndefined => true
  | _, _ => false
  end.

(** [!v]. *)
Definition jsNot (v : Val) : bool :=
  match v with
  | VNum n => n =? 0
  | VStr s => JSString.not s
  | VBool b => negb b
  | VRef _ => false
  | VNull => true
  | VUndefined => true
  end.

(** [o.key]. *)
Fixpoint getProp (key : string) (props : list (string * Val)) : Val :=
  match props with
  | [] => VUndefined
  | (k, v) :: rest => if String.eqb k key then v else getProp key rest
  end.

(** Defining [key] on an object under construction: an existing property
    keeps its place and takes the new value, a new one goes last. *)
Fixpoint setProp (key : string) (v : Val) (props : list (string * Val))
  : list (string * Val) :=
  match props with
  | [] => [(key, v)]
  | (k, v0) :: rest =>
      if String.eqb k key then (k, v) :: rest else (k, v0) :: setProp key v rest
  end.

(** The store operations. Evaluating an object or array literal, a
    spread, [map] or [flatMap] allocates; a property assignment
    ([o.key = v]) would overwrite. *)
Definition alloc (o : Obj) (h : Heap) : Heap * loc := (h ++ [o], length h).

Definition assignProp (l : loc) (key : string) (v : Val) (h : Heap) : Heap :=
  match h !! l with
  | Some (Object props) => <[l := Object (setProp key v props)]> h
  | _ => h
  end.

(** Allocate a list of objects, giving their references in order. *)
Fixpoint allocAll (os : list Obj) (h : Heap) : Heap * list Val :=
  match os with
  | [] => (h, [])
  | o :: rest =>
      let '(h1, l) := alloc o h in
      let '(h2, ls) := allocAll rest h1 in
      (h2, VRef l :: ls)
  end.

(** [a.map(f)] where [f] may allocate: the callback runs on the elements
    in order and the results go into a new array. *)
Fixpoint mapElems (f : Val -> Heap -> Heap * Val) (elems : list Val) (h : Heap)
  : Heap * list Val :=
  match elems with
  | [] => (h, [])
  | v :: rest =>
      let '(h1, v') := f v h in
      let '(h2, vs) := mapElems f rest h1 in
      (h2, v' :: vs)
  end.

(** *** The module-level literals *)

Definition habitObj (x : Habits.Habit) : Obj :=
  Object [ ("id", VNum (Habits.id x));
           ("name", VStr (lit (Habits.name x)));
           ("description", VStr (lit (Habits.description x)));
           ("philosophy", VStr (lit (Habits.philosophy x)));
           ("streak", VNum (Habits.streak x));
           ("completed", VBool (Habits.completed x));
           ("color", VStr (lit (Habits.color x))) ].

Definition prefObj (x : Profile.PhilosophicalPreference) : Obj :=
  Object [ ("id", VNum (Profile.id x));
           ("name", VStr (lit (Profile.name x)));
           ("selected", VBool (Profile.selected x)) ].

Definition quoteObj (x : Wisdom.Quote) : Obj :=
  Object [ ("id", VNum (Wisdom.id x));
           ("text", VStr (lit (Wisdom.text x)));
           ("author", VStr (lit (Wisdom.author x))) ].

(** [const profileData] and [const initialSettings] of the profile screen. *)
Definition profileDataObj : Obj :=
  Object [ ("name", VStr (lit "Alex Johnson"));
           ("joinDate", VStr (lit "April 2025"));
           ("streak", VNum 12);
           ("favoritePhilosophy", VStr (lit "Stoicism"));
           ("completedHabits", VNum 42);
           ("decisionsGuided", VNum 15) ].

Definition initialSettingsObj : Obj :=
  Object [ ("darkMode", VBool false);
           ("notifications", VBool true);
           ("dailyReminders", VBool true);
           ("weeklyReports", VBool true);
           ("dataSync", VBool false) ].

(** An array literal of object literals. *)
Definition allocArrayOf {A} (enc : A -> Obj) (xs : list A) (h : Heap) : Heap * loc :=
  let '(h1, refs) := allocAll (map enc xs) h in
  alloc (Array refs) h1.

(** A framework literal: its [steps] array, then the object. *)
Definition allocFramework (f : Decisions.Framework) (h : Heap) : Heap * Val :=
  let '(h1, stepsRef) :=
    alloc (Array (map (fun s => VStr (lit s)) (Decisions.steps f))) h in
  let '(h2, l) :=
    alloc (Object [ ("id", VNum (Decisions.id f));
                    ("name", VStr (lit (Decisions.name f)));
                    ("description", VStr (lit (Decisions.description f)));
                    ("philosophy", VStr (lit (Decisions.philosophy f)));
                    ("steps", VRef stepsRef) ]) h1 in
  (h2, VRef l).

(** A philosophy literal: its [quotes] array of quote objects, then the
    object. The [icon] string is carried over byte by byte. *)
Definition allocPhilosophy (p : Wisdom.Philosophy) (h : Heap) : Heap * Val :=
  let '(h1, quotesRef) := allocArrayOf quoteObj (Wisdom.quotes p) h in
  let '(h2, l) :=
    alloc (Object [ ("id", VNum (Wisdom.pid p));
                    ("name", VStr (lit (Wisdom.name p)));
                    ("icon", VStr (lit (Wisdom.icon p)));
                    ("description", VStr (lit (Wisdom.description p)));
                    ("quotes", VRef quotesRef) ]) h1 in
  (h2, VRef l).

Fixpoint allocEach {A} (al : A -> Heap -> Heap * Val) (xs : list A) (h : Heap)
  : Heap * list Val :=
  match xs with
  | [] => (h, [])
  | x :: rest =>
      let '(h1, v) := al x h in
      let '(h2, vs) := allocEach al rest h1 in
      (h2, v :: vs)
  end.

(** Where the module-level constants live. *)
Record Globals := mkGlobals {
  initialHabits : loc;
  frameworks : loc;
  philosophers : loc;
  philosophicalPreferences : loc;
  profileData : loc;
  initialSettings : loc
}.

(** The store once the modules have been evaluated. *)
Definition modules : Heap * Globals :=
  let h := [] in
  let '(h, gHabits) := allocArrayOf habitObj Habits.initialHabits h in
  let '(h, fs) := allocEach allocFramework Decisions.frameworks h in
  let '(h, gFrameworks) := alloc (Array fs) h in
  let '(h, ps) := allocEach allocPhilosophy Wisdom.philosophers h in
  let '(h, gPhilosophers) := alloc (Array ps) h in
  let '(h, gPrefs) := allocArrayOf prefObj Profile.philosophicalPreferences h in
  let '(h, gProfile) := alloc profileDataObj h in
  let '(h, gSettings) := alloc initialSettingsObj h in
  (h, {| initialHabits := gHabits; frameworks := gFrameworks;
         philosophers := gPhilosophers; philosophicalPreferences := gPrefs;
         profileData := gProfile; initialSettings := gSettings |}).

Definition moduleHeap : Heap := fst modules.
Definition globals : Globals := snd modules.

(** *** The [useState] cells that hold references *)

Record Cells := mkCells {
  habits : Val;               (* HabitsScreen *)
  preferences : Val;          (* ProfileScreen *)
  settings : Val;
  selectedFramework : Val;    (* DecisionsScreen *)
  responses : Val;
  selectedPhilosophy : Val;   (* WisdomScreen *)
  dailyQuote : Val
}.

(** The first render of the four screens: [useState(initialHabits)],
    [useState(philosophicalPreferences)], [useState(initialSettings)],
    [useState(null)], [useState([])], [useState(null)],
    [useState({ id: 0, text: '', author: '' })]. *)
Definition firstRender : Heap * Cells :=
  let h := moduleHeap in
  let '(h, r) := alloc (Array []) h in
  let '(h, q) := alloc (Object [("id", VNum 0); ("text", VStr []); ("author", VStr [])]) h in
  (h, {| habits := VRef (initialHabits globals);
         preferences := VRef (philosophicalPreferences globals);
         settings := VRef (initialSettings globals);
         selectedFramework := VNull;
         responses := VRef r;
         selectedPhilosophy := VNull;
         dailyQuote := VRef q |}).

(** *** The handlers, on the store *)

(** The callback of [toggleHabitCompletion]'s [map]:
    [habit => habit.id === id ? { ...habit, completed: !habit.completed,
       streak: !habit.completed ? habit.streak + 1 : habit.streak - 1 } : habit]. *)
Definition toggleHabit (id : Z) (habit : Val) (h : Heap) : Heap * Val :=
  match habit with
  | VRef l =>
      match h !! l with
      | Some (Object props) =>
          if strictEq (getProp "id" props) (VNum id) then
            let completed' := VBool (jsNot (getProp "completed" props)) in
            let streak' :=
              match getProp "streak" props with
              | VNum s => VNum (if jsNot (getProp "completed" props)
                                then Double.addZ s 1 else Double.subZ s 1)
              | _ => VUndefined
              end in
            let '(h', l') :=
              alloc (Object (setProp "streak" streak'
                               (setProp "completed" completed' props))) h in
            (h', VRef l')
          else (h, habit)
      | _ => (h, habit)
      end
  | _ => (h, habit)
  end.

(** [prev.map(callback)] on a cell that holds an array. *)
Definition mapCell (f : Val -> Heap -> Heap * Val) (prev : Val) (h : Heap) : Heap * Val :=
  match prev with
  | VRef a =>
      match h !! a with
      | Some (Array elems) =>
          let '(h1, elems') := mapElems f elems h in
          let '(h2, a') := alloc (Array elems') h1 in
          (h2, VRef a')
      | _ => (h, prev)
      end
  | _ => (h, prev)
  end.

(** The callback of [togglePreference]'s [map]:
    [pref => pref.id === id ? { ...pref, selected: !pref.selected } : pref]. *)
Definition togglePref (id : Z) (pref : Val) (h : Heap) : Heap * Val :=
  match pref with
  | VRef l =>
      match h !! l with
      | Some (Object props) =>
          if strictEq (getProp "id" props) (VNum id) then
            let '(h', l') :=
              alloc (Object (setProp "selected"
                               (VBool (jsNot (getProp "selected" props))) props)) h in
            (h', VRef l')
          else (h, pref)
      | _ => (h, pref)
      end
  | _ => (h, pref)
  end.

(** [toggleSetting(setting)]:
    [{ ...prevSettings, [setting]: !prevSettings[setting] }]. *)
Definition toggleSettingCell (setting : string) (prev : Val) (h : Heap) : Heap * Val :=
  match prev with
  | VRef l =>
      match h !! l with
      | Some (Object props) =>
          let '(h', l') :=
            alloc (Object (setProp setting (VBool (jsNot (getProp setting props))) props)) h in
          (h', VRef l')
      | _ => (h, prev)
      end
  | _ => (h, prev)
  end.

(** [a[i]] on an array in the store. *)
Definition elemAt (a : loc) (i : nat) (h : Heap) : Val :=
  match h !! a with
  | Some (Array elems) => default VUndefined (elems !! i)
  | _ => VUndefined
  end.

(** [[...responses, response]]. *)
Definition appendCell (prev : Val) (v : Val) (h : Heap) : Heap * Val :=
  match prev with
  | VRef a =>
      match h !! a with
      | Some (Array elems) =>
          let '(h', a') := alloc (Array (elems ++ [v])) h in (h', VRef a')
      | _ => (h, prev)
      end
  | _ => (h, prev)
  end.

(** [philosophers.flatMap(p => p.quotes)]. *)
Definition flatQuotes (h : Heap) : Heap * loc :=
  let ps := match h !! philosophers globals with
            | Some (Array elems) => elems
            | _ => []
            end in
  let qs := flat_map (fun p =>
              match p with
              | VRef l =>
                  match h !! l with
                  | Some (Object props) =>
                      match getProp "quotes" props with
                      | VRef q =>
                          match h !! q with
                          | Some (Array elems) => elems
                          | _ => []
                          end
                      | _ => []
                      end
                  | _ => []
                  end
              | _ => []
              end) ps in
  alloc (Array qs) h.

(** The events that reach a handler which reads or stores a reference. *)
Inductive Event :=
| ToggleHabitCompletion (id : Z)
| TogglePreference (id : Z)
| ToggleSetting (setting : string)
| HandleFrameworkSelect (i : nat)
| HandleNextStep (response : jsstring)
| ResetDecision
| WisdomMount (random : Q)
| HandlePhilosophyPress (i : nat).

Definition step (s : Heap * Cells) (ev : Event) : Heap * Cells :=
  let '(h, c) := s in
  match ev with
  | ToggleHabitCompletion id =>
      let '(h', v) := mapCell (toggleHabit id) (habits c) h in
      (h', {| habits := v; preferences := preferences c; settings := settings c;
              selectedFramework := selectedFramework c; responses := responses c;
              selectedPhilosophy := selectedPhilosophy c; dailyQuote := dailyQuote c |})
  | TogglePreference id =>
      let '(h', v) := mapCell (togglePref id) (preferences c) h in
      (h', {| habits := habits c; preferences := v; settings := settings c;
              selectedFramework := selectedFramework c; responses := responses c;
              selectedPhilosophy := selectedPhilosophy c; dailyQuote := dailyQuote c |})
  | ToggleSetting setting =>
      let '(h', v) := toggleSettingCell setting (settings c) h in
      (h', {| habits := habits c; preferences := preferences c; settings := v;
              selectedFramework := selectedFramework c; responses := responses c;
              selectedPhilosophy := selectedPhilosophy c; dailyQuote := dailyQuote c |})
  | HandleFrameworkSelect i =>
      let '(h', r) := alloc (Array []) h in
      (h', {| habits := habits c; preferences := preferences c; settings := settings c;
              selectedFramework := elemAt (frameworks globals) i h;
              responses := VRef r;
              selectedPhilosophy := selectedPhilosophy c; dailyQuote := dailyQuote c |})
  | HandleNextStep response =>
      let '(h', v) := appendCell (responses c) (VStr response) h in
      (h', {| habits := habits c; preferences := preferences c; settings := settings c;
              selectedFramework := selectedFramework c; responses := v;
              selectedPhilosophy := selectedPhilosophy c; dailyQuote := dailyQuote c |})
  | ResetDecision =>
      let '(h', r) := alloc (Array []) h in
      (h', {| habits := habits c; preferences := preferences c; settings := settings c;
              selectedFramework := VNull; responses := VRef r;
              selectedPhilosophy := selectedPhilosophy c; dailyQuote := dailyQuote c |})
  | WisdomMount random =>
      let '(h', all) := flatQuotes h in
      let i := Wisdom.randomIndex random in
      (h', {| habits := habits c; preferences := preferences c; settings := settings c;
              selectedFramework := selectedFramework c; responses := responses c;
              selectedPhilosophy := selectedPhilosophy c;
              dailyQuote := if i <? 0 then VUndefined else elemAt all (Z.to_nat i) h' |})
  | HandlePhilosophyPress i =>
      (h, {| habits := habits c; preferences := preferences c; settings := settings c;
             selectedFramework := selectedFramework c; responses := responses c;
             selectedPhilosophy := elemAt (philosophers globals) i h;
             dailyQuote := dailyQuote c |})
  end.

Definition run (evs : list Event) : Heap * Cells := fold_left step evs firstRender.

(** *** Reading typed data back from the store *)

Definition asNum (v : Val) : option Z := match v with VNum n => Some n | _ => None end.
Definition asBool (v : Val) : option bool := match v with VBool b => Some b | _ => None end.
Definition asStr (v : Val) : option jsstring := match v with VStr s => Some s | _ => None end.

(** A habit as the store holds it: the text fields are code-unit strings. *)
Record HabitView := mkHabitView {
  v_id : Z;
  v_name : jsstring;
  v_description : jsstring;
  v_philosophy : jsstring;
  v_streak : Z;
  v_completed : bool;
  v_color : jsstring
}.

Definition viewOf (x : Habits.Habit) : HabitView :=
  {| v_id := Habits.id x; v_name := lit (Habits.name x);
     v_description := lit (Habits.description x);
     v_philosophy := lit (Habits.philosophy x);
     v_streak := Habits.streak x; v_completed := Habits.completed x;
     v_color := lit (Habits.color x) |}.

Definition readHabit (h : Heap) (v : Val) : option HabitView :=
  match v with
  | VRef l =>
      match h !! l with
      | Some (Object props) =>
          i ← asNum (getProp "id" props);
          n ← asStr (getProp "name" props);
          d ← asStr (getProp "description" props);
          p ← asStr (getProp "philosophy" props);
          s ← asNum (getProp "streak" props);
          c ← asBool (getProp "completed" props);
          k ← asStr (getProp "color" props);
          Some (mkHabitView i n d p s c k)
      | _ => None
      end
  | _ => None
  end.

(** The habits array a reference leads to. *)
Definition readHabits (h : Heap) (v : Val) : option (list HabitView) :=
  match v with
  | VRef a =>
      match h !! a with
      | Some (Array elems) => mapM (readHabit h) elems
      | _ => None
      end
  | _ => None
  end.

End Store.
(** ** JavaScript numbers: what rounding to a double keeps *)

Section DoubleFacts.
Import Double.
Local Open Scope Q_scope.

Lemma pow2_pos (e : Z) : 0 < pow2 e.
Proof. apply Qpower_0_lt. reflexivity. Qed.

Lemma pow2_add (a b : Z) : pow2 (a + b) == pow2 a * pow2 b.
Proof. apply Qpower_plus. discriminate. Qed.

Lemma pow2_lt (a b : Z) : (a < b)%Z -> pow2 a < pow2 b.
Proof. intros H. apply Qpower_lt_compat_l; [exact H | reflexivity]. Qed.

Lemma pow2_le (a b : Z) : (a <= b)%Z -> pow2 a <= pow2 b.
Proof. intros H. apply Qpower_le_compat_l; [exact H | discriminate]. Qed.

Lemma pow2_lt_inv (a b : Z) : pow2 a < pow2 b -> (a < b)%Z.
Proof. intros H. apply (Qpower_lt_compat_l_inv (2 # 1)); [exact H | reflexivity]. Qed.

Lemma pow2_nonneg (e : Z) : (0 <= e)%Z -> pow2 e == inject_Z (2 ^ e).
Proof.
  intros H. unfold pow2. rewrite Zpower_Qpower by exact H. reflexivity.
Qed.

Lemma pow2_succ (e : Z) : pow2 (e + 1) == 2 * pow2 e.
Proof. rewrite pow2_add. change (pow2 1) with (2 # 1). ring. Qed.

(** The exponent [ilog2] finds is that of the binade. *)
Lemma ilog2_spec (x : Q) :
  ~ x == 0 -> pow2 (ilog2 x) <= Qabs x /\ Qabs x < pow2 (ilog2 x + 1).
Proof.
  intros Hx. unfold ilog2.
  set (n := Z.abs (Qnum x)). set (d := Zpos (Qden x)).
  set (a := Z.log2 n). set (b := Z.log2 d).
  assert (Hn : (0 < n)%Z).
  { unfold n. destruct x as [[|p|p] q]; cbn; try lia. exfalso. apply Hx. reflexivity. }
  assert (Hd : (0 < d)%Z) by (unfold d; lia).
  destruct (Z.log2_spec n Hn) as [Na Na']. fold a in Na, Na'.
  destruct (Z.log2_spec d Hd) as [Db Db']. fold b in Db, Db'.
  assert (Ha : (0 <= a)%Z) by apply Z.log2_nonneg.
  assert (Hb : (0 <= b)%Z) by apply Z.log2_nonneg.
  assert (Eabs : Qabs x == inject_Z n / inject_Z d).
  { destruct x as [xn xd]. unfold Qabs, n, d. cbn [Qnum Qden]. apply Qmake_Qdiv. }
  assert (Pd : 0 < inject_Z d).
  { change 0 with (inject_Z 0). rewrite <- Zlt_Qlt. exact Hd. }
  assert (EA : pow2 a == inject_Z (2 ^ a)) by (apply pow2_nonneg; exact Ha).
  assert (EB : pow2 b == inject_Z (2 ^ b)) by (apply pow2_nonneg; exact Hb).
  assert (Esplit : forall k, pow2 (a - b + k) * pow2 b == pow2 a * pow2 k).
  { intros k. rewrite <- !pow2_add. replace (a - b + k + b)%Z with (a + k)%Z by lia.
    reflexivity. }
  assert (NA : inject_Z (2 ^ a) <= inject_Z n) by (rewrite <- Zle_Qle; exact Na).
  assert (NA' : inject_Z n < 2 * inject_Z (2 ^ a)).
  { change 2 with (inject_Z 2). rewrite <- inject_Z_mult, <- Zlt_Qlt.
    rewrite Z.pow_succ_r in Na' by exact Ha. exact Na'. }
  assert (DB : inject_Z (2 ^ b) <= inject_Z d) by (rewrite <- Zle_Qle; exact Db).
  assert (DB' : inject_Z d < 2 * inject_Z (2 ^ b)).
  { change 2 with (inject_Z 2). rewrite <- inject_Z_mult, <- Zlt_Qlt.
    rewrite Z.pow_succ_r in Db' by exact Hb. exact Db'. }
  pose proof (pow2_pos a) as PA. pose proof (pow2_pos b) as PB.
  (* the two outer bounds *)
  assert (Lo : pow2 (a - b - 1) <= Qabs x).
  { rewrite Eabs. apply Qle_shift_div_l; [exact Pd|].
    pose proof (Esplit (-1)%Z) as E1. change (pow2 (-1)) with (1 # 2) in E1.
    replace (a - b + -1)%Z with (a - b - 1)%Z in E1 by lia.
    pose proof (pow2_pos (a - b - 1)) as PE.
    rewrite EA in E1. rewrite EB in E1.
    nra. }
  assert (Hi : Qabs x < pow2 (a - b + 1)).
  { rewrite Eabs. apply Qlt_shift_div_r; [exact Pd|].
    pose proof (Esplit 1%Z) as E1. change (pow2 1) with (2 # 1) in E1.
    pose proof (pow2_pos (a - b + 1)) as PE.
    rewrite EA in E1. rewrite EB in E1.
    nra. }
  destruct (Qle_bool (pow2 (a - b)) (Qabs x)) eqn:T.
  - apply Qle_bool_iff in T. split; [exact T | exact Hi].
  - assert (T' : Qabs x < pow2 (a - b)).
    { apply Qnot_le_lt. intros C. apply Qle_bool_iff in C. congruence. }
    split; [exact Lo|]. replace (a - b - 1 + 1)%Z with (a - b)%Z by lia. exact T'.
Qed.

(** Rounding to the nearest integer does not pass an integer. *)
Lemma rne_ge (x : Q) (n : Z) : inject_Z n <= x -> (n <= rne x)%Z.
Proof.
  intros H. assert (F : (n <= Qfloor x)%Z).
  { rewrite <- (Qfloor_Z n). apply Qfloor_resp_le. exact H. }
  unfold rne. destruct (x - inject_Z (Qfloor x) ?= 1 # 2); [destruct (Z.even _)| |]; lia.
Qed.

Lemma rne_le (x : Q) (n : Z) : x <= inject_Z n -> (rne x <= n)%Z.
Proof.
  intros H. pose proof (Qfloor_le x) as F.
  assert (F1 : (Qfloor x <= n)%Z).
  { rewrite Zle_Qle. apply Qle_trans with x; assumption. }
  assert (Up : 0 < x - inject_Z (Qfloor x) -> (Qfloor x + 1 <= n)%Z).
  { intros P. assert (L : (Qfloor x < n)%Z); [|lia].
    rewrite Zlt_Qlt. apply Qlt_le_trans with x; [lra | exact H]. }
  unfold rne. destruct (x - inject_Z (Qfloor x) ?= 1 # 2) eqn:C.
  - apply Qeq_alt in C. destruct (Z.even _); [exact F1 | apply Up; lra].
  - exact F1.
  - apply Qgt_alt in C. apply Up. lra.
Qed.


(** What is on the grid of a binade is on the grid of every binade
    below. *)
Lemma grid_refines (m u E : Z) :
  (u <= E)%Z -> exists M : Z, inject_Z m * pow2 E == inject_Z M * pow2 u.
Proof.
  intros H. exists (m * 2 ^ (E - u))%Z.
  replace E with ((E - u) + u)%Z at 1 by lia.
  rewrite pow2_add, inject_Z_mult, (pow2_nonneg (E - u)) by lia. ring.
Qed.

Lemma ulp_exp_le (x : Q) (E : Z) :
  ~ x == 0 -> Qabs x < pow2 (E + 1) -> (emin <= E)%Z ->
  (Z.max (ilog2 x) emin - 52 <= E - 52)%Z.
Proof.
  intros Hx Hb He. destruct (ilog2_spec x Hx) as [L _].
  assert (ilog2 x < E + 1)%Z; [|lia].
  apply pow2_lt_inv. apply Qle_lt_trans with (Qabs x); assumption.
Qed.

Lemma round_unfold (x : Q) :
  ~ x == 0 -> round x == inject_Z (rne (x / ulp x)) * ulp x.
Proof.
  intros Hx. unfold round. destruct (Qeq_bool x 0) eqn:T.
  - apply Qeq_bool_iff in T. contradiction.
  - apply Qred_correct.
Qed.

Lemma round_0 (x : Q) : x == 0 -> round x == 0.
Proof.
  intros Hx. unfold round. destruct (Qeq_bool x 0) eqn:T; [reflexivity|].
  apply Qeq_bool_neq in T. contradiction.
Qed.

(** Rounding does not pass a double: a number on the grid of a binade
    that [x] does not exceed bounds [round x] as it bounds [x]. *)
Lemma round_le_grid (x : Q) (E m : Z) :
  Qabs x < pow2 (E + 1) -> (emin <= E)%Z ->
  x <= inject_Z m * pow2 (E - 52) -> round x <= inject_Z m * pow2 (E - 52).
Proof.
  intros Hb He Hc. destruct (Qeq_dec x 0) as [Z0|Hx].
  - rewrite (round_0 x Z0). rewrite <- Z0. exact Hc.
  - rewrite (round_unfold x Hx). unfold ulp.
    set (u := (Z.max (ilog2 x) emin - 52)%Z).
    destruct (grid_refines m u (E - 52) (ulp_exp_le x E Hx Hb He)) as [M EM].
    rewrite EM in *. pose proof (pow2_pos u) as PU.
    apply Qmult_le_compat_r; [|apply Qlt_le_weak; exact PU].
    rewrite <- Zle_Qle. apply rne_le.
    apply Qle_shift_div_r; [exact PU | exact Hc].
Qed.

Lemma round_ge_grid (x : Q) (E m : Z) :
  Qabs x < pow2 (E + 1) -> (emin <= E)%Z ->
  inject_Z m * pow2 (E - 52) <= x -> inject_Z m * pow2 (E - 52) <= round x.
Proof.
  intros Hb He Hc. destruct (Qeq_dec x 0) as [Z0|Hx].
  - rewrite (round_0 x Z0). rewrite <- Z0. exact Hc.
  - rewrite (round_unfold x Hx). unfold ulp.
    set (u := (Z.max (ilog2 x) emin - 52)%Z).
    destruct (grid_refines m u (E - 52) (ulp_exp_le x E Hx Hb He)) as [M EM].
    rewrite EM in *. pose proof (pow2_pos u) as PU.
    apply Qmult_le_compat_r; [|apply Qlt_le_weak; exact PU].
    rewrite <- Zle_Qle. apply rne_ge.
    apply Qle_shift_div_l; [exact PU | exact Hc].
Qed.

(** Integers bound the rounding of a number below [2^53] in magnitude. *)
Lemma round_le_int (x : Q) (m : Z) :
  Qabs x < pow2 53 -> x <= inject_Z m -> round x <= inject_Z m.
Proof.
  intros Hb Hc. pose proof (round_le_grid x 52 m Hb) as H.
  change (pow2 (52 - 52)) with 1 in H. rewrite Qmult_1_r in H.
  apply H; [discriminate | exact Hc].
Qed.

Lemma round_ge_int (x : Q) (m : Z) :
  Qabs x < pow2 53 -> inject_Z m <= x -> inject_Z m <= round x.
Proof.
  intros Hb Hc. pose proof (round_ge_grid x 52 m Hb) as H.
  change (pow2 (52 - 52)) with 1 in H. rewrite Qmult_1_r in H.
  apply H; [discriminate | exact Hc].
Qed.

Lemma ilog2_unique (x : Q) (e : Z) :
  ~ x == 0 -> pow2 e <= Qabs x -> Qabs x < pow2 (e + 1) -> ilog2 x = e.
Proof.
  intros Hx L U. destruct (ilog2_spec x Hx) as [L' U'].
  assert (ilog2 x < e + 1)%Z by (apply pow2_lt_inv; apply Qle_lt_trans with (Qabs x); assumption).
  assert (e < ilog2 x + 1)%Z by (apply pow2_lt_inv; apply Qle_lt_trans with (Qabs x); assumption).
  lia.
Qed.

Lemma rne_comp (x y : Q) : x == y -> rne x = rne y.
Proof.
  intros E. unfold rne. rewrite (Qfloor_comp x y E).
  assert (C : (x - inject_Z (Qfloor y) ?= 1 # 2) = (y - inject_Z (Qfloor y) ?= 1 # 2)).
  { apply Qcompare_comp; [rewrite E; reflexivity | reflexivity]. }
  rewrite C. reflexivity.
Qed.

(** Rounding depends on the number, not on the fraction that denotes it. *)
Lemma round_comp (x y : Q) : x == y -> round x == round y.
Proof.
  intros E. destruct (Qeq_dec x 0) as [Z0|Hx].
  - rewrite (round_0 x Z0), (round_0 y); [reflexivity | rewrite <- E; exact Z0].
  - assert (Hy : ~ y == 0) by (rewrite <- E; exact Hx).
    rewrite (round_unfold x Hx), (round_unfold y Hy).
    assert (I : ilog2 x = ilog2 y).
    { destruct (ilog2_spec y Hy) as [L U].
      apply ilog2_unique; [exact Hx | rewrite E; exact L | rewrite E; exact U]. }
    unfold ulp. rewrite I.
    set (u := pow2 (Z.max (ilog2 y) emin - 52)).
    assert (R : rne (x / u) = rne (y / u)) by (apply rne_comp; rewrite E; reflexivity).
    rewrite R. reflexivity.
Qed.


(** Integers up to [2^53] in magnitude are doubles. *)
Lemma round_int (n : Z) : (Z.abs n <= 2 ^ 53)%Z -> round (inject_Z n) == inject_Z n.
Proof.
  intros H.
  destruct (Z.eq_dec n (2 ^ 53)%Z) as [->|N1]; [vm_compute; reflexivity|].
  destruct (Z.eq_dec n (- 2 ^ 53)%Z) as [->|N2]; [vm_compute; reflexivity|].
  assert (Hb : Qabs (inject_Z n) < pow2 53).
  { rewrite (pow2_nonneg 53) by discriminate.
    change (Qabs (inject_Z n)) with (inject_Z (Z.abs n)). rewrite <- Zlt_Qlt. lia. }
  apply Qle_antisym.
  - apply round_le_int; [exact Hb | apply Qle_refl].
  - apply round_ge_int; [exact Hb | apply Qle_refl].
Qed.

Lemma addZ_exact (a b : Z) : (Z.abs (a + b) <= 2 ^ 53)%Z -> addZ a b = (a + b)%Z.
Proof.
  intros H. unfold addZ, add.
  assert (R : round (inject_Z a + inject_Z b) == inject_Z (a + b)).
  { rewrite <- (round_int _ H). apply round_comp. rewrite inject_Z_plus. reflexivity. }
  rewrite (Qfloor_comp _ _ R). apply Qfloor_Z.
Qed.

Lemma subZ_exact (a b : Z) : (Z.abs (a - b) <= 2 ^ 53)%Z -> subZ a b = (a - b)%Z.
Proof.
  intros H. unfold subZ, sub.
  assert (R : round (inject_Z a - inject_Z b) == inject_Z (a - b)).
  { rewrite <- (round_int _ H). apply round_comp.
    unfold Z.sub. rewrite inject_Z_plus, inject_Z_opp. reflexivity. }
  rewrite (Qfloor_comp _ _ R). apply Qfloor_Z.
Qed.


(** The arithmetic of the delays and amplitudes: a draw scaled by a
    whole number and shifted by another stays between the two ends, the
    upper one included. *)
Lemma draw_then_shift (r : Q) (span off : Z) :
  0 <= r -> r < 1 -> (0 <= span)%Z -> (Z.abs off + span < 2 ^ 53)%Z ->
  inject_Z off <= round (round (r * inject_Z span) + inject_Z off)
  /\ round (round (r * inject_Z span) + inject_Z off) <= inject_Z (span + off).
Proof.
  intros H0 H1 Hs Hsum.
  assert (Ps : 0 <= inject_Z span) by (change 0 with (inject_Z 0); rewrite <- Zle_Qle; exact Hs).
  assert (P53 : inject_Z (Z.abs off + span) < pow2 53).
  { rewrite (pow2_nonneg 53) by discriminate. rewrite <- Zlt_Qlt. exact Hsum. }
  rewrite inject_Z_plus in P53.
  assert (Ao : Qabs (inject_Z off) == inject_Z (Z.abs off)) by reflexivity.
  assert (Po : 0 <= inject_Z (Z.abs off)).
  { change 0 with (inject_Z 0). rewrite <- Zle_Qle. lia. }
  assert (Bo : - inject_Z (Z.abs off) <= inject_Z off /\ inject_Z off <= inject_Z (Z.abs off)).
  { rewrite <- inject_Z_opp, <- !Zle_Qle. lia. }
  assert (M0 : 0 <= r * inject_Z span) by (apply Qmult_le_0_compat; assumption).
  assert (M1 : r * inject_Z span <= inject_Z span).
  { rewrite <- (Qmult_1_l (inject_Z span)) at 2.
    apply Qmult_le_compat_r; [apply Qlt_le_weak; exact H1 | exact Ps]. }
  assert (Am : Qabs (r * inject_Z span) < pow2 53).
  { rewrite Qabs_pos by exact M0. lra. }
  pose proof (round_ge_int _ 0 Am M0) as R0.
  pose proof (round_le_int _ span Am M1) as R1.
  set (p := round (r * inject_Z span)) in *.
  change (inject_Z 0) with 0 in R0.
  assert (As : Qabs (p + inject_Z off) < pow2 53).
  { apply Qabs_Qlt_condition. lra. }
  split.
  - apply round_ge_int; [exact As | lra].
  - apply round_le_int; [exact As | rewrite inject_Z_plus; lra].
Qed.

(** [base + Math.random() * span]. *)
Lemma add_base_draw (r : Q) (base span : Z) :
  0 <= r -> r < 1 -> (0 <= span)%Z -> (Z.abs base + span < 2 ^ 53)%Z ->
  inject_Z base <= add (inject_Z base) (mul r (inject_Z span))
  /\ add (inject_Z base) (mul r (inject_Z span)) <= inject_Z (span + base).
Proof.
  intros H0 H1 Hs Hsum. unfold add, mul.
  rewrite (round_comp _ (round (r * inject_Z span) + inject_Z base)) by ring.
  apply draw_then_shift; assumption.
Qed.

(** [Math.random() * span + base]. *)
Lemma add_draw_base (r : Q) (base span : Z) :
  0 <= r -> r < 1 -> (0 <= span)%Z -> (Z.abs base + span < 2 ^ 53)%Z ->
  inject_Z base <= add (mul r (inject_Z span)) (inject_Z base)
  /\ add (mul r (inject_Z span)) (inject_Z base) <= inject_Z (span + base).
Proof. intros H0 H1 Hs Hsum. unfold add, mul. apply draw_then_shift; assumption. Qed.


(** [Math.random() * 0 + 0] is 0. *)
Lemma add_mul_zero (r : Q) : add (mul r 0) 0 == 0.
Proof.
  unfold add, mul.
  assert (E1 : round (r * 0) == 0) by (apply round_0; ring).
  apply round_0. rewrite E1. reflexivity.
Qed.

(** The upper ends are reached: at the largest double below 1, or the
    one before it, the sums round up to them. *)
Example upper_ends_are_reached :
  add 2000 (mul belowOne 2000) == 4000
  /\ add (mul belowOne 30000) 20000 == 50000
  /\ add 2000 (mul (1 - pow2 (-52)) 1000) == 3000
  /\ add 25000 (mul (1 - pow2 (-52)) 10000) == 35000
  /\ add 28000 (mul (1 - pow2 (-52)) 4000) == 32000
  /\ add 4000 (mul (1 - pow2 (-52)) 6000) == 10000
  /\ representable belowOne /\ representable (1 - pow2 (-52)).
Proof. repeat split; vm_compute; reflexivity. Qed.

(** [round] against the standard library's specification of binary64
    ([SFadd], [SFmul] with 53 bits of precision and [emax] 1024), on the
    products and sums above, on [0.1 * 3] and [0.1 + 0.2], on
    [2^53 + 1], on the draw nearest to 2/3 times 12, and on a tie among
    the subnormals. *)
Example round_agrees_with_binary64 :
  let F := SpecFloat.S754_finite false in
  let fadd := SpecFloat.SFadd 53 1024 in
  let fmul := SpecFloat.SFmul 53 1024 in
  let below := F 9007199254740991%positive (-53)%Z in
  let before := F 9007199254740990%positive (-53)%Z in
  let tenth := F 3602879701896397%positive (-55)%Z in
  denotes below belowOne = true
  /\ denotes before (1 - pow2 (-52)) = true
  /\ denotes (fadd (F 2000%positive 0%Z) (fmul below (F 2000%positive 0%Z)))
              (add 2000 (mul belowOne 2000)) = true
  /\ denotes (fadd (fmul below (F 30000%positive 0%Z)) (F 20000%positive 0%Z))
              (add (mul belowOne 30000) 20000) = true
  /\ denotes (fadd (F 25000%positive 0%Z) (fmul before (F 10000%positive 0%Z)))
              (add 25000 (mul (1 - pow2 (-52)) 10000)) = true
  /\ denotes (fmul tenth (F 3%positive 0%Z)) (mul (lit (1 # 10)) 3) = true
  /\ denotes (fadd tenth (F 3602879701896397%positive (-54)%Z))
              (add (lit (1 # 10)) (lit (2 # 10))) = true
  /\ denotes (fadd (F 9007199254740992%positive 0%Z) (F 1%positive 0%Z))
              (inject_Z (addZ (2 ^ 53) 1)) = true
  /\ denotes (fmul (F 6004799503160661%positive (-53)%Z) (F 12%positive 0%Z))
              (mul (6004799503160661 # 9007199254740992) 12) = true
  /\ denotes (fmul (F 1%positive (-1074)%Z) (F 1%positive (-1)%Z))
              (mul (pow2 (-1074)) (1 # 2)) = true
  /\ denotes (fmul (F 3%positive (-1074)%Z) (F 1%positive (-1)%Z))
              (mul (3 * pow2 (-1074)) (1 # 2)) = true.
Proof. cbv zeta. repeat split; vm_compute; reflexivity. Qed.

End DoubleFacts.

(* ===================================================================== *)
(** * Properties *)
(* ===================================================================== *)

(** ** Habits and preferences: selection by id *)

Section HabitsFacts.
Import Habits.

Lemma toggled_neq (h : Habit) : Habit_eqb h (toggled h) = false.
Proof.
  unfold Habit_eqb, toggled; simpl.
  destruct (completed h); simpl; rewrite !andb_false_r; reflexivity.
Qed.

Lemma Habit_eqb_refl (h : Habit) : Habit_eqb h h = true.
Proof.
  unfold Habit_eqb.
  rewrite !Z.eqb_refl, !String.eqb_refl, Bool.eqb_reflx. reflexivity.
Qed.

Lemma habits_affected_from (id0 : Z) (habits : list Habit) (i : nat) :
  changedPositions Habit_eqb habits (toggleHabitCompletion id0 habits) i
  = positionsWithId id0 habits i.
Proof.
  revert i. induction habits as [|h hs IH]; intros i; simpl; [reflexivity|].
  destruct (id h =? id0).
  - rewrite toggled_neq. f_equal. apply IH.
  - rewrite Habit_eqb_refl. apply IH.
Qed.

(** On a safe integer, adding and subtracting 1 are exact. *)
Lemma safe_step (s : Z) :
  Z.abs s < 2 ^ 53 -> Double.addZ s 1 = s + 1 /\ Double.subZ s 1 = s - 1.
Proof.
  intros H. split; [apply addZ_exact | apply subZ_exact]; lia.
Qed.

Lemma toggled_streak (h : Habit) :
  safeStreak h ->
  streak (toggled h) = if completed h then streak h - 1 else streak h + 1.
Proof.
  intros H. destruct (safe_step (streak h) H) as [A S].
  unfold toggled; simpl. destruct (completed h); simpl; assumption.
Qed.

Lemma toggled_toggled (h : Habit) : safeStreak h -> toggled (toggled h) = h.
Proof.
  intros H. unfold safeStreak in H.
  destruct h as [i n d p s c k]. cbn [streak] in H.
  unfold toggled; cbn [id name description philosophy streak completed color].
  destruct c; cbn [negb]; f_equal.
  - rewrite subZ_exact by lia. rewrite addZ_exact by lia. lia.
  - rewrite addZ_exact by lia. rewrite subZ_exact by lia. lia.
Qed.

Lemma toggleHabitCompletion_lookup (id0 : Z) (habits : list Habit) (i : nat) :
  toggleHabitCompletion id0 habits !! i
  = (fun h => if id h =? id0 then toggled h else h) <$> habits !! i.
Proof. unfold toggleHabitCompletion. apply list_lookup_fmap. Qed.

End HabitsFacts.

Section ProfileFacts.
Import Profile.

Lemma Pref_eqb_refl (p : PhilosophicalPreference) : Pref_eqb p p = true.
Proof.
  unfold Pref_eqb. rewrite Z.eqb_refl, String.eqb_refl, Bool.eqb_reflx. reflexivity.
Qed.

Lemma prefs_affected_from (id0 : Z) (prefs : list PhilosophicalPreference) (i : nat) :
  Habits.changedPositions Pref_eqb prefs (togglePreference id0 prefs) i
  = positionsWithId id0 prefs i.
Proof.
  revert i. induction prefs as [|p ps IH]; intros i; simpl; [reflexivity|].
  destruct (id p =? id0) eqn:E.
  - unfold Pref_eqb at 1; simpl.
    destruct (selected p); simpl; rewrite ?andb_false_r; f_equal; apply IH.
  - rewrite Pref_eqb_refl. apply IH.
Qed.

End ProfileFacts.

(** C8, as the claim has it, fails: it is stated for every habits list,
    and a streak is a double. A habit whose streak is [2^53] and which is
    not completed keeps the streak [2^53] when it becomes completed,
    since [2^53 + 1] is not a double and rounds back, and is left with
    [2^53 - 1] when it is toggled again: one is not added, and two calls
    do not give back the original list. *)
Lemma streak_beyond_safe_integers_is_not_restored :
  let h := Habits.mkHabit 1 "Morning Meditation" "Start the day with 10 minutes of mindfulness"
                          "Buddhism" (2 ^ 53) false "#A1CEDC" in
  Habits.streak <$> Habits.toggleHabitCompletion 1 [h] = [2 ^ 53]
  /\ Habits.streak <$> Habits.toggleHabitCompletion 1 (Habits.toggleHabitCompletion 1 [h])
     = [2 ^ 53 - 1]
  /\ ~ (forall (id0 : Z) (habits : list Habits.Habit),
          Habits.toggleHabitCompletion id0 (Habits.toggleHabitCompletion id0 habits)
          = habits).
Proof.
  cbv zeta. split; [vm_compute; reflexivity|]. split; [vm_compute; reflexivity|].
  intros H.
  specialize (H 1 [Habits.mkHabit 1 "" "" "" (2 ^ 53) false ""]).
  vm_compute in H. discriminate H.
Qed.

(** C8, amended. For every habits list whose streaks are safe integers
    (below [2^53] in magnitude) and every id, [toggleHabitCompletion]
    keeps the length of the list; at each position it leaves a habit
    whose id differs exactly as it was, and in a habit whose id matches
    it flips [completed], adds 1 to [streak] when the habit becomes
    completed and subtracts 1 when it becomes uncompleted, and keeps
    every other field; applied twice with the same id it gives back the
    original list. *)
Theorem toggleHabitCompletion_involution_frame (id0 : Z) (habits : list Habits.Habit) :
  Forall Habits.safeStreak habits ->
  length (Habits.toggleHabitCompletion id0 habits) = length habits
  /\ (forall i h, habits !! i = Some h ->
        exists h', Habits.toggleHabitCompletion id0 habits !! i = Some h'
          /\ (Habits.id h <> id0 -> h' = h)
          /\ (Habits.id h = id0 ->
                Habits.completed h' = negb (Habits.completed h)
                /\ (Habits.completed h' = true -> Habits.streak h' = Habits.streak h + 1)
                /\ (Habits.completed h' = false -> Habits.streak h' = Habits.streak h - 1)
                /\ Habits.id h' = Habits.id h
                /\ Habits.name h' = Habits.name h
                /\ Habits.description h' = Habits.description h
                /\ Habits.philosophy h' = Habits.philosophy h
                /\ Habits.color h' = Habits.color h))
  /\ Habits.toggleHabitCompletion id0 (Habits.toggleHabitCompletion id0 habits) = habits.
Proof.
  intros Safe. split; [|split].
  - unfold Habits.toggleHabitCompletion. apply length_map.
  - intros i h Hi. rewrite toggleHabitCompletion_lookup, Hi. simpl.
    assert (Sh : Habits.safeStreak h).
    { rewrite List.Forall_forall in Safe. apply Safe.
      apply list_elem_of_In. eapply list_elem_of_lookup_2. exact Hi. }
    eexists; split; [reflexivity|]. split.
    + intros Hne. apply Z.eqb_neq in Hne. rewrite Hne. reflexivity.
    + intros He. apply Z.eqb_eq in He. rewrite He.
      pose proof (toggled_streak h Sh) as Es.
      unfold Habits.toggled in *; cbn [Habits.completed Habits.streak Habits.id Habits.name
        Habits.description Habits.philosophy Habits.color] in *.
      destruct (Habits.completed h); cbn [negb] in *;
        repeat split; try reflexivity; try discriminate; intros _; exact Es.
  - induction Safe as [|h hs Sh _ IH]; simpl; [reflexivity|].
    f_equal; [|exact IH].
    destruct (Habits.id h =? id0) eqn:E; simpl; rewrite E; [|reflexivity].
    apply toggled_toggled. exact Sh.
Qed.

(** The amended C8 on the literal habits and the id of Journaling. *)
Lemma toggleHabitCompletion_involution_frame_witness :
  Forall Habits.safeStreak Habits.initialHabits
  /\ length (Habits.toggleHabitCompletion 2 Habits.initialHabits)
     = length Habits.initialHabits
  /\ Habits.toggleHabitCompletion 2 (Habits.toggleHabitCompletion 2 Habits.initialHabits)
     = Habits.initialHabits.
Proof.
  assert (S : Forall Habits.safeStreak Habits.initialHabits)
    by (repeat constructor).
  split; [exact S|].
  destruct (toggleHabitCompletion_involution_frame 2 Habits.initialHabits S)
    as (L & _ & I).
  split; [exact L | exact I].
Defined.

(** C2, as the spec has it, fails: which element an update affects is not
    a matter of position. The same call [toggleHabitCompletion(1)]
    changes position 0 of one two-element array and position 1 of the
    array holding the same two habits in the other order; likewise
    [togglePreference(1)]. *)
Lemma update_not_positional :
  let a := Habits.mkHabit 1 "Morning Meditation" "Start the day with 10 minutes of mindfulness"
                          "Buddhism" 3 false "#A1CEDC" in
  let b := Habits.mkHabit 2 "Journaling" "Evening reflection on daily events"
                          "Stoicism" 5 false "#D0A1DC" in
  let p := Profile.mkPref 1 "Stoicism" true in
  let q := Profile.mkPref 2 "Buddhism" true in
  Habits.affected 1 [a; b] = [0%nat] /\ Habits.affected 1 [b; a] = [1%nat]
  /\ Profile.affected 1 [p; q] = [0%nat] /\ Profile.affected 1 [q; p] = [1%nat]
  /\ ~ (forall (id0 : Z) (hs hs' : list Habits.Habit),
          length hs = length hs' -> Habits.affected id0 hs = Habits.affected id0 hs').
Proof.
  repeat split; try reflexivity.
  intros H.
  specialize (H 1
    [Habits.mkHabit 1 "" "" "" 0 false ""; Habits.mkHabit 2 "" "" "" 0 false ""]
    [Habits.mkHabit 2 "" "" "" 0 false ""; Habits.mkHabit 1 "" "" "" 0 false ""]
    eq_refl).
  vm_compute in H. discriminate H.
Qed.

(** C2, amended. The elements carry an [id] and the updates select by it:
    for every id and every array, the positions [toggleHabitCompletion]
    changes are exactly the positions whose habit has that id, and the
    positions [togglePreference] changes are exactly the positions whose
    preference has that id, wherever in the array they are. *)
Theorem updates_select_by_id (id0 : Z) (habits : list Habits.Habit)
    (prefs : list Profile.PhilosophicalPreference) :
  Habits.affected id0 habits = Habits.positionsWithId id0 habits 0
  /\ Profile.affected id0 prefs = Profile.positionsWithId id0 prefs 0.
Proof.
  split.
  - apply habits_affected_from.
  - apply prefs_affected_from.
Qed.

(** ** Decisions screen: the step flow *)

Section DecisionsFacts.
Import JSString Decisions.

(** The effects touch shared values only. *)
Lemma afterRender_cells (prev next : State) :
  let st := afterRender prev next in
  decision st = decision next
  /\ selectedFramework st = selectedFramework next
  /\ currentStep st = currentStep next
  /\ responses st = responses next
  /\ showResults st = showResults next
  /\ inputText st = inputText next.
Proof.
  unfold afterRender, stepEffect.
  destruct (sameFramework _ _ && _); [tauto|].
  destruct (selectedFramework next) eqn:E; simpl; rewrite ?E; tauto.
Qed.

Ltac cells prev next :=
  destruct (afterRender_cells prev next) as (?Hd & ?Hf & ?Hc & ?Hr & ?Hs & ?Hi).

(** *** White space and the disabled cards *)

Lemma trimStart_blank (s : jsstring) : trimStart s = [] <-> blank s.
Proof.
  unfold blank. induction s as [|c s IH]; simpl.
  - split; [constructor | reflexivity].
  - destruct (isWhiteSpace c) eqn:E.
    + rewrite IH. split; [intros H; constructor; assumption|].
      intros H. inversion H; assumption.
    + split; [discriminate|]. intros H. inversion H; congruence.
Qed.

Lemma trimStart_head (s : jsstring) :
  trimStart s = [] \/ exists c rest, trimStart s = c :: rest /\ isWhiteSpace c = false.
Proof.
  induction s as [|c s IH]; simpl; [left; reflexivity|].
  destruct (isWhiteSpace c) eqn:E; [exact IH|].
  right. exists c, s. split; [reflexivity | exact E].
Qed.

Lemma trim_blank (s : jsstring) : trim s = [] <-> blank s.
Proof.
  unfold trim, trimEnd. split.
  - intros H.
    assert (Hr : trimStart (rev (trimStart s)) = []).
    { destruct (trimStart (rev (trimStart s))) as [|c0 l0]; [reflexivity|].
      simpl in H. apply app_eq_nil in H. destruct H as [_ H]. discriminate H. }
    apply trimStart_blank in Hr. unfold blank in Hr.
    destruct (trimStart_head s) as [E | (c & rest & E & Hc)].
    + apply trimStart_blank. exact E.
    + rewrite E in Hr. apply Forall_rev in Hr. rewrite rev_involutive in Hr.
      inversion Hr; congruence.
  - intros H. apply trimStart_blank in H. rewrite H. reflexivity.
Qed.

Lemma cardDisabled_blank (st : State) : cardDisabled st = true <-> blank (decision st).
Proof.
  unfold cardDisabled. rewrite <- trim_blank.
  destruct (trim (decision st)); simpl; split; congruence.
Qed.

(** *** The invariant of the step flow *)

Lemma frameworks_have_steps (f : Framework) : In f frameworks -> stepsLength f = 4.
Proof.
  unfold frameworks. simpl.
  intros [<- | [<- | [<- | [<- | []]]]]; reflexivity.
Qed.

Ltac project_cells :=
  cbn [decision selectedFramework currentStep responses showResults inputText].

Lemma dispatch_invariant (st : State) (ev : Event) :
  flowInvariant st -> flowInvariant (dispatch ev st).
Proof.
  intros Inv. unfold dispatch.
  destruct (selectedFramework st) as [f|] eqn:Ef.
  - destruct ev; try exact Inv.
    + (* PressStartOver *) exact I.
    + (* ChangeInputText *)
      destruct (showResults st) eqn:Es; [exact Inv|].
      unfold flowInvariant, setInputText in *. project_cells.
      exact Inv.
    + (* PressNext *)
      destruct (showResults st) eqn:Es; [exact Inv|].
      unfold flowInvariant in Inv. rewrite Ef, Es in Inv.
      destruct Inv as (Hin & Hstep & Hopen & _). specialize (Hopen eq_refl).
      unfold flowInvariant, handleNextStep. rewrite Ef.
      destruct (currentStep st <? stepsLength f - 1) eqn:El;
        project_cells; rewrite length_app; cbn [length].
      * apply Z.ltb_lt in El. rewrite Es.
        repeat split; try assumption; try lia; discriminate.
      * apply Z.ltb_ge in El.
        repeat split; try assumption; try lia; discriminate.
    + (* PressNewDecision *)
      destruct (showResults st); [exact I | exact Inv].
  - destruct ev; try exact Inv.
    (* PressFramework *)
    + destruct (frameworks !! i) as [f|] eqn:Ei; [|exact Inv].
      destruct (cardDisabled st); [exact Inv|].
      unfold flowInvariant, handleFrameworkSelect. project_cells.
      apply list_elem_of_lookup_2 in Ei. apply list_elem_of_In in Ei.
      pose proof (frameworks_have_steps f Ei).
      cbn [length].
      repeat split; try assumption; try lia; discriminate.
Qed.

Lemma step_invariant (st : State) (ev : Event) :
  flowInvariant st -> flowInvariant (step st ev).
Proof.
  intros Inv. apply (dispatch_invariant st ev) in Inv.
  unfold step. cells st (dispatch ev st).
  unfold flowInvariant in *. rewrite Hf, Hc, Hr, Hs. exact Inv.
Qed.

Lemma run_invariant (evs : list Event) (st : State) :
  flowInvariant st -> flowInvariant (run evs st).
Proof.
  revert st. induction evs as [|ev evs IH]; intros st Inv; simpl; [exact Inv|].
  apply IH. apply step_invariant. exact Inv.
Qed.

Lemma mounted_invariant : flowInvariant mounted.
Proof. exact I. Qed.

(** *** Pressing Next *)

Lemma step_next_advance (st : State) (f : Framework) :
  selectedFramework st = Some f -> showResults st = false ->
  currentStep st < stepsLength f - 1 ->
  let st' := step st PressNext in
  selectedFramework st' = Some f /\ showResults st' = false
  /\ currentStep st' = currentStep st + 1
  /\ responses st' = responses st ++ [inputText st].
Proof.
  intros Ef Es Hlt. unfold step. cells st (dispatch PressNext st).
  simpl. rewrite Hf, Hs, Hc, Hr.
  unfold dispatch. rewrite Ef, Es. unfold handleNextStep. rewrite Ef.
  apply Z.ltb_lt in Hlt. rewrite Hlt. project_cells. rewrite ?Ef, ?Es. tauto.
Qed.

Lemma step_next_finish (st : State) (f : Framework) :
  selectedFramework st = Some f -> showResults st = false ->
  stepsLength f - 1 <= currentStep st ->
  let st' := step st PressNext in
  selectedFramework st' = Some f /\ showResults st' = true
  /\ currentStep st' = currentStep st
  /\ responses st' = responses st ++ [inputText st].
Proof.
  intros Ef Es Hge. unfold step. cells st (dispatch PressNext st).
  simpl. rewrite Hf, Hs, Hc, Hr.
  unfold dispatch. rewrite Ef, Es. unfold handleNextStep. rewrite Ef.
  apply Z.ltb_ge in Hge. rewrite Hge. project_cells. rewrite ?Ef. tauto.
Qed.

Lemma run_snoc (evs : list Event) (ev : Event) (st : State) :
  run (evs ++ [ev]) st = step (run evs st) ev.
Proof. unfold run. rewrite fold_left_app. reflexivity. Qed.

Lemma presses_advance (k : nat) (st : State) (f : Framework) :
  selectedFramework st = Some f -> showResults st = false ->
  currentStep st + Z.of_nat k < stepsLength f ->
  let st' := run (repeat PressNext k) st in
  selectedFramework st' = Some f /\ showResults st' = false
  /\ currentStep st' = currentStep st + Z.of_nat k
  /\ length (responses st') = (length (responses st) + k)%nat.
Proof.
  intros Ef Es. induction k as [|k IH]; intros Hlt.
  - simpl. repeat split; try assumption; lia.
  - destruct IH as (Ef' & Es' & Ec' & Er'); [lia|].
    simpl repeat. rewrite repeat_cons, run_snoc.
    destruct (step_next_advance (run (repeat PressNext k) st) f Ef' Es')
      as (Hf & Hs & Hc & Hr); [lia|].
    cbv zeta. rewrite Hf, Hs, Hc, Hr, length_app. simpl.
    repeat split; lia.
Qed.

End DecisionsFacts.

(** C1, as the spec has it, fails: a sequence of UI events does drive a
    multi-step progression of the decisions screen. After a decision is
    typed and the first framework chosen, four presses of Next take
    [currentStep] through 0, 1, 2, 3 and then switch [showResults] on;
    so it is not the case that the pair (currentStep, showResults) stays
    at (0, false) whatever the user does. *)
Lemma decisions_progression_exists :
  Decisions.progression
    [ Decisions.ChangeDecision (JSString.lit "x"); Decisions.PressFramework 0;
      Decisions.PressNext; Decisions.PressNext; Decisions.PressNext;
      Decisions.PressNext ]
    Decisions.mounted
  = [ (0, false); (0, false); (0, false); (1, false); (2, false); (3, false); (3, true) ]
  /\ ~ (forall evs, Forall (fun p => p = (0, false))
                      (Decisions.progression evs Decisions.mounted)).
Proof.
  split; [reflexivity|].
  intros H.
  specialize (H [ Decisions.ChangeDecision (JSString.lit "x"); Decisions.PressFramework 0;
                  Decisions.PressNext ]).
  vm_compute in H.
  repeat match goal with
         | H : Forall _ (_ :: _) |- _ => inversion H; subst; clear H
         end.
  discriminate.
Qed.

(** C1, amended. The decisions screen is a step-by-step state machine
    driven by the Next button: from a state with framework [f] selected
    and the results not yet shown, [k] presses of Next advance
    [currentStep] by [k] and record [k] responses as long as the step
    reached is still below [f.steps.length]; and a press of Next on the
    last step ([currentStep = f.steps.length - 1]) keeps [currentStep],
    records one more response and turns [showResults] on. *)
Theorem next_drives_progression (st : Decisions.State) (f : Decisions.Framework) (k : nat) :
  Decisions.selectedFramework st = Some f ->
  Decisions.showResults st = false ->
  Decisions.currentStep st + Z.of_nat k = Decisions.stepsLength f - 1 ->
  let st' := Decisions.run (repeat Decisions.PressNext k) st in
  let st'' := Decisions.step st' Decisions.PressNext in
  (Decisions.selectedFramework st' = Some f
   /\ Decisions.showResults st' = false
   /\ Decisions.currentStep st' = Decisions.currentStep st + Z.of_nat k
   /\ length (Decisions.responses st') = (length (Decisions.responses st) + k)%nat)
  /\ (Decisions.selectedFramework st'' = Some f
      /\ Decisions.showResults st'' = true
      /\ Decisions.currentStep st'' = Decisions.stepsLength f - 1
      /\ length (Decisions.responses st'') = (length (Decisions.responses st) + k + 1)%nat).
Proof.
  intros Ef Es Hk.
  destruct (presses_advance k st f Ef Es) as (Ef' & Es' & Ec' & Er'); [lia|].
  cbv zeta. split; [tauto|].
  destruct (step_next_finish (Decisions.run (repeat Decisions.PressNext k) st) f Ef' Es')
    as (Hf & Hs & Hc & Hr); [lia|].
  rewrite Hf, Hs, Hc, Hr, length_app. simpl. repeat split; lia.
Qed.

(** The amended C1 at the first framework, just selected: three presses
    reach the last step and the fourth shows the results. *)
Lemma next_drives_progression_witness :
  let st := Decisions.run [ Decisions.ChangeDecision (JSString.lit "x");
                            Decisions.PressFramework 0 ] Decisions.mounted in
  let st' := Decisions.run (repeat Decisions.PressNext 3) st in
  let st'' := Decisions.step st' Decisions.PressNext in
  Decisions.currentStep st' = 3 /\ Decisions.showResults st' = false
  /\ Decisions.currentStep st'' = 3 /\ Decisions.showResults st'' = true.
Proof.
  pose proof (next_drives_progression
    (Decisions.run [ Decisions.ChangeDecision (JSString.lit "x");
                     Decisions.PressFramework 0 ] Decisions.mounted)
    {| Decisions.id := 1; Decisions.name := "Stoic Fork";
       Decisions.description :=
         "Based on Stoic philosophy, this framework helps you focus on what you can control.";
       Decisions.philosophy := "Stoicism";
       Decisions.steps :=
         [ "Identify what aspects of the situation are within your control";
           "Recognize what aspects are outside your control";
           "Focus your energy only on what you can influence";
           "Accept with equanimity what you cannot change" ] |}
    3%nat eq_refl eq_refl eq_refl) as H.
  cbv zeta in H. destruct H as ((_ & Hs' & Hc' & _) & (_ & Hs'' & Hc'' & _)).
  cbv zeta. repeat split; assumption.
Defined.

(** C9. In every state the decisions screen can reach from its mount by
    UI events, if a framework is selected then
    [0 <= currentStep < selectedFramework.steps.length], and
    [showResults] is true exactly when [responses.length] equals
    [selectedFramework.steps.length]. *)
Theorem step_flow_invariant (evs : list Decisions.Event) (f : Decisions.Framework) :
  Decisions.selectedFramework (Decisions.run evs Decisions.mounted) = Some f ->
  let st := Decisions.run evs Decisions.mounted in
  0 <= Decisions.currentStep st < Decisions.stepsLength f
  /\ (Decisions.showResults st = true
      <-> Z.of_nat (length (Decisions.responses st)) = Decisions.stepsLength f).
Proof.
  intros Ef. cbv zeta.
  pose proof (run_invariant evs Decisions.mounted mounted_invariant) as Inv.
  unfold Decisions.flowInvariant in Inv. rewrite Ef in Inv.
  destruct Inv as (_ & Hstep & Hopen & Hdone).
  split; [exact Hstep|].
  split; [exact Hdone|].
  intros Hlen. destruct (Decisions.showResults _); [reflexivity|].
  specialize (Hopen eq_refl). lia.
Qed.

(** C9 on a run that stops at the second step of the third framework. *)
Lemma step_flow_invariant_witness :
  let st := Decisions.run [ Decisions.ChangeDecision (JSString.lit "move?");
                            Decisions.PressFramework 2; Decisions.PressNext ]
                          Decisions.mounted in
  0 <= Decisions.currentStep st < 4
  /\ (Decisions.showResults st = true
      <-> Z.of_nat (length (Decisions.responses st)) = 4).
Proof.
  exact (step_flow_invariant
           [ Decisions.ChangeDecision (JSString.lit "move?");
             Decisions.PressFramework 2; Decisions.PressNext ]
           _ eq_refl).
Defined.

(** ** Decisions screen: the disabled framework cards *)

Section DisabledFacts.
Import JSString Decisions.

Lemma press_disabled (st : State) (i : nat) :
  selectedFramework st = None -> blank (decision st) ->
  step st (PressFramework i) = st.
Proof.
  intros Ef Hb. apply cardDisabled_blank in Hb.
  unfold step, dispatch. rewrite Ef, Hb.
  assert (E : match frameworks !! i with Some _ => st | None => st end = st)
    by (destruct (frameworks !! i); reflexivity).
  rewrite E. unfold afterRender. rewrite Ef. simpl. rewrite Z.eqb_refl. reflexivity.
Qed.

Lemma step_keeps_blank (st : State) (ev : Event) :
  selectedFramework st = None -> blank (decision st) -> keepsBlank ev ->
  selectedFramework (step st ev) = None /\ blank (decision (step st ev)).
Proof.
  intros Ef Hb Hev. unfold step.
  destruct (afterRender_cells st (dispatch ev st)) as (Hd & Hf & _).
  rewrite Hd, Hf. clear Hd Hf.
  destruct ev; unfold dispatch; rewrite Ef; try (split; assumption).
  (* only PressFramework is left: a typed decision is blank by [Hev] *)
  - apply cardDisabled_blank in Hb as Hdis. rewrite Hdis.
    destruct (frameworks !! i); split; assumption.
Qed.

End DisabledFacts.

(** C10. In the decisions screen, starting from any state with no
    framework selected and a decision that is empty or white space only,
    and as long as the user types no decision with a character that is not
    white space, every framework card stays disabled, pressing any card
    leaves the state as it is, and no framework gets selected: the step
    flow does not start. *)
Theorem blank_decision_blocks_selection (st : Decisions.State) (evs : list Decisions.Event) :
  Decisions.selectedFramework st = None ->
  JSString.blank (Decisions.decision st) ->
  Forall Decisions.keepsBlank evs ->
  let st' := Decisions.run evs st in
  Decisions.cardDisabled st' = true
  /\ Decisions.selectedFramework st' = None
  /\ (forall i, Decisions.step st' (Decisions.PressFramework i) = st').
Proof.
  intros Ef Hb Hevs. cbv zeta.
  assert (H : Decisions.selectedFramework (Decisions.run evs st) = None
              /\ JSString.blank (Decisions.decision (Decisions.run evs st))).
  { revert st Ef Hb. induction Hevs as [|ev evs Hev _ IH]; intros st Ef Hb.
    - split; assumption.
    - simpl. destruct (step_keeps_blank st ev Ef Hb Hev) as (Ef' & Hb').
      apply IH; assumption. }
  destruct H as (Ef' & Hb').
  split; [apply cardDisabled_blank; exact Hb'|].
  split; [exact Ef'|].
  intros i. apply press_disabled; assumption.
Qed.

(** C10 on the mounted screen, where the user types two spaces and a tab
    and presses cards and buttons. *)
Lemma blank_decision_blocks_selection_witness :
  let st' := Decisions.run [ Decisions.PressFramework 0;
                             Decisions.ChangeDecision [32%N; 32%N; 9%N];
                             Decisions.PressFramework 3; Decisions.PressNext ]
                           Decisions.mounted in
  Decisions.cardDisabled st' = true
  /\ Decisions.selectedFramework st' = None
  /\ (forall i, Decisions.step st' (Decisions.PressFramework i) = st').
Proof.
  apply (blank_decision_blocks_selection Decisions.mounted
           [ Decisions.PressFramework 0;
             Decisions.ChangeDecision [32%N; 32%N; 9%N];
             Decisions.PressFramework 3; Decisions.PressNext ]).
  - reflexivity.
  - constructor.
  - repeat constructor.
Defined.

(** ** Wisdom screen: the daily quote *)

Section WisdomFacts.
Import Wisdom.



(** Rounding matters to the index: at the double nearest to 2/3 the
    product with 12 rounds up to 8, where the exact product is below. *)
Lemma randomIndex_rounds :
  let r := (6004799503160661 # 9007199254740992)%Q in
  Double.representable r
  /\ randomIndex r = 8
  /\ Qfloor (r * 12) = 7.
Proof. cbv zeta. split; [|split]; vm_compute; reflexivity. Qed.

End WisdomFacts.



(** A device on universal time at noon of Monday 3 November 2025: the
    screen mounts with Monday selected and the strip shows the dates of
    that week, 2 to 8. *)
Example calendar_of_a_monday :
  let c := HabitsScreen.utc 1762171200000 in
  HabitsScreen.selectedDay (HabitsScreen.mounted c) = 1
  /\ HabitsScreen.firstCalendar c
     = [ ("Sun", 2, false); ("Mon", 3, true); ("Tue", 4, false); ("Wed", 5, false);
         ("Thu", 6, false); ("Fri", 7, false); ("Sat", 8, false) ].
Proof. cbv zeta. split; vm_compute; reflexivity. Qed.


(** ** The boy character: drawn amplitudes and intervals *)

Section HandMovementFacts.
Import Reanimated Runtime Paxton.



End HandMovementFacts.

(** ** The owl mascot: fixed transitions, random timing *)

Section MascotFacts.
Import Reanimated Runtime Mascot.





End MascotFacts.




(** ** The boy character: cancellation *)

Section PaxtonFacts.
Import Reanimated Runtime Paxton.

(** *** Every action only adds to the log *)

Lemma grows_ret {A} (a : A) : grows (ret a : Eff A).
Proof. intros env w. exists []. cbn. rewrite app_nil_r. reflexivity. Qed.

Lemma grows_perform (op : Op SharedValue Callback) : grows (perform op).
Proof.
  intros env w. unfold perform. destruct (throws env op).
  - exists []. cbn. rewrite app_nil_r. reflexivity.
  - eexists. reflexivity.
Qed.

Lemma grows_build a : grows (build a : Eff unit).
Proof.
  intros env w. unfold build. exists [].
  destruct (throws env (Build a)); cbn; rewrite app_nil_r; reflexivity.
Qed.

Lemma grows_warn msg : grows (warn msg : Eff unit).
Proof. intros env w. eexists. reflexivity. Qed.

Lemma grows_setTimeout cb d : grows (setTimeout cb d : Eff unit).
Proof. intros env w. eexists. reflexivity. Qed.

Lemma grows_mathRandom : grows (mathRandom : Eff Q).
Proof. intros env w. exists []. cbn. rewrite app_nil_r. reflexivity. Qed.

Lemma grows_getMounted : grows (getMounted : Eff bool).
Proof. intros env w. exists []. cbn. rewrite app_nil_r. reflexivity. Qed.

Lemma grows_setMounted b : grows (setMounted b : Eff unit).
Proof. intros env w. exists []. cbn. rewrite app_nil_r. reflexivity. Qed.

Lemma grows_bind {A B} (m : Eff A) (k : A -> Eff B) :
  grows m -> (forall a, grows (k a)) -> grows (bind m k).
Proof.
  intros Hm Hk env w. unfold bind.
  destruct (Hm env w) as [l1 E1].
  destruct (m env w) as [w1 [a|]]; cbn in E1.
  - destruct (Hk a env w1) as [l2 E2]. exists (l1 ++ l2).
    rewrite E2, E1, app_assoc. reflexivity.
  - exists l1. exact E1.
Qed.

Lemma grows_tryCatch (body handler : Eff unit) :
  grows body -> grows handler -> grows (tryCatch body handler).
Proof.
  intros Hb Hh env w. unfold tryCatch.
  destruct (Hb env w) as [l1 E1].
  destruct (body env w) as [w1 [a|]]; cbn in E1.
  - exists l1. exact E1.
  - destruct (Hh env w1) as [l2 E2]. exists (l1 ++ l2).
    rewrite E2, E1, app_assoc. reflexivity.
Qed.

Lemma grows_if {A} (b : bool) (m1 m2 : Eff A) :
  grows m1 -> grows m2 -> grows (if b then m1 else m2).
Proof. destruct b; auto. Qed.

Create HintDb grows.
#[local] Hint Resolve grows_ret grows_perform grows_build grows_warn grows_setTimeout
  grows_mathRandom grows_getMounted grows_setMounted grows_tryCatch grows_if : grows.

Ltac grows_tac :=
  cbv zeta;
  repeat match goal with
         | |- grows (bind _ _) => apply grows_bind; [|intros ?; cbv zeta]
         | |- grows (tryCatch _ _) => apply grows_tryCatch
         | |- grows (if _ then _ else _) => apply grows_if
         | |- grows _ => solve [auto with grows]
         end.

Lemma grows_startAnimation sv a : grows (startAnimation sv a).
Proof. unfold startAnimation. grows_tac. Qed.

Lemma grows_startBuilt sv a : grows (startBuilt sv a).
Proof. unfold startBuilt, startAnimation. grows_tac. Qed.

Lemma grows_animate sv a : grows (animate sv a : Eff unit).
Proof. unfold animate. grows_tac. Qed.

#[local] Hint Resolve grows_startAnimation grows_startBuilt grows_animate : grows.

Lemma grows_blink b : grows (blink b).
Proof. unfold blink. grows_tac. Qed.

Lemma grows_randomizeArmMovements : grows randomizeArmMovements.
Proof. unfold randomizeArmMovements. grows_tac. Qed.

Lemma grows_happyWave : grows happyWave.
Proof. unfold happyWave. grows_tac. Qed.

Lemma grows_changeGaze : grows changeGaze.
Proof. unfold changeGaze. grows_tac. Qed.

#[local] Hint Resolve grows_blink grows_randomizeArmMovements grows_happyWave
  grows_changeGaze : grows.

Lemma grows_effect mood : grows (effect mood).
Proof.
  unfold effect, setupIdleBreathing, setupEyeBlink, setupHandMovements, moodAnimations.
  destruct mood; grows_tac.
Qed.

(** *** Symbolic execution of actions that only log *)

Lemma runsTo_as (m : Eff unit) (env : E) (w : W) l l' r :
  runsTo m env w l r -> l = l' -> runsTo m env w l' r.
Proof. intros H <-. exact H. Qed.

Lemma runsTo_ret (env : E) (w : W) : runsTo (ret tt) env w [] (Ok tt).
Proof. unfold runsTo. cbn. rewrite app_nil_r. auto. Qed.

Lemma runsTo_perform_ok (env : E) (w : W) op :
  throws env op = false -> runsTo (perform op) env w [op] (Ok tt).
Proof. intros T. unfold runsTo, perform. rewrite T. cbn. auto. Qed.

Lemma runsTo_perform_throw (env : E) (w : W) op :
  throws env op = true -> runsTo (perform op) env w [] Throw.
Proof. intros T. unfold runsTo, perform. rewrite T. cbn. rewrite app_nil_r. auto. Qed.

Lemma runsTo_build_ok (env : E) (w : W) a :
  throws env (Build a) = false -> runsTo (build a) env w [] (Ok tt).
Proof.
  intros H. unfold runsTo, build. rewrite H. cbn.
  rewrite app_nil_r. repeat split.
Qed.

Lemma runsTo_build_throw (env : E) (w : W) a :
  throws env (Build a) = true -> runsTo (build a) env w [] Throw.
Proof.
  intros H. unfold runsTo, build. rewrite H. cbn.
  rewrite app_nil_r. repeat split.
Qed.

Lemma runsTo_warn (env : E) (w : W) msg : runsTo (warn msg) env w [Warn msg] (Ok tt).
Proof. unfold runsTo. cbn. auto. Qed.

Lemma runsTo_setMounted (env : E) (w : W) b : runsTo (setMounted b) env w [] (Ok tt).
Proof. unfold runsTo. cbn. rewrite app_nil_r. auto. Qed.

Lemma runsTo_bind_ok (env : E) (w : W) (m k : Eff unit) l1 l2 r :
  runsTo m env w l1 (Ok tt) -> runsTo k env (fst (m env w)) l2 r ->
  runsTo (bind m (fun _ => k)) env w (l1 ++ l2) r.
Proof.
  unfold runsTo, bind. intros (L1 & N1 & R1) (L2 & N2 & R2).
  destruct (m env w) as [w1 r1]. cbn in *. subst r1.
  rewrite L2, N2, L1, N1, map_app, app_assoc. auto.
Qed.

Lemma runsTo_bind_throw (env : E) (w : W) (m k : Eff unit) l1 :
  runsTo m env w l1 Throw -> runsTo (bind m (fun _ => k)) env w l1 Throw.
Proof.
  unfold runsTo, bind. intros (L1 & N1 & R1).
  destruct (m env w) as [w1 r1]. cbn in *. subst r1. auto.
Qed.

Lemma runsTo_try_ok (env : E) (w : W) (body handler : Eff unit) l1 :
  runsTo body env w l1 (Ok tt) -> runsTo (tryCatch body handler) env w l1 (Ok tt).
Proof.
  unfold runsTo, tryCatch. intros (L1 & N1 & R1).
  destruct (body env w) as [w1 r1]. cbn in *. subst r1. auto.
Qed.

Lemma runsTo_try_catch (env : E) (w : W) (body handler : Eff unit) l1 l2 r :
  runsTo body env w l1 Throw -> runsTo handler env (fst (body env w)) l2 r ->
  runsTo (tryCatch body handler) env w (l1 ++ l2) r.
Proof.
  unfold runsTo, tryCatch. intros (L1 & N1 & R1) (L2 & N2 & R2).
  destruct (body env w) as [w1 r1]. cbn in *. subst r1.
  rewrite L2, N2, L1, N1, map_app, app_assoc. auto.
Qed.

Lemma runsTo_callOnPress_absent (env : E) (w : W) :
  onPressGiven env = false -> runsTo callOnPress env w [] (Ok tt).
Proof. intros G. unfold runsTo, callOnPress. rewrite G. apply runsTo_ret. Qed.

Lemma runsTo_callOnPress_ok (env : E) (w : W) :
  onPressGiven env = true -> throws env OnPress = false ->
  runsTo callOnPress env w [OnPress] (Ok tt).
Proof.
  intros G T. unfold runsTo, callOnPress. rewrite G.
  apply runsTo_perform_ok. exact T.
Qed.

Lemma runsTo_callOnPress_throw (env : E) (w : W) :
  onPressGiven env = true -> throws env OnPress = true ->
  runsTo callOnPress env w [] Throw.
Proof.
  intros G T. unfold runsTo, callOnPress. rewrite G.
  apply runsTo_perform_throw. exact T.
Qed.

Lemma ops_app (l1 l2 : list (Q * Op SharedValue Callback)) :
  ops (l1 ++ l2) = ops l1 ++ ops l2.
Proof. unfold ops. apply map_app. Qed.

(** The operations an action added, read off its [runsTo] fact. *)
Lemma added_of_runsTo (m : Eff unit) (env : E) (w : W) l r :
  runsTo m env w l r ->
  ops (drop (length (log w)) (log (fst (m env w)))) = l.
Proof.
  intros (L & _ & _). rewrite L, drop_app_length. unfold ops.
  rewrite map_map. cbn. apply map_id.
Qed.

End PaxtonFacts.

(** Run an action symbolically: each primitive succeeds or throws
    according to the facts about [throws] and [onPressGiven] at hand. *)
Ltac exec :=
  repeat
    (cbv beta;
     match goal with
     | |- Runtime.runsTo (Runtime.ret tt) _ _ _ _ => eapply runsTo_ret
     | |- Runtime.runsTo (Runtime.perform _) _ _ _ _ =>
         first [ eapply runsTo_perform_ok; solve [auto]
               | eapply runsTo_perform_throw; solve [auto] ]
     | |- Runtime.runsTo (Runtime.build _) _ _ _ _ =>
         first [ eapply runsTo_build_ok; solve [auto]
               | eapply runsTo_build_throw; solve [auto] ]
     | |- Runtime.runsTo (Runtime.warn _) _ _ _ _ => eapply runsTo_warn
     | |- Runtime.runsTo (Runtime.setMounted _) _ _ _ _ => eapply runsTo_setMounted
     | |- Runtime.runsTo Paxton.callOnPress _ _ _ _ =>
         first [ eapply runsTo_callOnPress_absent; solve [auto]
               | eapply runsTo_callOnPress_ok; solve [auto]
               | eapply runsTo_callOnPress_throw; solve [auto] ]
     | |- Runtime.runsTo (Paxton.startAnimation _ _) _ _ _ _ => unfold Paxton.startAnimation at 1
     | |- Runtime.runsTo (Paxton.startBuilt _ _) _ _ _ _ => unfold Paxton.startBuilt at 1
     | |- Runtime.runsTo (Runtime.bind _ _) _ _ _ _ =>
         first [ eapply runsTo_bind_ok; [solve [exec] | ]
               | eapply runsTo_bind_throw; solve [exec] ]
     | |- Runtime.runsTo (Runtime.tryCatch _ _) _ _ _ _ =>
         first [ eapply runsTo_try_ok; solve [exec]
               | eapply runsTo_try_catch; [solve [exec] | ] ]
     end).

Section CancellationFacts.
Import Reanimated Runtime Paxton.

Lemma cleanup_quiet (env : E) (w : W) :
  (forall op, throws env op = false) ->
  runsTo cleanup env w (map Cancel allValues) (Ok tt).
Proof.
  intros Q. unfold cleanup.
  eapply runsTo_as; [exec | reflexivity].
Qed.

Lemma performed_press_quiet (env : E) (w : W) :
  (forall op, throws env op = false) ->
  performed env w Press
  = [ Cancel jumpHeight; Cancel armWave; Cancel headTilt; Cancel floatY;
      Cancel jumpHeight; Assign jumpHeight jumpSequence;
      Cancel floatY; Assign floatY hatSequence;
      Cancel armWave; Assign armWave jumpArmSequence;
      Cancel headTilt; Assign headTilt jumpHeadSequence ]
    ++ (if onPressGiven env then [OnPress] else []).
Proof.
  intros Q. unfold performed, step.
  destruct (onPressGiven env) eqn:G;
    (erewrite added_of_runsTo by (unfold performJump; exec)); reflexivity.
Qed.

Lemma performed_unmount_quiet (env : E) (w : W) :
  (forall op, throws env op = false) ->
  performed env w Unmount = map Cancel allValues.
Proof.
  intros Q. unfold performed, step.
  apply (added_of_runsTo cleanup env w _ _ (cleanup_quiet env w Q)).
Qed.

Lemma performed_changeMood_quiet (env : E) (w : W) (mood : Mood) :
  (forall op, throws env op = false) ->
  exists rest, performed env w (ChangeMood mood) = map Cancel allValues ++ rest.
Proof.
  intros Q. unfold performed, step.
  destruct (grows_effect mood env (fst (cleanup env w))) as [l El].
  destruct (cleanup_quiet env w Q) as (Lc & _ & _).
  rewrite El, Lc. exists (ops l).
  rewrite <- app_assoc, drop_app_length, ops_app. reflexivity.
Qed.

Lemma startAnimation_quiet (env : E) (w : W) (sv : SharedValue) (a : Anim) :
  (forall op, throws env op = false) ->
  ops (drop (length (log w)) (log (fst (startAnimation sv a env w))))
  = [ Cancel sv; Assign sv a ].
Proof.
  intros Q. erewrite added_of_runsTo by exec; reflexivity.
Qed.

End CancellationFacts.

(** C4, as the spec has it, fails: unmounting is not the only thing that
    cancels an animation. An excited character waves its arm with an
    endless [withRepeat]; a press runs [performJump], which calls
    [cancelAnimation(armWave)] while the component stays mounted, and the
    arm then holds the jump's wave sequence instead. *)
Lemma press_cancels_running_animation :
  let env := Runtime.quiet (fun _ => 0%Q) in
  let w := Paxton.run env [Paxton.Mount Paxton.excited] in
  let running := Paxton.forever (Reanimated.timing 30 3700) in
  Paxton.holds Paxton.armWave (Runtime.ops (Runtime.log w)) None = Some running
  /\ Reanimated.endless running = true
  /\ In (Runtime.Cancel Paxton.armWave) (Paxton.performed env w Paxton.Press)
  /\ Runtime.isComponentMounted (Paxton.step env w Paxton.Press) = true
  /\ Paxton.holds Paxton.armWave
       (Runtime.ops (Runtime.log (Paxton.step env w Paxton.Press))) None
     = Some Paxton.jumpArmSequence.
Proof.
  cbv zeta. split; [vm_compute; reflexivity|].
  split; [reflexivity|].
  split; [vm_compute; tauto|].
  split; vm_compute; reflexivity.
Qed.

(** C4, amended. Animations are cancelled by the effect clean-up, which
    runs on unmount and also on every change of mood, and besides by
    explicit [cancelAnimation] calls: in a run where no primitive throws,
    a press cancels exactly [jumpHeight], [armWave], [headTilt] and
    [floatY]; [startAnimation] cancels the value it is about to restart;
    the clean-up cancels all ten shared values, on unmount and on a mood
    change alike. *)
Theorem cancellation_sources (env : Paxton.E) (w : Paxton.W) :
  (forall op, Runtime.throws env op = false) ->
  (forall sv, In (Runtime.Cancel sv) (Paxton.performed env w Paxton.Press)
              <-> In sv [Paxton.jumpHeight; Paxton.armWave; Paxton.headTilt; Paxton.floatY])
  /\ (forall sv a,
        Runtime.ops (drop (length (Runtime.log w))
                          (Runtime.log (fst (Paxton.startAnimation sv a env w))))
        = [Runtime.Cancel sv; Runtime.Assign sv a])
  /\ (forall sv, In (Runtime.Cancel sv) (Paxton.performed env w Paxton.Unmount))
  /\ (forall mood sv,
        In (Runtime.Cancel sv) (Paxton.performed env w (Paxton.ChangeMood mood))).
Proof.
  intros Q. split; [|split; [|split]].
  - intros sv. rewrite (performed_press_quiet env w Q).
    destruct (Runtime.onPressGiven env); destruct sv; cbn;
      intuition (discriminate || congruence).
  - intros sv a. apply startAnimation_quiet. exact Q.
  - intros sv. rewrite (performed_unmount_quiet env w Q).
    destruct sv; cbn; tauto.
  - intros mood sv.
    destruct (performed_changeMood_quiet env w mood Q) as [rest E].
    rewrite E. apply in_or_app. left. destruct sv; cbn; tauto.
Qed.

(** The amended C4 on an excited character that has just mounted. *)
Lemma cancellation_sources_witness :
  let env := Runtime.quiet (fun _ => 0%Q) in
  let w := Paxton.run env [Paxton.Mount Paxton.excited] in
  (forall sv, In (Runtime.Cancel sv) (Paxton.performed env w Paxton.Press)
              <-> In sv [Paxton.jumpHeight; Paxton.armWave; Paxton.headTilt; Paxton.floatY])
  /\ (forall sv a,
        Runtime.ops (drop (length (Runtime.log w))
                          (Runtime.log (fst (Paxton.startAnimation sv a env w))))
        = [Runtime.Cancel sv; Runtime.Assign sv a])
  /\ (forall sv, In (Runtime.Cancel sv) (Paxton.performed env w Paxton.Unmount))
  /\ (forall mood sv,
        In (Runtime.Cancel sv) (Paxton.performed env w (Paxton.ChangeMood mood))).
Proof.
  apply (cancellation_sources (Runtime.quiet (fun _ => 0%Q))
           (Paxton.run (Runtime.quiet (fun _ => 0%Q)) [Paxton.Mount Paxton.excited])).
  intros op. reflexivity.
Defined.

(** ** The boy character: what happens to a thrown error *)

Section ErrorFacts.
Import Reanimated Runtime Paxton.

(** [startAnimation] never lets an error out. *)
Lemma startAnimation_total (env : E) (w : W) (sv : SharedValue) (a : Anim) :
  snd (startAnimation sv a env w) = Ok tt.
Proof.
  unfold startAnimation, tryCatch, bind, perform, warn.
  destruct (throws env (Cancel sv)); [reflexivity|].
  destruct (throws env (Assign sv a)); reflexivity.
Qed.

(** What [startAnimation] adds to the log: the warning of its [catch]
    from the point where one of its two calls throws. *)
Lemma startAnimation_added (env : E) (w : W) (sv : SharedValue) (a : Anim) :
  ops (drop (length (log w)) (log (fst (startAnimation sv a env w))))
  = startAnimationOps env sv a.
Proof.
  unfold startAnimationOps.
  destruct (throws env (Cancel sv)) eqn:C;
    [|destruct (throws env (Assign sv a)) eqn:A];
    (erewrite added_of_runsTo by exec); reflexivity.
Qed.

Lemma startAnimation_warns (env : E) (sv : SharedValue) (a : Anim) :
  In (Warn "Animation error:") (startAnimationOps env sv a)
  <-> throws env (Cancel sv) = true \/ throws env (Assign sv a) = true.
Proof.
  unfold startAnimationOps.
  destruct (throws env (Cancel sv)); [cbn; tauto|].
  destruct (throws env (Assign sv a)); cbn; [tauto|].
  split; [intros [H|[H|[]]]; discriminate H | intros [H|H]; discriminate H].
Qed.

(** Settle one combination of throwing and non-throwing primitives:
    execute [performJump] and read the claims off the operations. *)
Ltac settle env w :=
  let H := fresh "Run" in
  eassert (H : runsTo performJump env w _ _) by (unfold performJump; exec);
  unfold performed, step, lastOps;
  rewrite (added_of_runsTo _ _ _ _ _ H);
  destruct H as (_ & _ & ->);
  cbn;
  repeat split; try reflexivity; try discriminate;
  try (intros; intro; cbn in *; intuition discriminate).

Lemma performJump_outcome (env : E) (w : W) :
  throws env (Assign jumpHeight (Num 0)) = false ->
  throws env (Assign armWave (Num 1)) = false ->
  throws env (Assign headTilt (Num 1)) = false ->
  snd (performJump env w) = Ok tt
  /\ (jumpFails env = true ->
        lastOps 4 (performed env w Press) = jumpRecovery
        /\ ~ In (Warn "Jump animation error:")
                (take (length (performed env w Press) - 4) (performed env w Press)))
  /\ (jumpFails env = false ->
        ~ In (Warn "Jump animation error:") (performed env w Press)).
Proof.
  intros R1 R2 R3. unfold jumpFails.
  destruct (throws env (Cancel jumpHeight)) eqn:C1; [settle env w|].
  destruct (throws env (Cancel armWave)) eqn:C2; [settle env w|].
  destruct (throws env (Cancel headTilt)) eqn:C3; [settle env w|].
  destruct (throws env (Cancel floatY)) eqn:C4; [settle env w|].
  destruct (throws env (Build jumpSequence)) eqn:B1; [settle env w|].
  destruct (throws env (Assign jumpHeight jumpSequence)) eqn:A1;
  (destruct (throws env (Build hatSequence)) eqn:B2; [settle env w|]);
  destruct (throws env (Assign floatY hatSequence)) eqn:A2;
  (destruct (throws env (Build jumpArmSequence)) eqn:B3; [settle env w|]);
  destruct (throws env (Assign armWave jumpArmSequence)) eqn:A3;
  (destruct (throws env (Build jumpHeadSequence)) eqn:B4; [settle env w|]);
  destruct (throws env (Assign headTilt jumpHeadSequence)) eqn:A4;
  (destruct (onPressGiven env) eqn:G;
   [destruct (throws env OnPress) eqn:P|]);
  settle env w.
Qed.

End ErrorFacts.

(** C6, as the spec has it, fails: the error handling goes beyond null
    guards. When the [onPress] callback throws, [performJump] does not
    let the error out: its [catch] branch writes a console warning and
    resets [jumpHeight] to 0 and [armWave] and [headTilt] to 1. *)
Lemma thrown_error_is_caught_and_reset :
  let outcome := Paxton.performJump Paxton.pressThrows Paxton.start in
  snd outcome = Runtime.Ok tt
  /\ Runtime.warnings (Runtime.log (fst outcome)) = ["Jump animation error:"]
  /\ Paxton.lastOps 4 (Runtime.ops (Runtime.log (fst outcome))) = Paxton.jumpRecovery
  /\ ~ (forall (env : Paxton.E) (w : Paxton.W),
          Runtime.warnings (Runtime.log (fst (Paxton.performJump env w)))
          = Runtime.warnings (Runtime.log w)).
Proof.
  cbv zeta. split; [vm_compute; reflexivity|].
  split; [vm_compute; reflexivity|].
  split; [vm_compute; reflexivity|].
  intros H. specialize (H Paxton.pressThrows Paxton.start).
  vm_compute in H. discriminate H.
Qed.

(** C6, amended. Besides null guards the program has catch-based
    recovery. [startAnimation] catches whatever its [cancelAnimation]
    call and its assignment throw: it never lets an error out, and it
    writes the console warning 'Animation error:' exactly when one of
    the two throws, in place of what it had left to do. [performJump]
    never lets an error out either, provided its three reset assignments
    succeed: when one of its four leading [cancelAnimation] calls, the
    builder calls of one of its four sequences or the [onPress] callback
    throws, its last four operations are the console warning
    'Jump animation error:' and the assignments [jumpHeight = 0],
    [armWave = 1], [headTilt = 1], and that warning occurs nowhere
    before; when none of them throws, it writes no such warning.
    [console.warn] itself is taken to return. *)
Theorem jump_errors_are_caught (env : Paxton.E) (w : Paxton.W) :
  Runtime.throws env (Runtime.Assign Paxton.jumpHeight (Reanimated.Num 0)) = false ->
  Runtime.throws env (Runtime.Assign Paxton.armWave (Reanimated.Num 1)) = false ->
  Runtime.throws env (Runtime.Assign Paxton.headTilt (Reanimated.Num 1)) = false ->
  let added := Paxton.performed env w Paxton.Press in
  (forall sv a w0,
     snd (Paxton.startAnimation sv a env w0) = Runtime.Ok tt
     /\ Runtime.ops (drop (length (Runtime.log w0))
                          (Runtime.log (fst (Paxton.startAnimation sv a env w0))))
        = Paxton.startAnimationOps env sv a
     /\ (In (Runtime.Warn "Animation error:") (Paxton.startAnimationOps env sv a)
         <-> Runtime.throws env (Runtime.Cancel sv) = true
             \/ Runtime.throws env (Runtime.Assign sv a) = true))
  /\ snd (Paxton.performJump env w) = Runtime.Ok tt
  /\ (Paxton.jumpFails env = true ->
        Paxton.lastOps 4 added = Paxton.jumpRecovery
        /\ ~ In (Runtime.Warn "Jump animation error:") (take (length added - 4) added))
  /\ (Paxton.jumpFails env = false ->
        ~ In (Runtime.Warn "Jump animation error:") added).
Proof.
  intros R1 R2 R3. cbv zeta.
  split.
  - intros sv a w0. split; [apply startAnimation_total|].
    split; [apply startAnimation_added | apply startAnimation_warns].
  - exact (performJump_outcome env w R1 R2 R3).
Qed.

(** The amended C6 on a freshly created character whose [onPress]
    callback throws. *)
Lemma jump_errors_are_caught_witness :
  let added := Paxton.performed Paxton.pressThrows Paxton.start Paxton.Press in
  (forall sv a w0,
     snd (Paxton.startAnimation sv a Paxton.pressThrows w0) = Runtime.Ok tt
     /\ Runtime.ops (drop (length (Runtime.log w0))
                          (Runtime.log (fst (Paxton.startAnimation sv a Paxton.pressThrows w0))))
        = Paxton.startAnimationOps Paxton.pressThrows sv a
     /\ (In (Runtime.Warn "Animation error:")
            (Paxton.startAnimationOps Paxton.pressThrows sv a)
         <-> Runtime.throws Paxton.pressThrows (Runtime.Cancel sv) = true
             \/ Runtime.throws Paxton.pressThrows (Runtime.Assign sv a) = true))
  /\ snd (Paxton.performJump Paxton.pressThrows Paxton.start) = Runtime.Ok tt
  /\ (Paxton.jumpFails Paxton.pressThrows = true ->
        Paxton.lastOps 4 added = Paxton.jumpRecovery
        /\ ~ In (Runtime.Warn "Jump animation error:") (take (length added - 4) added))
  /\ (Paxton.jumpFails Paxton.pressThrows = false ->
        ~ In (Runtime.Warn "Jump animation error:") added).
Proof.
  apply (jump_errors_are_caught Paxton.pressThrows Paxton.start); reflexivity.
Defined.

(** A builder call that throws inside [performJump] reaches its [catch]
    as well: with [withSequence] failing on four steps, which is the arm
    sequence, the jump and hat animations have started, and the press
    ends with the warning and the three resets. *)
Example builder_error_is_caught :
  let env : Paxton.E :=
    {| Runtime.random := fun _ => 0%Q;
       Runtime.throws := fun op =>
         match op with
         | Runtime.Build (Reanimated.withSequence steps) => Nat.eqb (length steps) 4
         | _ => false
         end;
       Runtime.onPressGiven := false |} in
  snd (Paxton.performJump env Paxton.start) = Runtime.Ok tt
  /\ Paxton.performed env Paxton.start Paxton.Press
     = [ Runtime.Cancel Paxton.jumpHeight; Runtime.Cancel Paxton.armWave;
         Runtime.Cancel Paxton.headTilt; Runtime.Cancel Paxton.floatY;
         Runtime.Cancel Paxton.jumpHeight;
         Runtime.Assign Paxton.jumpHeight Paxton.jumpSequence;
         Runtime.Cancel Paxton.floatY; Runtime.Assign Paxton.floatY Paxton.hatSequence ]
       ++ Paxton.jumpRecovery.
Proof. cbv zeta. split; vm_compute; reflexivity. Qed.

(** ** The object store: the literals are never written *)

Section StoreFacts.
Import JSString Store.

Lemma alloc_extends (o : Obj) (h : Heap) : h `prefix_of` fst (alloc o h).
Proof. exists [o]. reflexivity. Qed.

Lemma mapElems_extends (f : Val -> Heap -> Heap * Val) :
  (forall v h, h `prefix_of` fst (f v h)) ->
  forall elems h, h `prefix_of` fst (mapElems f elems h).
Proof.
  intros Hf elems. induction elems as [|v rest IH]; intros h; simpl.
  - reflexivity.
  - specialize (Hf v h). destruct (f v h) as [h1 v'].
    specialize (IH h1). destruct (mapElems f rest h1) as [h2 vs].
    simpl in *. etrans; eassumption.
Qed.

Lemma mapCell_extends (f : Val -> Heap -> Heap * Val) (prev : Val) (h : Heap) :
  (forall v h0, h0 `prefix_of` fst (f v h0)) ->
  h `prefix_of` fst (mapCell f prev h).
Proof.
  intros Hf. unfold mapCell.
  destruct prev as [| | |a| |]; try reflexivity.
  destruct (h !! a) as [[props|elems]|]; try reflexivity.
  pose proof (mapElems_extends f Hf elems h) as H1.
  destruct (mapElems f elems h) as [h1 elems']. simpl in *.
  etrans; [exact H1|]. apply prefix_app_r. reflexivity.
Qed.

Lemma toggleHabit_extends (id : Z) (v : Val) (h : Heap) :
  h `prefix_of` fst (toggleHabit id v h).
Proof.
  unfold toggleHabit.
  destruct v as [| | |l| |]; try reflexivity.
  destruct (h !! l) as [[props|elems]|]; try reflexivity.
  destruct (strictEq _ _); [|reflexivity].
  apply alloc_extends.
Qed.

Lemma togglePref_extends (id : Z) (v : Val) (h : Heap) :
  h `prefix_of` fst (togglePref id v h).
Proof.
  unfold togglePref.
  destruct v as [| | |l| |]; try reflexivity.
  destruct (h !! l) as [[props|elems]|]; try reflexivity.
  destruct (strictEq _ _); [|reflexivity].
  apply alloc_extends.
Qed.

Lemma toggleSettingCell_extends (setting : string) (prev : Val) (h : Heap) :
  h `prefix_of` fst (toggleSettingCell setting prev h).
Proof.
  unfold toggleSettingCell.
  destruct prev as [| | |l| |]; try reflexivity.
  destruct (h !! l) as [[props|elems]|]; try reflexivity.
  apply alloc_extends.
Qed.

Lemma appendCell_extends (prev v : Val) (h : Heap) :
  h `prefix_of` fst (appendCell prev v h).
Proof.
  unfold appendCell.
  destruct prev as [| | |a| |]; try reflexivity.
  destruct (h !! a) as [[props|elems]|]; try reflexivity.
  apply alloc_extends.
Qed.

(** One event leaves every existing object in place. *)
Lemma step_extends (s : Heap * Cells) (ev : Event) : fst s `prefix_of` fst (step s ev).
Proof.
  destruct s as [h c]. unfold step. destruct ev.
  - pose proof (mapCell_extends (toggleHabit id) (habits c) h (toggleHabit_extends id)) as H.
    destruct (mapCell _ _ _). exact H.
  - pose proof (mapCell_extends (togglePref id) (preferences c) h (togglePref_extends id)) as H.
    destruct (mapCell _ _ _). exact H.
  - pose proof (toggleSettingCell_extends setting (settings c) h) as H.
    destruct (toggleSettingCell _ _ _). exact H.
  - apply alloc_extends.
  - pose proof (appendCell_extends (responses c) (VStr response) h) as H.
    destruct (appendCell _ _ _). exact H.
  - apply alloc_extends.
  - apply alloc_extends.
  - reflexivity.
Qed.

Lemma fold_extends (evs : list Event) (s : Heap * Cells) :
  fst s `prefix_of` fst (fold_left step evs s).
Proof.
  revert s. induction evs as [|ev evs IH]; intros s; simpl.
  - reflexivity.
  - etrans; [apply step_extends | apply IH].
Qed.

Lemma firstRender_extends : moduleHeap `prefix_of` fst firstRender.
Proof.
  cbv beta iota zeta delta [firstRender alloc fst].
  rewrite <- app_assoc. eexists. reflexivity.
Qed.

Lemma run_extends (evs : list Event) : moduleHeap `prefix_of` fst (run evs).
Proof.
  unfold run. etrans; [apply firstRender_extends | apply fold_extends].
Qed.

(** Reading typed data is stable under extension of the store. *)
Lemma readHabit_extends (h h' : Heap) (v : Val) (x : HabitView) :
  h `prefix_of` h' -> readHabit h v = Some x -> readHabit h' v = Some x.
Proof.
  intros Hp.
  destruct v as [| | |l| |]; try discriminate.
  unfold readHabit.
  destruct (h !! l) as [o|] eqn:E; [|discriminate].
  rewrite (prefix_lookup_Some _ _ _ _ E Hp). trivial.
Qed.

Lemma readHabits_extends (h h' : Heap) (v : Val) (xs : list HabitView) :
  h `prefix_of` h' -> readHabits h v = Some xs -> readHabits h' v = Some xs.
Proof.
  intros Hp.
  destruct v as [| | |a| |]; try discriminate.
  unfold readHabits.
  destruct (h !! a) as [o|] eqn:E; [|discriminate].
  rewrite (prefix_lookup_Some _ _ _ _ E Hp).
  destruct o as [props|elems]; [discriminate|].
  rewrite !mapM_Some. apply List.Forall2_impl.
  intros v0 x0 Hx. eapply readHabit_extends; eassumption.
Qed.

Lemma initialHabits_in_moduleHeap :
  readHabits moduleHeap (VRef (initialHabits globals))
  = Some (map viewOf Habits.initialHabits).
Proof. vm_compute. reflexivity. Qed.

End StoreFacts.

(** C7. Whatever sequence of events the handlers receive, every object
    the module-level literals created ([initialHabits], [frameworks],
    [philosophers], [philosophicalPreferences], [profileData] and the
    objects and arrays inside them) is still in the store where it was
    and as it was: the store has only grown. In particular the array
    [initialHabits] still reads as the four literal habits. *)
Theorem literals_never_mutated (evs : list Store.Event) :
  let h := fst (Store.run evs) in
  (exists fresh, h = Store.moduleHeap ++ fresh)
  /\ (forall (l : Store.loc) (o : Store.Obj),
        Store.moduleHeap !! l = Some o -> h !! l = Some o)
  /\ Store.readHabits h (Store.VRef (Store.initialHabits Store.globals))
     = Some (map Store.viewOf Habits.initialHabits).
Proof.
  cbv zeta. pose proof (run_extends evs) as Hp.
  split; [exact Hp|]. split.
  - intros l o E. exact (prefix_lookup_Some _ _ _ _ E Hp).
  - eapply readHabits_extends; [exact Hp|]. apply initialHabits_in_moduleHeap.
Qed.

(** The store model can tell a mutation: assigning [completed] on the
    first literal habit would change the object at its address. *)
Lemma assignment_would_show :
  Store.assignProp 0 "completed" (Store.VBool true) Store.moduleHeap !! 0%nat
  <> Store.moduleHeap !! 0%nat.
Proof. vm_compute. discriminate. Qed.

(** ** The object store agrees with the functional model of the habits *)

Section StoreRefinement.
Import JSString Store.

Lemma getProp_setProp (key key' : string) (v : Val) (props : list (string * Val)) :
  getProp key (setProp key' v props)
  = if String.eqb key' key then v else getProp key props.
Proof.
  induction props as [|[k0 v0] rest IH]; simpl.
  - reflexivity.
  - destruct (String.eqb k0 key') eqn:E0; simpl.
    + apply String.eqb_eq in E0. subst k0.
      destruct (String.eqb key' key); reflexivity.
    + rewrite IH. destruct (String.eqb k0 key) eqn:E1; [|reflexivity].
      apply String.eqb_eq in E1. subst k0.
      rewrite String.eqb_sym, E0. reflexivity.
Qed.

(** What a successful [readHabit] says about the object. *)
Lemma readHabit_inv (h : list Obj) (v : Val) (x : HabitView) :
  readHabit h v = Some x ->
  exists l props,
    v = VRef l /\ h !! l = Some (Object props)
    /\ getProp "id" props = VNum (v_id x)
    /\ getProp "name" props = VStr (v_name x)
    /\ getProp "description" props = VStr (v_description x)
    /\ getProp "philosophy" props = VStr (v_philosophy x)
    /\ getProp "streak" props = VNum (v_streak x)
    /\ getProp "completed" props = VBool (v_completed x)
    /\ getProp "color" props = VStr (v_color x).
Proof.
  destruct v as [| | |l| |]; try discriminate. unfold readHabit.
  destruct (h !! l) as [[props|elems]|] eqn:E; try discriminate.
  destruct (getProp "id" props) eqn:E1; try discriminate.
  destruct (getProp "name" props) eqn:E2; try discriminate.
  destruct (getProp "description" props) eqn:E3; try discriminate.
  destruct (getProp "philosophy" props) eqn:E4; try discriminate.
  destruct (getProp "streak" props) eqn:E5; try discriminate.
  destruct (getProp "completed" props) eqn:E6; try discriminate.
  destruct (getProp "color" props) eqn:E7; try discriminate.
  simpl. intros [= <-]. exists l, props. simpl. repeat split; try reflexivity; assumption.
Qed.

(** The [map] callback on one element: the store grows and the element
    reads as the toggled habit, or as before when the id differs. *)
Lemma toggleHabit_reads (id : Z) (h : list Obj) (v : Val) (x : Habits.Habit) :
  readHabit h v = Some (viewOf x) ->
  h `prefix_of` fst (toggleHabit id v h)
  /\ readHabit (fst (toggleHabit id v h)) (snd (toggleHabit id v h))
     = Some (viewOf (if Habits.id x =? id then Habits.toggled x else x)).
Proof.
  intros R. split; [apply toggleHabit_extends|].
  destruct (readHabit_inv h v _ R) as (l & props & -> & E & Pid & Pn & Pd & Pp & Ps & Pc & Pk).
  unfold toggleHabit. rewrite E, Pid, Ps, Pc. cbn [strictEq viewOf v_id].
  destruct (Habits.id x =? id); cbn [fst snd alloc]; [|exact R].
  unfold readHabit. rewrite list_lookup_middle by reflexivity.
  rewrite !getProp_setProp. cbn [String.eqb Ascii.eqb Bool.eqb].
  rewrite Pid, Pn, Pd, Pp, Pk. reflexivity.
Qed.

Lemma mapElems_toggle_reads (id : Z) (elems : list Val) (hs : list Habits.Habit)
    (h : list Obj) :
  Forall2 (fun v x => readHabit h v = Some (viewOf x)) elems hs ->
  h `prefix_of` fst (mapElems (toggleHabit id) elems h)
  /\ Forall2 (fun v x => readHabit (fst (mapElems (toggleHabit id) elems h)) v
                         = Some (viewOf x))
             (snd (mapElems (toggleHabit id) elems h))
             (Habits.toggleHabitCompletion id hs).
Proof.
  intros F. revert h F. revert hs.
  induction elems as [|v rest IH]; intros hs h F.
  - inversion F; subst. simpl. split; [reflexivity | constructor].
  - inversion F as [|v0 x l1 hs' Rv Frest]; subst. simpl.
    destruct (toggleHabit_reads id h v x Rv) as [P1 R1].
    destruct (toggleHabit id v h) as [h1 v'] eqn:Et. simpl in P1, R1.
    assert (F1 : Forall2 (fun v x => readHabit h1 v = Some (viewOf x)) rest hs').
    { revert Frest. apply List.Forall2_impl. intros a b Hab.
      eapply readHabit_extends; eassumption. }
    destruct (IH hs' h1 F1) as [P2 R2].
    destruct (mapElems (toggleHabit id) rest h1) as [h2 vs] eqn:Em. simpl in *.
    split; [etrans; eassumption|].
    constructor; [|exact R2].
    eapply readHabit_extends; eassumption.
Qed.

(** The handler on the store computes what [Habits.toggleHabitCompletion]
    computes on lists. *)
Lemma store_toggle_refines (id : Z) (h : list Obj) (c : Cells) (hs : list Habits.Habit) :
  readHabits h (habits c) = Some (map viewOf hs) ->
  let s' := step (h, c) (ToggleHabitCompletion id) in
  readHabits (fst s') (habits (snd s'))
  = Some (map viewOf (Habits.toggleHabitCompletion id hs)).
Proof.
  intros R. cbv zeta. unfold step, mapCell.
  destruct (habits c) as [| | |a| |] eqn:Ec; try discriminate.
  unfold readHabits in R.
  destruct (h !! a) as [[props|elems]|] eqn:Ea; try discriminate.
  apply mapM_Some in R. apply Forall2_fmap_r in R.
  destruct (mapElems_toggle_reads id elems hs h R) as [P1 R1].
  destruct (mapElems (toggleHabit id) elems h) as [h1 elems'] eqn:Em.
  cbn [fst snd alloc habits] in *.
  unfold readHabits. rewrite list_lookup_middle by reflexivity.
  apply mapM_Some. apply Forall2_fmap_r.
  revert R1. apply List.Forall2_impl. intros v x Hv.
  eapply readHabit_extends; [|exact Hv]. apply prefix_app_r. reflexivity.
Qed.

End StoreRefinement.

(* ===================================================================== *)
(** * Further properties of the screens *)
(* ===================================================================== *)

(** ** Home screen: the mood cycle *)

(** X1. Pressing the home-screen mascot steps through the four moods in a
    cycle: [changeMascotMood] always yields a mood, four presses lead back
    to the mood one started from, fewer presses never do, and every mood
    is reached within three presses. *)
Theorem mascot_mood_cycles (m : Home.Mood) :
  Home.presses 4 m = Some m
  /\ (forall k, (0 < k < 4)%nat -> exists m', Home.presses k m = Some m' /\ m' <> m)
  /\ (forall m', exists k, (k < 4)%nat /\ Home.presses k m = Some m').
Proof.
  split; [destruct m; reflexivity|]. split.
  - intros k Hk.
    assert (Ek : k = 1%nat \/ k = 2%nat \/ k = 3%nat) by lia.
    destruct Ek as [-> | [-> | ->]]; destruct m; eexists; (split; [reflexivity | discriminate]).
  - intros m'.
    destruct m, m';
      first [ exists 0%nat; split; [lia | reflexivity]
            | exists 1%nat; split; [lia | reflexivity]
            | exists 2%nat; split; [lia | reflexivity]
            | exists 3%nat; split; [lia | reflexivity] ].
Qed.

(** ** Habits: how toggles behave on a list *)

Section MoreHabitsFacts.
Import Habits.

Lemma toggled_ne (h : Habit) : toggled h <> h.
Proof.
  intros E. apply (f_equal completed) in E. simpl in E.
  destruct (completed h); discriminate.
Qed.

Lemma toggle_absent (id0 : Z) (habits : list Habit) :
  Forall (fun h => id h <> id0) habits -> toggleHabitCompletion id0 habits = habits.
Proof.
  induction 1 as [|h hs Hh _ IH]; simpl; [reflexivity|].
  apply Z.eqb_neq in Hh. rewrite Hh. f_equal. exact IH.
Qed.

Lemma completedCount_cons (h : Habit) (hs : list Habit) :
  completedCount (h :: hs)
  = ((if completed h then 1 else 0) + completedCount hs)%nat.
Proof.
  unfold completedCount. rewrite filter_cons.
  destruct (decide (completed h = true)) as [E|E].
  - rewrite E. reflexivity.
  - destruct (completed h); [congruence | reflexivity].
Qed.

Lemma completedCount_le (hs : list Habit) : (completedCount hs <= length hs)%nat.
Proof.
  induction hs as [|h hs IH]; [apply Nat.le_refl|].
  rewrite completedCount_cons. simpl. destruct (completed h); lia.
Qed.

Lemma completedCount_all (hs : list Habit) :
  completedCount hs = length hs <-> Forall (fun h => completed h = true) hs.
Proof.
  induction hs as [|h hs IH]; [split; [constructor | reflexivity]|].
  rewrite completedCount_cons. pose proof (completedCount_le hs).
  simpl. destruct (completed h) eqn:E; split; intros H'.
  - constructor; [exact E | apply IH; lia].
  - inversion H' as [|? ? _ Hrest]; subst. apply IH in Hrest. lia.
  - lia.
  - inversion H'; congruence.
Qed.

Lemma completedCount_none (hs : list Habit) :
  completedCount hs = 0%nat <-> Forall (fun h => completed h = false) hs.
Proof.
  induction hs as [|h hs IH]; [split; [constructor | reflexivity]|].
  rewrite completedCount_cons.
  destruct (completed h) eqn:E; split; intros H'.
  - lia.
  - inversion H'; congruence.
  - constructor; [exact E | apply IH; lia].
  - inversion H' as [|? ? _ Hrest]; subst. apply IH in Hrest. lia.
Qed.

Lemma toggled_base (h : Habit) :
  exactBase h -> streakBase (toggled h) = streakBase h /\ exactBase (toggled h).
Proof.
  unfold exactBase, streakBase, toggled.
  cbn [streak completed]. intros H.
  destruct (completed h); cbn [negb] in *.
  - rewrite subZ_exact by lia. cbn [negb]. lia.
  - rewrite addZ_exact by lia. cbn [negb]. lia.
Qed.

Lemma safe_exactBase (h : Habit) : safeStreak h -> exactBase h.
Proof. unfold safeStreak, exactBase, streakBase. destruct (completed h); lia. Qed.

Lemma toggle_exactBase (i : Z) (habits : list Habit) :
  Forall exactBase habits -> Forall exactBase (toggleHabitCompletion i habits).
Proof.
  intros H. unfold toggleHabitCompletion.
  induction H as [|h hs Hh _ IH]; simpl; constructor; [|exact IH].
  destruct (id h =? i); [apply toggled_base; exact Hh | exact Hh].
Qed.

(** A percentage [a / b * 100] with [0 <= a <= b], [0 < b]. *)
Lemma percentage_bounds (a b : Z) :
  0 <= a <= b -> 0 < b ->
  let p := (inject_Z a / inject_Z b * 100)%Q in
  (0 <= p)%Q /\ (p <= 100)%Q /\ ((p == 100)%Q <-> a = b) /\ ((p == 0)%Q <-> a = 0).
Proof.
  intros Ha Hb. destruct b as [|b|b]; try lia.
  cbv zeta. unfold Qle, Qeq, Qdiv, Qmult, Qinv, inject_Z. simpl.
  repeat split; intros; nia.
Qed.

End MoreHabitsFacts.

(** X2. A call [toggleHabitCompletion(id)] leaves the list exactly as it
    was if and only if no habit has that id: an unknown id is a silent
    no-op, and a known one always changes something. *)
Theorem toggle_unknown_id_is_noop (id0 : Z) (habits : list Habits.Habit) :
  Habits.toggleHabitCompletion id0 habits = habits
  <-> Forall (fun h => Habits.id h <> id0) habits.
Proof.
  split; [|apply toggle_absent].
  induction habits as [|h hs IH]; simpl; intros E; [constructor|].
  injection E as Eh Ehs. constructor; [|apply IH; exact Ehs].
  intros Hid. apply Z.eqb_eq in Hid. rewrite Hid in Eh.
  exact (toggled_ne h Eh).
Qed.

(** X3. Toggles commute: toggling two ids gives the same list in either
    order, whether or not the ids occur and whether or not they are
    equal. *)
Theorem toggles_commute (a b : Z) (habits : list Habits.Habit) :
  Habits.toggleHabitCompletion a (Habits.toggleHabitCompletion b habits)
  = Habits.toggleHabitCompletion b (Habits.toggleHabitCompletion a habits).
Proof.
  induction habits as [|h hs IH]; simpl; [reflexivity|].
  f_equal; [|exact IH].
  destruct (Habits.id h =? b) eqn:Eb, (Habits.id h =? a) eqn:Ea; simpl;
    rewrite ?Ea, ?Eb; reflexivity.
Qed.

(** X4. On a list whose streaks are safe integers, whatever sequence of
    toggles a session makes, the list keeps its length and every habit
    keeps its id, name, description, philosophy and colour; its streak
    always equals the streak it started with, corrected by one for the
    change of its completed flag, so a streak never drifts by more than
    one from its initial value. *)
Theorem toggles_keep_streak_base (ids : list Z) (habits : list Habits.Habit) :
  Forall Habits.safeStreak habits ->
  Forall2 (fun h h' =>
             Habits.id h' = Habits.id h
             /\ Habits.name h' = Habits.name h
             /\ Habits.description h' = Habits.description h
             /\ Habits.philosophy h' = Habits.philosophy h
             /\ Habits.color h' = Habits.color h
             /\ Habits.streak h' - (if Habits.completed h' then 1 else 0)
                = Habits.streak h - (if Habits.completed h then 1 else 0))
          habits (Habits.toggleAll ids habits).
Proof.
  intros Safe.
  assert (Ex : Forall Habits.exactBase habits).
  { revert Safe. apply List.Forall_impl. exact safe_exactBase. }
  clear Safe. unfold Habits.toggleAll. revert habits Ex.
  induction ids as [|i ids IH]; intros habits Ex; simpl.
  - clear Ex. induction habits; constructor; auto. repeat split.
  - specialize (IH (Habits.toggleHabitCompletion i habits) (toggle_exactBase i habits Ex)).
    remember (fold_left _ ids _) as final eqn:Ef. clear Ef.
    revert final IH. induction Ex as [|h hs Hh _ IHh]; intros final F; simpl in F.
    + inversion F; constructor.
    + inversion F as [|x y l1 l2 Hxy Frest]; subst. constructor; [|apply IHh; exact Frest].
      destruct Hxy as (Hi & Hn & Hd & Hp & Hc & Hs).
      destruct (Habits.id h =? i); [|repeat split; assumption].
      destruct (toggled_base h Hh) as [Hb _]. unfold Habits.streakBase in Hb.
      simpl in Hi, Hn, Hd, Hp, Hc. repeat split; try assumption. lia.
Qed.

(** X4 on the literal habits after Journaling is toggled twice and
    Meditation once. *)
Lemma toggles_keep_streak_base_witness :
  Forall Habits.safeStreak Habits.initialHabits
  /\ Forall2 (fun h h' =>
                Habits.id h' = Habits.id h
                /\ Habits.name h' = Habits.name h
                /\ Habits.description h' = Habits.description h
                /\ Habits.philosophy h' = Habits.philosophy h
                /\ Habits.color h' = Habits.color h
                /\ Habits.streak h' - (if Habits.completed h' then 1 else 0)
                   = Habits.streak h - (if Habits.completed h then 1 else 0))
             Habits.initialHabits (Habits.toggleAll [2; 2; 1] Habits.initialHabits).
Proof.
  assert (S : Forall Habits.safeStreak Habits.initialHabits)
    by (repeat constructor).
  split; [exact S|].
  exact (toggles_keep_streak_base [2; 2; 1] Habits.initialHabits S).
Defined.

(** X5. When ids are unique, toggling a habit that is in the list moves
    the number of completed habits by exactly one: up when the habit was
    not completed, down when it was. *)
Theorem toggle_moves_count_by_one (id0 : Z) (habits : list Habits.Habit) (h : Habits.Habit) :
  NoDup (map Habits.id habits) -> In h habits -> Habits.id h = id0 ->
  Z.of_nat (Habits.completedCount (Habits.toggleHabitCompletion id0 habits))
  = Z.of_nat (Habits.completedCount habits) + (if Habits.completed h then -1 else 1).
Proof.
  intros Hnd Hin Hid. induction habits as [|x rest IH]; [destruct Hin|].
  simpl in Hnd.
  assert (Hx : Habits.id x ∉ map Habits.id rest) by (inversion Hnd; assumption).
  assert (Hrest : NoDup (map Habits.id rest)) by (inversion Hnd; assumption).
  simpl. destruct Hin as [-> | Hin].
  - apply Z.eqb_eq in Hid as Hb. rewrite Hb.
    rewrite toggle_absent.
    + rewrite !completedCount_cons. simpl. destruct (Habits.completed h); simpl; lia.
    + apply Forall_forall. intros y Hy Ey. apply Hx.
      apply list_elem_of_In. apply in_map_iff. exists y. split; [congruence | exact Hy].
  - assert (Hne : Habits.id x <> id0).
    { intros Ex. apply Hx. apply list_elem_of_In. apply in_map_iff.
      exists h. split; [congruence | exact Hin]. }
    apply Z.eqb_neq in Hne. rewrite Hne.
    rewrite !completedCount_cons, Nat2Z.inj_add, Nat2Z.inj_add.
    rewrite (IH Hrest Hin). lia.
Qed.

(** X5 on the literal habits: completing Journaling raises the count from
    0 to 1. *)
Lemma toggle_moves_count_by_one_witness :
  Z.of_nat (Habits.completedCount (Habits.toggleHabitCompletion 2 Habits.initialHabits))
  = Z.of_nat (Habits.completedCount Habits.initialHabits) + 1.
Proof.
  apply (toggle_moves_count_by_one 2 Habits.initialHabits
           (Habits.mkHabit 2 "Journaling" "Evening reflection on daily events"
                           "Stoicism" 5 false "#D0A1DC")).
  - apply (bool_decide_unpack _). reflexivity.
  - right. left. reflexivity.
  - reflexivity.
Defined.

(** X6. [getCompletionPercentage] is not a number ([0 / 0]) exactly when
    there are no habits; otherwise it is a percentage between 0 and 100,
    equal to 100 exactly when every habit is completed and to 0 exactly
    when none is. *)
Theorem completion_percentage_range (habits : list Habits.Habit) :
  (Habits.getCompletionPercentage habits = None <-> habits = [])
  /\ (forall p, Habits.getCompletionPercentage habits = Some p ->
        (0 <= p)%Q /\ (p <= 100)%Q
        /\ ((p == 100)%Q <-> Forall (fun h => Habits.completed h = true) habits)
        /\ ((p == 0)%Q <-> Forall (fun h => Habits.completed h = false) habits)).
Proof.
  unfold Habits.getCompletionPercentage.
  destruct (Nat.eqb_spec (length habits) 0) as [E0|E0].
  - destruct habits; [|discriminate E0].
    split; [split; reflexivity | discriminate].
  - split; [split; [discriminate | intros ->; contradiction E0; reflexivity]|].
    intros p [= <-].
    pose proof (completedCount_le habits) as Hle.
    pose proof (completedCount_all habits) as Hall.
    pose proof (completedCount_none habits) as Hnone.
    destruct (percentage_bounds (Z.of_nat (Habits.completedCount habits))
                                (Z.of_nat (length habits)))
      as (P0 & P1 & P100 & Pz); [lia | lia |].
    split; [exact P0|]. split; [exact P1|]. split.
    + rewrite P100, <- Hall. lia.
    + rewrite Pz, <- Hnone. lia.
Qed.

(** ** Profile screen: preferences, settings and the avatar *)

(** X7. [togglePreference] behaves on preferences as the habit toggle on
    habits: it keeps the length of the list, flips [selected] of exactly
    the preferences whose id matches and leaves their id and name and
    every other preference as they were; applied twice with the same id
    it restores the list, and two toggles commute. *)
Theorem togglePreference_laws (a b : Z) (prefs : list Profile.PhilosophicalPreference) :
  length (Profile.togglePreference a prefs) = length prefs
  /\ (forall i p, prefs !! i = Some p ->
        exists p', Profile.togglePreference a prefs !! i = Some p'
          /\ Profile.id p' = Profile.id p
          /\ Profile.name p' = Profile.name p
          /\ Profile.selected p'
             = (if Profile.id p =? a then negb (Profile.selected p) else Profile.selected p))
  /\ Profile.togglePreference a (Profile.togglePreference a prefs) = prefs
  /\ Profile.togglePreference a (Profile.togglePreference b prefs)
     = Profile.togglePreference b (Profile.togglePreference a prefs).
Proof.
  split; [apply length_map|]. split; [|split].
  - intros i p Hi. unfold Profile.togglePreference.
    rewrite list_lookup_fmap, Hi. simpl. eexists. split; [reflexivity|].
    destruct (Profile.id p =? a); simpl; repeat split; reflexivity.
  - induction prefs as [|p ps IH]; simpl; [reflexivity|].
    f_equal; [|exact IH].
    destruct (Profile.id p =? a) eqn:E; simpl; rewrite E; [|reflexivity].
    destruct p as [i n s]. simpl. rewrite negb_involutive. reflexivity.
  - induction prefs as [|p ps IH]; simpl; [reflexivity|].
    f_equal; [|exact IH].
    destruct (Profile.id p =? b) eqn:Eb, (Profile.id p =? a) eqn:Ea; simpl;
      rewrite ?Ea, ?Eb; reflexivity.
Qed.

(** X8. [toggleSetting] reads and writes one key: afterwards that setting
    is the negation of what it was and every other setting is unchanged;
    toggling the same key twice restores the settings, and toggles of any
    two keys commute. *)
Theorem toggleSetting_laws (k k' : Profile.SettingKey) (s : Profile.AppSettings) :
  Profile.getSetting k (Profile.toggleSetting k s) = negb (Profile.getSetting k s)
  /\ (k <> k' -> Profile.getSetting k' (Profile.toggleSetting k s) = Profile.getSetting k' s)
  /\ Profile.toggleSetting k (Profile.toggleSetting k s) = s
  /\ Profile.toggleSetting k (Profile.toggleSetting k' s)
     = Profile.toggleSetting k' (Profile.toggleSetting k s).
Proof.
  destruct s as [d n r w y]. split; [|split; [|split]].
  - destruct k; reflexivity.
  - intros Hne. destruct k, k'; try reflexivity; contradiction Hne; reflexivity.
  - destruct k; unfold Profile.toggleSetting; simpl; rewrite negb_involutive; reflexivity.
  - destruct k, k'; reflexivity.
Qed.

Section AvatarFacts.
Import JSString ProfileAvatar.

Lemma split_nonempty (sep : N) (s : jsstring) : split sep s <> [].
Proof.
  destruct s as [|c rest]; simpl; [discriminate|].
  destruct (c =? sep)%N; [discriminate|].
  destruct (split sep rest); discriminate.
Qed.

Lemma split_app (sep : N) (a b : jsstring) :
  split sep (a ++ sep :: b) = split sep a ++ split sep b.
Proof.
  induction a as [|c a IH]; simpl.
  - rewrite N.eqb_refl. reflexivity.
  - destruct (c =? sep)%N; [rewrite IH; reflexivity|].
    rewrite IH. pose proof (split_nonempty sep a) as Hne.
    destruct (split sep a) as [|piece pieces]; [contradiction Hne; reflexivity|].
    reflexivity.
Qed.

Lemma split_word (sep : N) (w : jsstring) :
  Forall (fun c => c <> sep) w -> split sep w = [w].
Proof.
  induction 1 as [|c w Hc _ IH]; simpl; [reflexivity|].
  apply N.eqb_neq in Hc. rewrite Hc, IH. reflexivity.
Qed.

Lemma split_pieces (sep : N) (s : jsstring) :
  Forall (Forall (fun c => c <> sep)) (split sep s).
Proof.
  induction s as [|c s IH]; simpl; [repeat constructor|].
  destruct (c =? sep)%N eqn:E; [constructor; [constructor | exact IH]|].
  apply N.eqb_neq in E.
  destruct (split sep s) as [|piece pieces]; [repeat constructor; exact E|].
  inversion IH as [|? ? Hp Hps]; subst. constructor; [constructor; assumption | exact Hps].
Qed.

Lemma joinEmpty_app (x y : list (option N)) :
  joinEmpty (x ++ y) = joinEmpty x ++ joinEmpty y.
Proof.
  induction x as [|[c|] x IH]; simpl; [reflexivity | rewrite IH; reflexivity | exact IH].
Qed.

Lemma joinEmpty_heads (sep : N) (pieces : list jsstring) :
  Forall (Forall (fun c => c <> sep)) pieces ->
  Forall (fun c => c <> sep) (joinEmpty (map firstUnit pieces))
  /\ (length (joinEmpty (map firstUnit pieces)) <= length pieces)%nat.
Proof.
  induction 1 as [|piece pieces Hp _ [IH1 IH2]]; simpl; [split; [constructor | lia]|].
  destruct piece as [|c piece]; simpl; [split; [exact IH1 | lia]|].
  inversion Hp; subst. split; [constructor; assumption | lia].
Qed.

End AvatarFacts.

(** X9. The avatar text takes the first character of every non-empty
    word of the name: it works word by word
    ([initials(a + ' ' + b) = initials(a) + initials(b)]), on a name
    without a space it is the first character (nothing for the empty
    name, where [n[0]] is undefined), and it never contains a space nor
    more characters than the name has words. *)
Theorem initials_word_by_word :
  (forall a b, ProfileAvatar.initials (a ++ 32%N :: b)
               = ProfileAvatar.initials a ++ ProfileAvatar.initials b)
  /\ (forall w, Forall (fun c => c <> 32%N) w -> ProfileAvatar.initials w = take 1 w)
  /\ (forall name, Forall (fun c => c <> 32%N) (ProfileAvatar.initials name)
                   /\ (length (ProfileAvatar.initials name)
                       <= length (ProfileAvatar.split 32 name))%nat).
Proof.
  unfold ProfileAvatar.initials. split; [|split].
  - intros a b. rewrite split_app, map_app, joinEmpty_app. reflexivity.
  - intros w Hw. rewrite (split_word _ _ Hw). destruct w; reflexivity.
  - intros name. apply joinEmpty_heads, split_pieces.
Qed.

(** The avatar of the sample profile. *)
Example initials_of_sample_profile :
  ProfileAvatar.initials (JSString.lit "Alex Johnson") = JSString.lit "AJ".
Proof. reflexivity. Qed.

(** ** Decisions screen: selection, labels, results and the mascot *)

Section MoreDecisionsFacts.
Import JSString Decisions.

(** The effects leave the mascot's mood alone too. *)
Lemma afterRender_mood (prev next : State) :
  mascotMood (afterRender prev next) = mascotMood next.
Proof.
  unfold afterRender, stepEffect.
  destruct (sameFramework _ _ && _); [reflexivity|].
  destruct (selectedFramework next); reflexivity.
Qed.

(** The cells after an event are those the handler set. *)
Lemma step_cells (st : State) (ev : Event) :
  decision (step st ev) = decision (dispatch ev st)
  /\ selectedFramework (step st ev) = selectedFramework (dispatch ev st)
  /\ currentStep (step st ev) = currentStep (dispatch ev st)
  /\ responses (step st ev) = responses (dispatch ev st)
  /\ showResults (step st ev) = showResults (dispatch ev st)
  /\ inputText (step st ev) = inputText (dispatch ev st)
  /\ mascotMood (step st ev) = mascotMood (dispatch ev st).
Proof.
  unfold step.
  destruct (afterRender_cells st (dispatch ev st)) as (Hd & Hf & Hc & Hr & Hs & Hi).
  pose proof (afterRender_mood st (dispatch ev st)) as Hm.
  tauto.
Qed.

Lemma press_enabled (st : State) (i : nat) (f : Framework) :
  selectedFramework st = None -> ~ blank (decision st) -> frameworks !! i = Some f ->
  dispatch (PressFramework i) st = handleFrameworkSelect f st.
Proof.
  intros Ef Hnb Hi. unfold dispatch. rewrite Ef, Hi.
  destruct (cardDisabled st) eqn:Ed; [|reflexivity].
  apply cardDisabled_blank in Ed. contradiction.
Qed.

(** The mood tells whether the results are shown. *)
Lemma dispatch_mood (st : State) (ev : Event) :
  (showResults st = true <-> mascotMood st = meditating) ->
  (showResults (dispatch ev st) = true <-> mascotMood (dispatch ev st) = meditating).
Proof.
  set (P := fun s => showResults s = true <-> mascotMood s = meditating).
  change (P st -> P (dispatch ev st)).
  intros Inv. unfold dispatch.
  destruct (selectedFramework st) as [f|] eqn:Ef.
  - destruct ev; try exact Inv.
    + unfold P. simpl. split; discriminate.
    + destruct (showResults st); exact Inv.
    + destruct (showResults st) eqn:Es; [exact Inv|].
      unfold P in *. unfold handleNextStep. rewrite Ef.
      destruct (currentStep st <? stepsLength f - 1); simpl.
      * destruct (currentStep st =? 0); [rewrite Es; split; discriminate|].
        destruct (currentStep st =? stepsLength f - 2); [rewrite Es; split; discriminate|].
        exact Inv.
      * split; reflexivity.
    + destruct (showResults st); [unfold P; simpl; split; discriminate | exact Inv].
  - destruct ev; try exact Inv.
    destruct (frameworks !! i); [|exact Inv].
    destruct (cardDisabled st); [exact Inv|].
    unfold P. simpl. split; discriminate.
Qed.

Lemma run_mood (evs : list Event) (st : State) :
  (showResults st = true <-> mascotMood st = meditating) ->
  (showResults (run evs st) = true <-> mascotMood (run evs st) = meditating).
Proof.
  revert st. induction evs as [|ev evs IH]; intros st Inv; simpl; [exact Inv|].
  apply IH.
  destruct (step_cells st ev) as (_ & _ & _ & _ & Hs & _ & Hm).
  rewrite Hs, Hm. apply dispatch_mood. exact Inv.
Qed.

End MoreDecisionsFacts.

(** X10. With a decision that holds a character other than white space
    and no framework selected yet, a press on the card at position [i]
    selects [frameworks[i]] and starts its flow: step 0 of the framework,
    no response recorded, results hidden, an excited mascot, the typed
    decision kept, and a Next button labelled 'Next Step'. *)
Theorem nonblank_decision_enables_selection
    (st : Decisions.State) (i : nat) (f : Decisions.Framework) :
  Decisions.selectedFramework st = None ->
  ~ JSString.blank (Decisions.decision st) ->
  Decisions.frameworks !! i = Some f ->
  let st' := Decisions.step st (Decisions.PressFramework i) in
  Decisions.cardDisabled st = false
  /\ Decisions.selectedFramework st' = Some f
  /\ Decisions.currentStep st' = 0
  /\ Decisions.responses st' = []
  /\ Decisions.showResults st' = false
  /\ Decisions.decision st' = Decisions.decision st
  /\ Decisions.mascotMood st' = Decisions.excited
  /\ Decisions.nextButtonLabel st' = Some "Next Step".
Proof.
  intros Ef Hnb Hi. cbv zeta.
  destruct (step_cells st (Decisions.PressFramework i)) as (Hd & Hf & Hc & Hr & Hs & _ & Hm).
  rewrite (press_enabled st i f Ef Hnb Hi) in *.
  split.
  { destruct (Decisions.cardDisabled st) eqn:Ed; [|reflexivity].
    apply cardDisabled_blank in Ed. contradiction. }
  repeat (split; [assumption|]).
  unfold Decisions.nextButtonLabel. rewrite Hf, Hc. simpl.
  apply list_elem_of_lookup_2, list_elem_of_In in Hi.
  rewrite (frameworks_have_steps f Hi). reflexivity.
Qed.

(** X10 on the mounted screen after the user typed a decision. *)
Lemma nonblank_decision_enables_selection_witness :
  let st := Decisions.run [Decisions.ChangeDecision (JSString.lit "move?")] Decisions.mounted in
  let st' := Decisions.step st (Decisions.PressFramework 1) in
  Decisions.cardDisabled st = false
  /\ Decisions.selectedFramework st' = Decisions.frameworks !! 1%nat
  /\ Decisions.currentStep st' = 0
  /\ Decisions.nextButtonLabel st' = Some "Next Step".
Proof.
  assert (Hnb : ~ JSString.blank (JSString.lit "move?")).
  { intros Hb. inversion Hb as [|? ? Hc _]. discriminate Hc. }
  destruct (nonblank_decision_enables_selection
              (Decisions.run [Decisions.ChangeDecision (JSString.lit "move?")]
                             Decisions.mounted)
              1 _ eq_refl Hnb eq_refl) as (H1 & H2 & H3 & _ & _ & _ & _ & H8).
  cbv zeta. repeat split; assumption.
Defined.

(** X11. Neither Start Over nor the choice of a framework clears the step
    input: a response typed but not submitted survives the reset, and the
    first press of Next in the next decision records it as the response
    to step 1. *)
Theorem unsubmitted_input_survives_reset
    (st : Decisions.State) (f0 f : Decisions.Framework) (i : nat)
    (text d : JSString.jsstring) :
  Decisions.selectedFramework st = Some f0 ->
  Decisions.showResults st = false ->
  ~ JSString.blank d ->
  Decisions.frameworks !! i = Some f ->
  let st' := Decisions.run [ Decisions.ChangeInputText text; Decisions.PressStartOver;
                             Decisions.ChangeDecision d; Decisions.PressFramework i;
                             Decisions.PressNext ] st in
  Decisions.selectedFramework st' = Some f
  /\ Decisions.decision st' = d
  /\ Decisions.responses st' = [text].
Proof.
  intros Ef0 Es Hnb Hi. cbv zeta. unfold Decisions.run. cbn [fold_left].
  set (s1 := Decisions.step st (Decisions.ChangeInputText text)).
  destruct (step_cells st (Decisions.ChangeInputText text)) as (_ & Hf1 & _ & _ & Hs1 & Hi1 & _).
  fold s1 in Hf1, Hs1, Hi1.
  unfold Decisions.dispatch in Hf1, Hs1, Hi1. rewrite Ef0, Es in Hf1, Hs1, Hi1.
  cbn in Hf1, Hs1, Hi1. rewrite Ef0 in Hf1.
  set (s2 := Decisions.step s1 Decisions.PressStartOver).
  destruct (step_cells s1 Decisions.PressStartOver) as (Hd2 & Hf2 & _ & _ & _ & Hi2 & _).
  fold s2 in Hd2, Hf2, Hi2.
  unfold Decisions.dispatch in Hd2, Hf2, Hi2. rewrite Hf1 in Hd2, Hf2, Hi2.
  cbn in Hd2, Hf2, Hi2. rewrite Hi1 in Hi2.
  set (s3 := Decisions.step s2 (Decisions.ChangeDecision d)).
  destruct (step_cells s2 (Decisions.ChangeDecision d)) as (Hd3 & Hf3 & _ & _ & _ & Hi3 & _).
  fold s3 in Hd3, Hf3, Hi3.
  unfold Decisions.dispatch in Hd3, Hf3, Hi3. rewrite Hf2 in Hd3, Hf3, Hi3.
  cbn in Hd3, Hf3, Hi3. rewrite Hf2 in Hf3. rewrite Hi2 in Hi3.
  assert (Hnb3 : ~ JSString.blank (Decisions.decision s3)) by (rewrite Hd3; exact Hnb).
  set (s4 := Decisions.step s3 (Decisions.PressFramework i)).
  destruct (step_cells s3 (Decisions.PressFramework i)) as (Hd4 & Hf4 & _ & Hr4 & Hs4 & Hi4 & _).
  fold s4 in Hd4, Hf4, Hr4, Hs4, Hi4.
  rewrite (press_enabled s3 i f Hf3 Hnb3 Hi) in Hd4, Hf4, Hr4, Hs4, Hi4.
  cbn in Hd4, Hf4, Hr4, Hs4, Hi4. rewrite Hd3 in Hd4. rewrite Hi3 in Hi4.
  destruct (step_cells s4 Decisions.PressNext) as (Hd5 & Hf5 & _ & Hr5 & _ & _ & _).
  unfold Decisions.dispatch in Hd5, Hf5, Hr5. rewrite Hf4, Hs4 in Hd5, Hf5, Hr5.
  unfold Decisions.handleNextStep in Hd5, Hf5, Hr5. rewrite Hf4 in Hd5, Hf5, Hr5.
  destruct (Decisions.currentStep s4 <? Decisions.stepsLength f - 1);
    cbn in Hd5, Hf5, Hr5; rewrite Hd5, Hf5, Hr5, ?Hd4, ?Hr4, ?Hi4, ?Hf4; auto.
Qed.

(** X11 on a user who abandons step 1 of the first framework with a
    draft typed in. *)
Lemma unsubmitted_input_survives_reset_witness :
  let st := Decisions.run [ Decisions.ChangeDecision (JSString.lit "a");
                            Decisions.PressFramework 0 ] Decisions.mounted in
  let st' := Decisions.run [ Decisions.ChangeInputText (JSString.lit "draft");
                             Decisions.PressStartOver;
                             Decisions.ChangeDecision (JSString.lit "b");
                             Decisions.PressFramework 3; Decisions.PressNext ] st in
  Decisions.responses st' = [JSString.lit "draft"].
Proof.
  assert (Hnb : ~ JSString.blank (JSString.lit "b")).
  { intros Hb. inversion Hb as [|? ? Hc _]. discriminate Hc. }
  destruct (unsubmitted_input_survives_reset
              (Decisions.run [ Decisions.ChangeDecision (JSString.lit "a");
                               Decisions.PressFramework 0 ] Decisions.mounted)
              _ _ 3 (JSString.lit "draft") (JSString.lit "b") eq_refl eq_refl Hnb eq_refl)
    as (_ & _ & Hr).
  exact Hr.
Defined.

(** X12. When the results view is shown, every step of the framework has
    a recorded response: [responses] has exactly one entry per step, so
    the text 'No response provided' appears under a step only when the
    user submitted the empty string there, never because an entry is
    missing. *)
Theorem results_have_a_response_per_step
    (evs : list Decisions.Event) (f : Decisions.Framework) (index : nat) :
  Decisions.selectedFramework (Decisions.run evs Decisions.mounted) = Some f ->
  Decisions.showResults (Decisions.run evs Decisions.mounted) = true ->
  (index < length (Decisions.steps f))%nat ->
  let st := Decisions.run evs Decisions.mounted in
  length (Decisions.responses st) = length (Decisions.steps f)
  /\ exists r, Decisions.responses st !! index = Some r
               /\ Decisions.resultResponse st index
                  = (if JSString.not r then Decisions.noResponse else r).
Proof.
  intros Ef Es Hi. cbv zeta.
  pose proof (run_invariant evs Decisions.mounted mounted_invariant) as Inv.
  unfold Decisions.flowInvariant in Inv. rewrite Ef in Inv.
  destruct Inv as (_ & _ & _ & Hdone). specialize (Hdone Es).
  unfold Decisions.stepsLength in Hdone. apply Nat2Z.inj in Hdone.
  split; [exact Hdone|].
  destruct (lookup_lt_is_Some_2 (Decisions.responses (Decisions.run evs Decisions.mounted)) index)
    as [r Hr]; [lia|].
  exists r. split; [exact Hr|].
  unfold Decisions.resultResponse. rewrite Hr. reflexivity.
Qed.

(** X12 on a flow completed with the second response left empty. *)
Lemma results_have_a_response_per_step_witness :
  let st := Decisions.run
              [ Decisions.ChangeDecision (JSString.lit "a"); Decisions.PressFramework 0;
                Decisions.ChangeInputText (JSString.lit "yes"); Decisions.PressNext;
                Decisions.PressNext; Decisions.PressNext; Decisions.PressNext ]
              Decisions.mounted in
  exists f,
    Decisions.selectedFramework st = Some f
    /\ Decisions.showResults st = true
    /\ (1 < length (Decisions.steps f))%nat
    /\ length (Decisions.responses st) = length (Decisions.steps f)
    /\ exists r, Decisions.responses st !! 1%nat = Some r
                 /\ Decisions.resultResponse st 1
                    = (if JSString.not r then Decisions.noResponse else r).
Proof.
  cbv zeta. eexists.
  split; [vm_compute; reflexivity|].
  split; [vm_compute; reflexivity|].
  split; [vm_compute; lia|].
  apply results_have_a_response_per_step.
  - vm_compute; reflexivity.
  - vm_compute; reflexivity.
  - vm_compute; lia.
Defined.

(** X13. The label of the Next button tells what the press will do: with
    a framework selected and the results hidden, the button reads
    'Complete' exactly when pressing it shows the results, and 'Next
    Step' exactly when pressing it moves to the following step. *)
Theorem next_label_matches_press (st : Decisions.State) (f : Decisions.Framework) :
  Decisions.selectedFramework st = Some f ->
  Decisions.showResults st = false ->
  let st' := Decisions.step st Decisions.PressNext in
  (Decisions.nextButtonLabel st = Some "Complete" <-> Decisions.showResults st' = true)
  /\ (Decisions.nextButtonLabel st = Some "Next Step"
      <-> Decisions.showResults st' = false
          /\ Decisions.currentStep st' = Decisions.currentStep st + 1).
Proof.
  intros Ef Es. cbv zeta. unfold Decisions.nextButtonLabel. rewrite Ef.
  destruct (Decisions.currentStep st <? Decisions.stepsLength f - 1) eqn:El.
  - apply Z.ltb_lt in El.
    destruct (step_next_advance st f Ef Es El) as (_ & Hs & Hc & _).
    cbv zeta in Hs, Hc. rewrite Hs, Hc.
    split; split; try discriminate; auto.
  - apply Z.ltb_ge in El.
    destruct (step_next_finish st f Ef Es El) as (_ & Hs & Hc & _).
    cbv zeta in Hs, Hc. rewrite Hs, Hc.
    split; split; try discriminate; auto.
    intros [H _]. discriminate H.
Qed.

(** X13 on the last step of the first framework. *)
Lemma next_label_matches_press_witness :
  let st := Decisions.run
              [ Decisions.ChangeDecision (JSString.lit "a"); Decisions.PressFramework 0;
                Decisions.PressNext; Decisions.PressNext; Decisions.PressNext ]
              Decisions.mounted in
  let st' := Decisions.step st Decisions.PressNext in
  (exists f, Decisions.selectedFramework st = Some f)
  /\ Decisions.showResults st = false
  /\ (Decisions.nextButtonLabel st = Some "Complete" <-> Decisions.showResults st' = true)
  /\ (Decisions.nextButtonLabel st = Some "Next Step"
      <-> Decisions.showResults st' = false
          /\ Decisions.currentStep st' = Decisions.currentStep st + 1).
Proof.
  cbv zeta.
  split; [eexists; vm_compute; reflexivity|].
  split; [vm_compute; reflexivity|].
  eapply next_label_matches_press.
  - vm_compute; reflexivity.
  - vm_compute; reflexivity.
Defined.

(** X14. In every state the decisions screen reaches, the mascot
    meditates exactly when the results are shown: [mascotMood] is
    'meditating' if and only if [showResults] is true. *)
Theorem mascot_meditates_iff_results (evs : list Decisions.Event) :
  let st := Decisions.run evs Decisions.mounted in
  Decisions.showResults st = true <-> Decisions.mascotMood st = Decisions.meditating.
Proof.
  cbv zeta. apply run_mood. split; discriminate.
Qed.

(** ** Wisdom screen: the cards *)

Section MoreWisdomFacts.
Import Wisdom.

Lemma pressCard_dailyQuote (st : State) (i : nat) :
  dailyQuote (pressCard st i) = dailyQuote st.
Proof. unfold pressCard. destruct (philosophers !! i); reflexivity. Qed.

Lemma presses_dailyQuote (pressed : list nat) (st : State) :
  dailyQuote (fold_left pressCard pressed st) = dailyQuote st.
Proof.
  revert st. induction pressed as [|i pressed IH]; intros st; simpl; [reflexivity|].
  rewrite IH. apply pressCard_dailyQuote.
Qed.

End MoreWisdomFacts.

(** X15. However many philosophy cards the user presses, the wisdom of
    the day stays the quote drawn at mount; and after a press on the card
    at position [i], that card and no other is highlighted, the Key
    Teachings list the quotes of [philosophers[i]], and the mascot
    meditates. *)
Theorem last_pressed_card_is_highlighted
    (random : Q) (pressed : list nat) (i : nat) (p : Wisdom.Philosophy) :
  Wisdom.philosophers !! i = Some p ->
  let st := fold_left Wisdom.pressCard (pressed ++ [i]) (Wisdom.mounted random) in
  Wisdom.dailyQuote st = Wisdom.dailyQuote (Wisdom.mounted random)
  /\ Wisdom.highlighted st = [i]
  /\ Wisdom.keyTeachings st = Wisdom.quotes p
  /\ Wisdom.mascotMood st = Wisdom.meditating.
Proof.
  intros Hi. cbv zeta. split; [apply presses_dailyQuote|].
  rewrite fold_left_app. cbn [fold_left].
  set (st0 := fold_left Wisdom.pressCard pressed (Wisdom.mounted random)).
  assert (E : Wisdom.pressCard st0 i = Wisdom.handlePhilosophyPress p st0)
    by (unfold Wisdom.pressCard; rewrite Hi; reflexivity).
  rewrite E.
  unfold Wisdom.highlighted, Wisdom.keyTeachings, Wisdom.isSelectedCard.
  cbn [Wisdom.handlePhilosophyPress Wisdom.selectedPhilosophy Wisdom.mascotMood].
  split; [|split; reflexivity].
  destruct i as [|[|[|[|i]]]]; try discriminate Hi;
    injection Hi as <-; reflexivity.
Qed.

(** X15 after presses on the Taoism, a missing and the Buddhism card. *)
Lemma last_pressed_card_is_highlighted_witness :
  let st := fold_left Wisdom.pressCard [2%nat; 7%nat; 1%nat] (Wisdom.mounted (1 # 2)) in
  Wisdom.dailyQuote st = Wisdom.dailyQuote (Wisdom.mounted (1 # 2))
  /\ Wisdom.highlighted st = [1%nat]
  /\ Wisdom.mascotMood st = Wisdom.meditating.
Proof.
  destruct (last_pressed_card_is_highlighted (1 # 2) [2%nat; 7%nat] 1 _ eq_refl)
    as (Hq & Hh & _ & Hm).
  cbv zeta. repeat split; assumption.
Defined.

(** ** Actions in general: what they add and what they keep *)

Section ActionFacts.
Import Runtime.
Context {SV CB : Type}.
Context (G : Env SV CB -> Prop) (P : Op SV CB -> Prop).

Lemma addsOnly_ret {A} (a : A) : addsOnly G P (ret a : M SV CB A).
Proof. intros env w _. exists []. split; [cbn; rewrite app_nil_r; reflexivity | constructor]. Qed.

Lemma addsOnly_perform (op : Op SV CB) : P op -> addsOnly G P (perform op).
Proof.
  intros Hop env w _. unfold perform. destruct (throws env op).
  - exists []. split; [cbn; rewrite app_nil_r; reflexivity | constructor].
  - exists [(now w, op)]. split; [reflexivity | repeat constructor; exact Hop].
Qed.

Lemma addsOnly_build (a : Reanimated.Anim) : addsOnly G P (build a : M SV CB unit).
Proof.
  intros env w _. unfold build. exists [].
  destruct (throws env (Build a)); (split; [cbn; rewrite app_nil_r; reflexivity | constructor]).
Qed.

Lemma addsOnly_warn (msg : string) : P (Warn msg) -> addsOnly G P (warn msg : M SV CB unit).
Proof.
  intros Hop env w _. exists [(now w, Warn msg)].
  split; [reflexivity | repeat constructor; exact Hop].
Qed.

Lemma addsOnly_setTimeout (cb : CB) (d : Q) :
  P (SetTimeout cb d) -> addsOnly G P (setTimeout cb d : M SV CB unit).
Proof.
  intros Hop env w _. exists [(now w, SetTimeout cb d)].
  split; [reflexivity | repeat constructor; exact Hop].
Qed.

Lemma addsOnly_mathRandom : addsOnly G P (mathRandom : M SV CB Q).
Proof. intros env w _. exists []. split; [cbn; rewrite app_nil_r; reflexivity | constructor]. Qed.

Lemma addsOnly_getMounted : addsOnly G P (getMounted : M SV CB bool).
Proof. intros env w _. exists []. split; [cbn; rewrite app_nil_r; reflexivity | constructor]. Qed.

Lemma addsOnly_setMounted (b : bool) : addsOnly G P (setMounted b : M SV CB unit).
Proof. intros env w _. exists []. split; [cbn; rewrite app_nil_r; reflexivity | constructor]. Qed.

Lemma addsOnly_bind {A B} (m : M SV CB A) (k : A -> M SV CB B) :
  addsOnly G P m -> (forall a, addsOnly G P (k a)) -> addsOnly G P (bind m k).
Proof.
  intros Hm Hk env w HG. unfold bind.
  destruct (Hm env w HG) as (l1 & E1 & F1).
  destruct (m env w) as [w1 [a|]]; cbn in E1.
  - destruct (Hk a env w1 HG) as (l2 & E2 & F2). exists (l1 ++ l2).
    split; [rewrite E2, E1, app_assoc; reflexivity | apply Forall_app; split; assumption].
  - exists l1. split; assumption.
Qed.

(** A draw is a number of the unit interval when the run's are. *)
Lemma addsOnly_random {B} (k : Q -> M SV CB B) :
  (forall env, G env -> unitInterval (random env)) ->
  (forall r, (0 <= r)%Q -> (r < 1)%Q -> addsOnly G P (k r)) ->
  addsOnly G P (bind mathRandom k).
Proof.
  intros HU Hk env w HG. unfold bind, mathRandom.
  destruct (HU env HG (drawn w)) as [H0 H1].
  destruct (Hk (random env (drawn w)) H0 H1 env (tick w) HG) as (l & E & F).
  exists l. split; [exact E | exact F].
Qed.

Lemma addsOnly_tryCatch (body handler : M SV CB unit) :
  addsOnly G P body -> addsOnly G P handler -> addsOnly G P (tryCatch body handler).
Proof.
  intros Hb Hh env w HG. unfold tryCatch.
  destruct (Hb env w HG) as (l1 & E1 & F1).
  destruct (body env w) as [w1 [a|]]; cbn in E1.
  - exists l1. split; assumption.
  - destruct (Hh env w1 HG) as (l2 & E2 & F2). exists (l1 ++ l2).
    split; [rewrite E2, E1, app_assoc; reflexivity | apply Forall_app; split; assumption].
Qed.

Lemma addsOnly_if {A} (b : bool) (m1 m2 : M SV CB A) :
  addsOnly G P m1 -> addsOnly G P m2 -> addsOnly G P (if b then m1 else m2).
Proof. destruct b; auto. Qed.

Context {X : Type} (f : World SV CB -> X).

Lemma keeps_ret {A} (a : A) : keeps f (ret a : M SV CB A).
Proof. intros env w. reflexivity. Qed.

Lemma keeps_bind {A B} (m : M SV CB A) (k : A -> M SV CB B) :
  keeps f m -> (forall a, keeps f (k a)) -> keeps f (bind m k).
Proof.
  intros Hm Hk env w. unfold bind. specialize (Hm env w).
  destruct (m env w) as [w1 [a|]]; cbn in Hm.
  - rewrite (Hk a env w1). exact Hm.
  - exact Hm.
Qed.

Lemma keeps_tryCatch (body handler : M SV CB unit) :
  keeps f body -> keeps f handler -> keeps f (tryCatch body handler).
Proof.
  intros Hb Hh env w. unfold tryCatch. specialize (Hb env w).
  destruct (body env w) as [w1 [a|]]; cbn in Hb.
  - exact Hb.
  - rewrite (Hh env w1). exact Hb.
Qed.

Lemma keeps_build (a : Reanimated.Anim) : keeps f (build a : M SV CB unit).
Proof. intros env w. unfold build. destruct (throws env (Build a)); reflexivity. Qed.

Lemma keeps_perform (op : Op SV CB) :
  (forall o w, f (record o w) = f w) -> keeps f (perform op).
Proof.
  intros Hr env w. unfold perform. destruct (throws env op); [reflexivity | apply Hr].
Qed.

End ActionFacts.

Section ArmsFacts.
Import Runtime.
Context {SV CB : Type}.

Lemma arms_as (b b' : bool) {A} (m : M SV CB A) (cbs cbs' : list CB) :
  arms b b' m cbs -> cbs = cbs' -> arms b b' m cbs'.
Proof. intros H <-. exact H. Qed.

Lemma arms_ret (b : bool) {A} (a : A) : arms b b (ret a : M SV CB A) [].
Proof.
  intros rnd w Hm. cbn. repeat split; [eexists; reflexivity | rewrite app_nil_r; reflexivity | exact Hm].
Qed.

Lemma arms_perform (b : bool) (op : Op SV CB) : arms b b (perform op) [].
Proof.
  intros rnd w Hm. cbn. repeat split; [eexists; reflexivity | rewrite app_nil_r; reflexivity | exact Hm].
Qed.

Lemma arms_build (b : bool) (a : Reanimated.Anim) : arms b b (build a : M SV CB unit) [].
Proof.
  intros rnd w Hm. cbn. repeat split; [eexists; reflexivity | rewrite app_nil_r; reflexivity | exact Hm].
Qed.

Lemma arms_animate (b : bool) (sv : SV) (a : Reanimated.Anim) :
  arms b b (animate sv a : M SV CB unit) [].
Proof.
  intros rnd w Hm. cbn. repeat split; [eexists; reflexivity | rewrite app_nil_r; reflexivity | exact Hm].
Qed.

Lemma arms_warn (b : bool) (msg : string) : arms b b (warn msg : M SV CB unit) [].
Proof.
  intros rnd w Hm. cbn. repeat split; [eexists; reflexivity | rewrite app_nil_r; reflexivity | exact Hm].
Qed.

Lemma arms_mathRandom (b : bool) : arms b b (mathRandom : M SV CB Q) [].
Proof.
  intros rnd w Hm. cbn. repeat split; [eexists; reflexivity | rewrite app_nil_r; reflexivity | exact Hm].
Qed.

Lemma arms_setMounted (b x : bool) : arms b x (setMounted x : M SV CB unit) [].
Proof.
  intros rnd w Hm. cbn. repeat split; [eexists; reflexivity | rewrite app_nil_r; reflexivity].
Qed.

Lemma arms_setTimeout (b : bool) (cb : CB) (d : Q) :
  arms b b (setTimeout cb d : M SV CB unit) [cb].
Proof.
  intros rnd w Hm. cbn. repeat split; [eexists; reflexivity | rewrite map_app; reflexivity | exact Hm].
Qed.

(** Reading the mounted flag gives what it is. *)
Lemma arms_getMounted (b b' : bool) {B} (k : bool -> M SV CB B) (cbs : list CB) :
  arms b b' (k b) cbs -> arms b b' (bind getMounted k) cbs.
Proof.
  intros Hk rnd w Hm. unfold bind, getMounted. rewrite Hm. exact (Hk rnd w Hm).
Qed.

Lemma arms_bind (b b1 b2 : bool) {A B} (m : M SV CB A) (k : A -> M SV CB B)
  (c1 c2 : list CB) :
  arms b b1 m c1 -> (forall a, arms b1 b2 (k a) c2) -> arms b b2 (bind m k) (c1 ++ c2).
Proof.
  intros Hm Hk rnd w Hw. unfold bind.
  destruct (Hm rnd w Hw) as ((a & Ea) & T1 & M1).
  destruct (m (quiet rnd) w) as [w1 r]; cbn in Ea, T1, M1. subst r.
  destruct (Hk a rnd w1 M1) as (R2 & T2 & M2).
  repeat split; [exact R2 | rewrite T2, T1, app_assoc; reflexivity | exact M2].
Qed.

Lemma arms_bind_as (b b1 b2 : bool) {A B} (m : M SV CB A) (k : A -> M SV CB B)
  (c1 c2 c : list CB) :
  arms b b1 m c1 -> (forall a, arms b1 b2 (k a) c2) -> c1 ++ c2 = c ->
  arms b b2 (bind m k) c.
Proof. intros Hm Hk <-. exact (arms_bind b b1 b2 m k c1 c2 Hm Hk). Qed.

Lemma arms_tryCatch (b b' : bool) (body handler : M SV CB unit) (cbs : list CB) :
  arms b b' body cbs -> arms b b' (tryCatch body handler) cbs.
Proof.
  intros Hb rnd w Hw. unfold tryCatch.
  destruct (Hb rnd w Hw) as ((a & Ea) & T1 & M1).
  destruct (body (quiet rnd) w) as [w1 r]; cbn in Ea, T1, M1. subst r.
  repeat split; [eexists; reflexivity | exact T1 | exact M1].
Qed.

Lemma arms_if (b b' : bool) {A} (c : bool) (m1 m2 : M SV CB A) (cbs : list CB) :
  arms b b' m1 cbs -> arms b b' m2 cbs -> arms b b' (if c then m1 else m2) cbs.
Proof. destruct c; auto. Qed.

End ArmsFacts.

Section TimerFacts.
Import Runtime.
Context {SV CB : Type}.

(** The next timer is one of the armed ones. *)
Lemma nextTimer_lookup (ts : list (Q * CB)) :
  ts <> [] -> exists i t cb, nextTimer ts = Some (i, t) /\ ts !! i = Some (t, cb).
Proof.
  induction ts as [|[t cb] rest IH]; [congruence|]. intros _. simpl.
  destruct rest as [|x rest'].
  - exists 0%nat, t, cb. split; reflexivity.
  - destruct IH as (i & t' & cb' & E & L); [discriminate|].
    rewrite E. destruct (Qle_bool t t').
    + exists 0%nat, t, cb. split; reflexivity.
    + exists (S i), t', cb'. split; [reflexivity | exact L].
Qed.

Lemma nextTimer_nil : nextTimer (@nil (Q * CB)) = None.
Proof. reflexivity. Qed.

(** Firing takes exactly one timer off and touches nothing but the
    clock. *)
Lemma popTimer_some (w : World SV CB) :
  timers w <> [] ->
  exists cb w' i x,
    popTimer w = Some (cb, w')
    /\ timers w !! i = Some x /\ snd x = cb
    /\ timers w' = delete i (timers w)
    /\ length (timers w') = (length (timers w) - 1)%nat
    /\ log w' = log w /\ drawn w' = drawn w
    /\ isComponentMounted w' = isComponentMounted w.
Proof.
  intros Hne. destruct (nextTimer_lookup (timers w) Hne) as (i & t & cb & E & L).
  unfold popTimer. rewrite E, L.
  exists cb, {| now := t; drawn := drawn w; isComponentMounted := isComponentMounted w;
                timers := delete i (timers w); log := log w |}, i, (t, cb).
  cbn. repeat split; try reflexivity; try assumption.
  apply length_delete. rewrite L. eexists; reflexivity.
Qed.

Lemma popTimer_none (w : World SV CB) : timers w = [] -> popTimer w = None.
Proof. intros E. unfold popTimer. rewrite E. reflexivity. Qed.

End TimerFacts.

(** ** The owl mascot: its blink timers over a component's life *)

Section MascotTimers.
Import Runtime Mascot.

Lemma transitions_cancels (l : list (Q * Op SharedValue Callback)) :
  Forall (fun e => isCancel (snd e)) l -> transitions l = [] /\ delays l = [].
Proof.
  induction 1 as [|[t op] l Hop _ [IH1 IH2]]; [split; reflexivity|].
  destruct op; cbn in Hop; try contradiction.
  split; [exact IH1 | exact IH2].
Qed.

Lemma cleanup_cancels_only : addsOnly (fun _ => True) isCancel cleanup.
Proof.
  unfold cleanup.
  repeat (apply addsOnly_bind; [|intros _]);
    first [apply addsOnly_setMounted | apply addsOnly_perform; exact I].
Qed.

Lemma cleanup_keeps_timers : keeps timers cleanup.
Proof.
  unfold cleanup.
  repeat (apply keeps_bind; [|intros _]);
    first [apply keeps_perform; reflexivity | intros env w; reflexivity].
Qed.

Lemma cleanup_unmounts (env : E) (w : W) :
  isComponentMounted (fst (cleanup env w)) = false.
Proof.
  unfold cleanup. unfold bind at 1. unfold setMounted at 1.
  match goal with |- isComponentMounted (fst (?m env ?w1)) = _ =>
    assert (K : keeps isComponentMounted m)
  end.
  { repeat (apply keeps_bind; [|intros _]); apply keeps_perform; reflexivity. }
  rewrite K. reflexivity.
Qed.

(** An unmounted component's timer does nothing when it fires. *)
Lemma fire_unmounted (env : E) (w : W) :
  isComponentMounted w = false ->
  let w' := step env w TimerFires in
  isComponentMounted w' = false /\ log w' = log w
  /\ length (timers w') = (length (timers w) - 1)%nat.
Proof.
  intros Hm. cbn zeta. unfold step.
  destruct (timers w) as [|x ts] eqn:Ets.
  - rewrite (popTimer_none w Ets). rewrite Ets. repeat split; assumption.
  - destruct (popTimer_some w) as (cb & w1 & i & y & Ep & _ & _ & _ & Hlen & Hlog & _ & Hmo);
      [rewrite Ets; discriminate|].
    rewrite Ep. destruct cb. unfold callback, blinkEyes, bind, getMounted.
    rewrite Hmo, Hm. cbn. rewrite Hmo, Hlog, Hlen, Ets. repeat split; assumption.
Qed.

Lemma fires_unmounted (env : E) (n : nat) (w : W) :
  isComponentMounted w = false ->
  let w' := fold_left (step env) (repeat TimerFires n) w in
  isComponentMounted w' = false /\ log w' = log w
  /\ length (timers w') = (length (timers w) - n)%nat.
Proof.
  revert w. induction n as [|n IH]; intros w Hm; cbn zeta.
  - cbn. repeat split; [assumption | lia].
  - cbn [repeat fold_left].
    destruct (fire_unmounted env w Hm) as (M1 & L1 & T1).
    destruct (IH _ M1) as (M2 & L2 & T2).
    repeat split; [exact M2 | congruence | rewrite T2, T1; lia].
Qed.

(** The effect of a run in which nothing throws: the component is
    mounted and one more blink timer is armed. *)
Lemma effect_quiet (rnd : nat -> Q) (mood : Mood) (w : W) :
  let w' := fst (effect mood (quiet rnd) w) in
  isComponentMounted w' = true
  /\ timers w' = timers w ++ [((now w + Double.add 2000 (Double.mul (rnd (drawn w)) 2000))%Q, blinkEyesCb)].
Proof. destruct mood; split; reflexivity. Qed.

Lemma blinkEyes_quiet (rnd : nat -> Q) (w : W) :
  isComponentMounted w = true ->
  let w' := fst (blinkEyes (quiet rnd) w) in
  isComponentMounted w' = true
  /\ timers w' = timers w ++ [((now w + Double.add 2000 (Double.mul (rnd (drawn w)) 2000))%Q, blinkEyesCb)].
Proof.
  intros Hm. cbn zeta. unfold blinkEyes, bind, getMounted. rewrite Hm.
  split; [exact Hm | reflexivity].
Qed.

Lemma step_whileMounted (rnd : nat -> Q) (w : W) (ev : Event) :
  whileMounted ev -> isComponentMounted w = true ->
  let w' := step (quiet rnd) w ev in
  isComponentMounted w' = true
  /\ length (timers w') = (length (timers w) + moodChanges [ev])%nat.
Proof.
  intros Hev Hm. cbn zeta. destruct ev as [m|m| |]; cbn in Hev; try contradiction.
  - unfold step.
    destruct (effect_quiet rnd m (fst (cleanup (quiet rnd) w))) as [M1 T1].
    split; [exact M1|]. rewrite T1, length_app, cleanup_keeps_timers. reflexivity.
  - unfold step. destruct (timers w) as [|x ts] eqn:Ets.
    + rewrite (popTimer_none w Ets). rewrite Ets. split; [exact Hm | reflexivity].
    + destruct (popTimer_some w)
        as (cb & w1 & i & y & Ep & _ & _ & _ & Hlen & _ & _ & Hmo);
        [rewrite Ets; discriminate|].
      rewrite Ep. destruct cb. unfold callback.
      destruct (blinkEyes_quiet rnd w1) as [M1 T1]; [congruence|].
      split; [exact M1|]. rewrite T1, length_app, Hlen, Ets. cbn. lia.
Qed.

End MascotTimers.

(** X16 (MascotCharacter.tsx, effect and clean-up). The clean-up cancels
    animations but clears no timer, and the effect that follows a mood
    change sets the mounted flag again and starts a new blink chain. So
    while the component is mounted and nothing throws, every pending blink
    timer re-arms itself when it fires, and the number of pending blink
    timers is one more than the number of mood changes so far. *)
Theorem blink_chains_accumulate
  (rnd : nat -> Q) (m0 : Mascot.Mood) (evs : list Mascot.Event) :
  Forall Mascot.whileMounted evs ->
  let w := fold_left (Mascot.step (Runtime.quiet rnd)) evs
             (Mascot.step (Runtime.quiet rnd) Mascot.start (Mascot.Mount m0)) in
  Runtime.isComponentMounted w = true
  /\ length (Runtime.timers w) = S (Mascot.moodChanges evs).
Proof.
  intros Hevs. cbn zeta.
  assert (G : forall w0,
    Runtime.isComponentMounted w0 = true ->
    Runtime.isComponentMounted (fold_left (Mascot.step (Runtime.quiet rnd)) evs w0) = true
    /\ length (Runtime.timers (fold_left (Mascot.step (Runtime.quiet rnd)) evs w0))
       = (length (Runtime.timers w0) + Mascot.moodChanges evs)%nat).
  { induction Hevs as [|ev evs Hev _ IH]; intros w0 Hm.
    - cbn. split; [exact Hm | lia].
    - cbn [fold_left].
      destruct (step_whileMounted rnd w0 ev Hev Hm) as [M1 T1].
      destruct (IH _ M1) as [M2 T2]. split; [exact M2|].
      rewrite T2, T1. destruct ev; cbn; lia. }
  destruct (effect_quiet rnd m0 Mascot.start) as [M0 T0].
  destruct (G (Mascot.step (Runtime.quiet rnd) Mascot.start (Mascot.Mount m0)) M0)
    as [M1 T1].
  split; [exact M1|].
  rewrite T1.
  change (Mascot.step (Runtime.quiet rnd) Mascot.start (Mascot.Mount m0))
    with (fst (Mascot.effect m0 (Runtime.quiet rnd) Mascot.start)).
  rewrite T0. reflexivity.
Qed.

Lemma blink_chains_accumulate_witness :
  let evs := [Mascot.TimerFires; Mascot.ChangeMood Mascot.excited; Mascot.TimerFires;
              Mascot.ChangeMood Mascot.meditating; Mascot.TimerFires] in
  let w := fold_left (Mascot.step (Runtime.quiet (fun _ => 1 # 2))) evs
             (Mascot.step (Runtime.quiet (fun _ => 1 # 2)) Mascot.start
                (Mascot.Mount Mascot.happy)) in
  Forall Mascot.whileMounted evs
  /\ Runtime.isComponentMounted w = true
  /\ length (Runtime.timers w) = 3%nat.
Proof.
  cbv zeta.
  assert (H : Forall Mascot.whileMounted
            [Mascot.TimerFires; Mascot.ChangeMood Mascot.excited; Mascot.TimerFires;
             Mascot.ChangeMood Mascot.meditating; Mascot.TimerFires])
    by (repeat constructor).
  split; [exact H|].
  exact (blink_chains_accumulate (fun _ => 1 # 2) Mascot.happy _ H).
Defined.

(** X17 (MascotCharacter.tsx, clean-up and blinkEyes). After the clean-up
    of an unmount, whatever throws: the clean-up itself assigns nothing,
    arms nothing and leaves the pending timers in place; each of them
    then fires once without any operation, and none is armed again. *)
Theorem unmounted_timers_drain_silently (env : Mascot.E) (w : Mascot.W) (n : nat) :
  let w0 := Mascot.step env w Mascot.Unmount in
  let w' := fold_left (Mascot.step env) (repeat Mascot.TimerFires n) w0 in
  Runtime.transitions (Runtime.log w0) = Runtime.transitions (Runtime.log w)
  /\ Runtime.delays (Runtime.log w0) = Runtime.delays (Runtime.log w)
  /\ Runtime.timers w0 = Runtime.timers w
  /\ Runtime.isComponentMounted w' = false
  /\ Runtime.log w' = Runtime.log w0
  /\ length (Runtime.timers w') = (length (Runtime.timers w) - n)%nat.
Proof.
  cbn zeta.
  change (Mascot.step env w Mascot.Unmount) with (fst (Mascot.cleanup env w)).
  destruct (cleanup_cancels_only env w I) as (l & El & Fl).
  destruct (transitions_cancels l Fl) as [Tl Dl].
  pose proof (cleanup_keeps_timers env w) as Kt.
  destruct (fires_unmounted env n _ (cleanup_unmounts env w)) as (M1 & L1 & T1).
  repeat split.
  - rewrite El. unfold Runtime.transitions in *. rewrite flat_map_app, Tl.
    apply app_nil_r.
  - rewrite El. unfold Runtime.delays in *. rewrite flat_map_app, Dl.
    apply app_nil_r.
  - exact Kt.
  - exact M1.
  - exact L1.
  - rewrite T1, Kt. reflexivity.
Qed.

(** ** The boy character: delays, values at rest, timers after unmount *)

Section PaxtonRuns.
Import Reanimated Runtime Paxton.

Variable G : E -> Prop.
Variable P : Op SharedValue Callback -> Prop.

Lemma addsOnly_callOnPress : P OnPress -> addsOnly G P callOnPress.
Proof.
  intros Hp env w HG. unfold callOnPress. destruct (onPressGiven env).
  - exact (addsOnly_perform G P OnPress Hp env w HG).
  - exact (addsOnly_ret G P tt env w HG).
Qed.

(** Every event adds only operations that meet [P] when every action of
    the component does. *)
Lemma run_addsOnly :
  (forall mood, addsOnly G P (effect mood)) ->
  addsOnly G P cleanup -> addsOnly G P performJump ->
  (forall cb, addsOnly G P (callback cb)) ->
  forall env evs, G env -> Forall (fun e => P (snd e)) (log (run env evs)).
Proof.
  intros He Hc Hj Hcb env evs HG. unfold run.
  assert (K : forall w, Forall (fun e => P (snd e)) (log w) ->
              Forall (fun e => P (snd e)) (log (fold_left (step env) evs w))).
  { induction evs as [|ev evs IH]; intros w Hw; [exact Hw|].
    cbn [fold_left]. apply IH. destruct ev as [m|m| | |]; unfold step.
    - destruct (He m env w HG) as (l & E1 & F1).
      rewrite E1. apply Forall_app; split; assumption.
    - destruct (Hc env w HG) as (l1 & E1 & F1).
      destruct (He m env (fst (cleanup env w)) HG) as (l2 & E2 & F2).
      rewrite E2, E1. repeat (apply Forall_app; split); assumption.
    - destruct (Hc env w HG) as (l1 & E1 & F1).
      rewrite E1. apply Forall_app; split; assumption.
    - destruct (Hj env w HG) as (l1 & E1 & F1).
      rewrite E1. apply Forall_app; split; assumption.
    - destruct (timers w) as [|x ts] eqn:Ets.
      + rewrite (popTimer_none w Ets). exact Hw.
      + destruct (popTimer_some w) as (cb & w1 & i & y & Ep & _ & _ & _ & _ & Hlog & _);
          [rewrite Ets; discriminate|].
        rewrite Ep. destruct (Hcb cb env w1 HG) as (l1 & E1 & F1).
        rewrite E1, Hlog. apply Forall_app; split; assumption. }
  apply K. constructor.
Qed.

End PaxtonRuns.

(** Decompose an action along its syntax: [sub] settles the actions that
    have a lemma of their own, [rnd] a draw and [tac] the side condition
    on an operation. *)
Ltac adds_with rnd tac sub :=
  repeat
    (cbv beta zeta;
     first
       [ sub
       | lazymatch goal with
         | |- Runtime.addsOnly _ _ (Runtime.bind Runtime.mathRandom _) =>
             first [ rnd | apply addsOnly_bind; [apply addsOnly_mathRandom | intros ?] ]
         | |- Runtime.addsOnly _ _ (Runtime.bind _ _) => apply addsOnly_bind; [|intros ?]
         | |- Runtime.addsOnly _ _ (Runtime.tryCatch _ _) => apply addsOnly_tryCatch
         | |- Runtime.addsOnly _ _ (if _ then _ else _) => apply addsOnly_if
         | |- Runtime.addsOnly _ _ (Runtime.ret _) => apply addsOnly_ret
         | |- Runtime.addsOnly _ _ (Runtime.build _) => apply addsOnly_build
         | |- Runtime.addsOnly _ _ Runtime.getMounted => apply addsOnly_getMounted
         | |- Runtime.addsOnly _ _ (Runtime.setMounted _) => apply addsOnly_setMounted
         | |- Runtime.addsOnly _ _ Paxton.callOnPress => apply addsOnly_callOnPress; tac
         | |- Runtime.addsOnly _ _ (Runtime.perform _) => apply addsOnly_perform; tac
         | |- Runtime.addsOnly _ _ (Runtime.warn _) => apply addsOnly_warn; tac
         | |- Runtime.addsOnly _ _ (Runtime.setTimeout _ _) =>
             apply addsOnly_setTimeout; tac
         | |- Runtime.addsOnly _ _ (Runtime.animate _ _) => unfold Runtime.animate
         | |- Runtime.addsOnly _ _ (Paxton.startBuilt _ _) => unfold Paxton.startBuilt
         | |- Runtime.addsOnly _ _ (Paxton.startAnimation _ _) =>
             unfold Paxton.startAnimation
         end ]).

(** The same for the timers an action arms; what is left are the
    equations between the lists of callbacks. *)
Ltac arms_with sub :=
  repeat
    (cbv beta zeta;
     first
       [ sub
       | lazymatch goal with
         | |- Runtime.arms _ _ (Runtime.bind _ _) _ => eapply arms_bind_as; [|intros ?|]
         | |- Runtime.arms _ _ (Runtime.tryCatch _ _) _ => apply arms_tryCatch
         | |- Runtime.arms _ _ (if _ then _ else _) _ => apply arms_if
         | |- Runtime.arms _ _ (Runtime.ret _) _ => apply arms_ret
         | |- Runtime.arms _ _ (Runtime.build _) _ => apply arms_build
         | |- Runtime.arms _ _ (Runtime.animate _ _) _ => apply arms_animate
         | |- Runtime.arms _ _ (Runtime.perform _) _ => apply arms_perform
         | |- Runtime.arms _ _ (Runtime.warn _) _ => apply arms_warn
         | |- Runtime.arms _ _ Runtime.mathRandom _ => apply arms_mathRandom
         | |- Runtime.arms _ _ (Runtime.setMounted _) _ => apply arms_setMounted
         | |- Runtime.arms _ _ (Runtime.setTimeout _ _) _ => apply arms_setTimeout
         end ]).

Section PaxtonDelays.
Import Reanimated Runtime Paxton.

Ltac draw :=
  apply addsOnly_random; [intros ? HG; exact HG | intros ? ? ?].

Ltac timed :=
  cbn [wellTimed delayRange negb];
  lazymatch goal with
  | |- True => exact I
  | |- (_ == 0)%Q => apply add_mul_zero
  | |- (20000 <= _)%Q /\ _ =>
      apply (add_draw_base _ 20000 30000); [assumption | assumption | discriminate | reflexivity]
  | |- (25000 <= _)%Q /\ _ =>
      apply (add_base_draw _ 25000 10000); [assumption | assumption | discriminate | reflexivity]
  | |- (28000 <= _)%Q /\ _ =>
      apply (add_base_draw _ 28000 4000); [assumption | assumption | discriminate | reflexivity]
  | |- (4000 <= _)%Q /\ _ =>
      apply (add_base_draw _ 4000 6000); [assumption | assumption | discriminate | reflexivity]
  end.

Lemma blink_wellTimed b : addsOnly drawsInRange wellTimed (blink b).
Proof. unfold blink. destruct b; adds_with draw timed fail. Qed.

Lemma randomizeArmMovements_wellTimed :
  addsOnly drawsInRange wellTimed randomizeArmMovements.
Proof. unfold randomizeArmMovements. adds_with draw timed fail. Qed.

Lemma happyWave_wellTimed : addsOnly drawsInRange wellTimed happyWave.
Proof. unfold happyWave. adds_with draw timed fail. Qed.

Lemma changeGaze_wellTimed : addsOnly drawsInRange wellTimed changeGaze.
Proof. unfold changeGaze. adds_with draw timed fail. Qed.

Ltac timedChains :=
  idtac;
  lazymatch goal with
  | |- addsOnly _ _ (blink _) => apply blink_wellTimed
  | |- addsOnly _ _ randomizeArmMovements => apply randomizeArmMovements_wellTimed
  | |- addsOnly _ _ happyWave => apply happyWave_wellTimed
  | |- addsOnly _ _ changeGaze => apply changeGaze_wellTimed
  end.

Lemma effect_wellTimed mood : addsOnly drawsInRange wellTimed (effect mood).
Proof.
  unfold effect, setupIdleBreathing, setupEyeBlink, setupHandMovements.
  destruct mood; unfold moodAnimations; adds_with draw timed timedChains.
Qed.

Lemma cleanup_wellTimed : addsOnly drawsInRange wellTimed cleanup.
Proof. unfold cleanup. adds_with draw timed fail. Qed.

Lemma performJump_wellTimed : addsOnly drawsInRange wellTimed performJump.
Proof. unfold performJump. adds_with draw timed fail. Qed.

Lemma callback_wellTimed cb : addsOnly drawsInRange wellTimed (callback cb).
Proof.
  destruct cb; unfold callback;
    [apply blink_wellTimed | apply randomizeArmMovements_wellTimed
    | apply happyWave_wellTimed | apply changeGaze_wellTimed].
Qed.

End PaxtonDelays.

Section PaxtonRest.
Import Reanimated Runtime Paxton.

Ltac rest :=
  cbn [atRest];
  lazymatch goal with
  | |- True => exact I
  | |- _ /\ _ =>
      split; [discriminate
             | split; [discriminate | intros H; first [discriminate H | reflexivity]]]
  end.

Lemma blink_atRest b : addsOnly (fun _ => True) atRest (blink b).
Proof. unfold blink. adds_with fail rest fail. Qed.

Lemma randomizeArmMovements_atRest :
  addsOnly (fun _ => True) atRest randomizeArmMovements.
Proof. unfold randomizeArmMovements. adds_with fail rest fail. Qed.

Lemma happyWave_atRest : addsOnly (fun _ => True) atRest happyWave.
Proof. unfold happyWave. adds_with fail rest fail. Qed.

Lemma changeGaze_atRest : addsOnly (fun _ => True) atRest changeGaze.
Proof. unfold changeGaze. adds_with fail rest fail. Qed.

Ltac restChains :=
  idtac;
  lazymatch goal with
  | |- addsOnly _ _ (blink _) => apply blink_atRest
  | |- addsOnly _ _ randomizeArmMovements => apply randomizeArmMovements_atRest
  | |- addsOnly _ _ happyWave => apply happyWave_atRest
  | |- addsOnly _ _ changeGaze => apply changeGaze_atRest
  end.

Lemma effect_atRest mood : addsOnly (fun _ => True) atRest (effect mood).
Proof.
  unfold effect, setupIdleBreathing, setupEyeBlink, setupHandMovements.
  destruct mood; unfold moodAnimations; adds_with fail rest restChains.
Qed.

Lemma cleanup_atRest : addsOnly (fun _ => True) atRest cleanup.
Proof. unfold cleanup. adds_with fail rest fail. Qed.

Lemma performJump_atRest : addsOnly (fun _ => True) atRest performJump.
Proof. unfold performJump. adds_with fail rest fail. Qed.

Lemma callback_atRest cb : addsOnly (fun _ => True) atRest (callback cb).
Proof.
  destruct cb; unfold callback;
    [apply blink_atRest | apply randomizeArmMovements_atRest
    | apply happyWave_atRest | apply changeGaze_atRest].
Qed.

End PaxtonRest.

Section PaxtonTimers.
Import Reanimated Runtime Paxton.

Lemma arms_startAnimation (b : bool) sv a : arms b b (startAnimation sv a) [].
Proof.
  unfold startAnimation. apply arms_tryCatch.
  arms_with fail. all: reflexivity.
Qed.

Lemma arms_startBuilt (b : bool) sv a : arms b b (startBuilt sv a) [].
Proof.
  unfold startBuilt.
  eapply arms_as; [eapply arms_bind; [apply arms_build | intros _; apply arms_startAnimation]
                  | reflexivity].
Qed.

Lemma arms_callOnPress (b : bool) : arms b b callOnPress [].
Proof. exact (arms_ret b tt). Qed.

Lemma arms_blink_mounted f : arms true true (blink f) [blinkCb (negb f)].
Proof.
  unfold blink. apply arms_getMounted. cbn [negb].
  arms_with fail. all: reflexivity.
Qed.

Lemma arms_blink_unmounted f : arms false false (blink f) [].
Proof. unfold blink. apply arms_getMounted. cbn [negb]. apply arms_ret. Qed.

Ltac armsStart :=
  idtac;
  lazymatch goal with
  | |- arms _ _ (startBuilt _ _) _ => apply arms_startBuilt
  | |- arms _ _ (startAnimation _ _) _ => apply arms_startAnimation
  end.

Lemma arms_randomizeArmMovements (b : bool) :
  arms b b randomizeArmMovements [randomizeArmMovementsCb].
Proof.
  unfold randomizeArmMovements.
  arms_with armsStart. all: reflexivity.
Qed.

Lemma arms_happyWave (b : bool) : arms b b happyWave [happyWaveCb].
Proof.
  unfold happyWave.
  arms_with armsStart. all: reflexivity.
Qed.

Lemma arms_changeGaze (b : bool) : arms b b changeGaze [changeGazeCb].
Proof.
  unfold changeGaze.
  arms_with armsStart. all: reflexivity.
Qed.

Ltac armsChains :=
  idtac;
  lazymatch goal with
  | |- arms _ _ (startBuilt _ _) _ => apply arms_startBuilt
  | |- arms _ _ (startAnimation _ _) _ => apply arms_startAnimation
  | |- arms _ _ (blink _) _ => apply arms_blink_mounted
  | |- arms _ _ randomizeArmMovements _ => apply arms_randomizeArmMovements
  | |- arms _ _ happyWave _ => apply arms_happyWave
  | |- arms _ _ changeGaze _ => apply arms_changeGaze
  end.

Lemma arms_moodAnimations (b : bool) mood : arms b b (moodAnimations mood) (moodChain mood).
Proof.
  destruct mood; unfold moodAnimations;
    arms_with armsChains; reflexivity.
Qed.

Lemma arms_effect (b : bool) mood :
  arms b true (effect mood) ([blinkCb false; randomizeArmMovementsCb] ++ moodChain mood).
Proof.
  unfold effect, setupIdleBreathing, setupEyeBlink, setupHandMovements.
  arms_with ltac:(first [armsChains
                        | lazymatch goal with
                          | |- arms _ _ (moodAnimations _) _ => apply arms_moodAnimations
                          end]).
  all: reflexivity.
Qed.

Lemma arms_cleanup (b : bool) : arms b false cleanup [].
Proof.
  unfold cleanup. arms_with fail. all: reflexivity.
Qed.

Lemma arms_callback_unmounted cb :
  arms false false (callback cb) (if isChain cb then [cb] else []).
Proof.
  destruct cb; cbn [callback isChain];
    [apply arms_blink_unmounted | apply arms_randomizeArmMovements
    | apply arms_happyWave | apply arms_changeGaze].
Qed.

Lemma chains_app (a b : list Callback) : chains (a ++ b) = (chains a + chains b)%nat.
Proof. unfold chains. rewrite List.filter_app, length_app. reflexivity. Qed.

Lemma chains_cons (c : Callback) (l : list Callback) :
  chains (c :: l) = ((if isChain c then 1 else 0) + chains l)%nat.
Proof. unfold chains. cbn [List.filter]. destruct (isChain c); reflexivity. Qed.

Lemma chains_delete (ts : list (Q * Callback)) (i : nat) (x : Q * Callback) :
  ts !! i = Some x ->
  chains (map snd ts)
  = (chains (map snd (delete i ts)) + chains (if isChain (snd x) then [snd x] else []))%nat.
Proof.
  revert i. induction ts as [|y ts IH]; intros i Hi; [destruct i; discriminate|].
  destruct i as [|i]; cbn in Hi.
  - injection Hi as ->.
    change (delete 0%nat (x :: ts)) with ts.
    change (map snd (x :: ts)) with (snd x :: map snd ts).
    rewrite chains_cons.
    destruct (isChain (snd x)) eqn:Ex; [rewrite chains_cons, Ex|]; cbn; lia.
  - change (delete (S i) (y :: ts)) with (y :: delete i ts).
    change (map snd (y :: ts)) with (snd y :: map snd ts).
    change (map snd (y :: delete i ts)) with (snd y :: map snd (delete i ts)).
    rewrite !chains_cons, (IH i Hi). lia.
Qed.

(** A timer that fires after the unmount: a blink does nothing, any other
    callback runs and schedules itself again. *)
Lemma fire_after_unmount (rnd : nat -> Q) (w : W) :
  isComponentMounted w = false ->
  let w' := step (quiet rnd) w TimerFires in
  isComponentMounted w' = false /\ chains (pending w') = chains (pending w).
Proof.
  intros Hm. cbn zeta. unfold step.
  destruct (timers w) as [|x0 ts] eqn:Ets.
  - rewrite (popTimer_none w Ets). split; [exact Hm | reflexivity].
  - destruct (popTimer_some w)
      as (cb & w1 & i & x & Ep & Hi & Hx & Hdel & _ & _ & _ & Hmo);
      [rewrite Ets; discriminate|].
    rewrite Ep.
    destruct (arms_callback_unmounted cb rnd w1) as (_ & T1 & M1); [congruence|].
    split; [exact M1|].
    unfold pending. rewrite T1, chains_app, Hdel, (chains_delete _ i x Hi), Hx.
    reflexivity.
Qed.

Lemma fires_after_unmount (rnd : nat -> Q) (n : nat) (w : W) :
  isComponentMounted w = false ->
  let w' := fold_left (step (quiet rnd)) (repeat TimerFires n) w in
  isComponentMounted w' = false /\ chains (pending w') = chains (pending w).
Proof.
  revert w. induction n as [|n IH]; intros w Hw; cbn zeta;
    [split; [exact Hw | reflexivity]|].
  cbn [repeat fold_left].
  destruct (fire_after_unmount rnd w Hw) as [Ma Ca].
  destruct (IH _ Ma) as [Mb Cb]. split; [exact Mb | congruence].
Qed.

Lemma mount_arms (rnd : nat -> Q) (w : W) (mood : Mood) :
  let w' := step (quiet rnd) w (Mount mood) in
  pending w' = pending w ++ [blinkCb false; randomizeArmMovementsCb] ++ moodChain mood
  /\ isComponentMounted w' = true.
Proof.
  cbn zeta. unfold step.
  destruct (arms_effect (isComponentMounted w) mood rnd w eq_refl) as (_ & T1 & M1).
  split; [exact T1 | exact M1].
Qed.

Lemma unmount_keeps (rnd : nat -> Q) (w : W) :
  let w' := step (quiet rnd) w Unmount in
  pending w' = pending w /\ isComponentMounted w' = false.
Proof.
  cbn zeta. unfold step.
  destruct (arms_cleanup (isComponentMounted w) rnd w eq_refl) as (_ & T1 & M1).
  split; [unfold pending; rewrite T1; apply app_nil_r | exact M1].
Qed.

End PaxtonTimers.

(** X18 (PaxtonCharacter.tsx, the four [setTimeout] calls). With
    [Math.random()] in [0, 1) and the delays computed as sums and
    products of doubles, every timer armed in any run of the component
    has a delay in the range of its callback, both ends included: 20 to
    50 seconds before the blink that follows a full blink, no delay at
    all before the full blink that follows it, 25 to 35 seconds between
    hand movements, 28 to 32 seconds between happy waves and 4 to 10
    seconds between gaze changes. *)
Theorem timer_delays_in_range (env : Paxton.E) (evs : list Paxton.Event) :
  Paxton.drawsInRange env ->
  Forall (fun e => Paxton.wellTimed (snd e)) (Runtime.log (Paxton.run env evs)).
Proof.
  apply (run_addsOnly Paxton.drawsInRange Paxton.wellTimed
           effect_wellTimed cleanup_wellTimed performJump_wellTimed callback_wellTimed).
Qed.

Lemma timer_delays_in_range_witness :
  let env := Runtime.quiet (fun _ => 1 # 2) in
  let evs := [Paxton.Mount Paxton.happy; Paxton.TimerFires; Paxton.Press;
              Paxton.ChangeMood Paxton.thinking; Paxton.TimerFires] in
  Paxton.drawsInRange env
  /\ Forall (fun e => Paxton.wellTimed (snd e)) (Runtime.log (Paxton.run env evs)).
Proof.
  cbv zeta.
  assert (H : Paxton.drawsInRange (Runtime.quiet (fun _ => 1 # 2)))
    by (intros k; split; cbn; lra).
  split; [exact H|].
  exact (timer_delays_in_range _ _ H).
Defined.

(** X20 (PaxtonCharacter.tsx, whole component). In every run, whatever
    throws and whatever is drawn, no operation gives [bodyRotation] or
    [characterRotation] a value, and [legSwing] is only ever given the
    number 0: the two rotations and the leg swing are normalised and
    cancelled but never animated. *)
Theorem rotations_and_legs_never_animate (env : Paxton.E) (evs : list Paxton.Event) :
  Forall (fun e => Paxton.atRest (snd e)) (Runtime.log (Paxton.run env evs)).
Proof.
  apply (run_addsOnly (fun _ => True) Paxton.atRest
           effect_atRest cleanup_atRest performJump_atRest callback_atRest).
  exact I.
Qed.

(** X19 (PaxtonCharacter.tsx, effect and clean-up). The clean-up clears
    no timer, and only the blink looks at the mounted flag. So when
    nothing throws, the mount effect arms the hand-movement timer and the
    mood's own timer besides the blink timer, and after the unmount these
    timers keep firing and scheduling themselves again: their number
    never goes down, however many timers fire. *)
Theorem hand_timers_outlive_unmount
  (rnd : nat -> Q) (w0 : Paxton.W) (mood : Paxton.Mood) (n : nat) :
  let env := Runtime.quiet rnd in
  let w1 := Paxton.step env w0 (Paxton.Mount mood) in
  let w' := fold_left (Paxton.step env) (Paxton.Unmount :: repeat Paxton.TimerFires n) w1 in
  Paxton.pending w1
    = Paxton.pending w0
      ++ [Paxton.blinkCb false; Paxton.randomizeArmMovementsCb] ++ Paxton.moodChain mood
  /\ Runtime.isComponentMounted w' = false
  /\ Paxton.chains (Paxton.pending w')
     = (Paxton.chains (Paxton.pending w0) + 1 + length (Paxton.moodChain mood))%nat.
Proof.
  cbn zeta.
  destruct (mount_arms rnd w0 mood) as [T1 M1]. revert T1 M1.
  generalize (Paxton.step (Runtime.quiet rnd) w0 (Paxton.Mount mood)).
  intros w1 T1 M1. split; [exact T1|].
  cbn [fold_left].
  destruct (unmount_keeps rnd w1) as [T2 M2]. revert T2 M2.
  generalize (Paxton.step (Runtime.quiet rnd) w1 Paxton.Unmount).
  intros w2 T2 M2.
  destruct (fires_after_unmount rnd n w2 M2) as [M3 C3]. split; [exact M3|].
  rewrite C3, T2, T1, !chains_app.
  destruct mood; cbn; lia.
Qed.

(** ** The habits array in the store across a toggle *)

(** X21 (part_000, toggleHabitCompletion on the object store). When the
    [habits] cell reads as the habits [hs], a toggle leaves in the cell a
    reference to a new array that reads as
    [Habits.toggleHabitCompletion id hs], also when no habit has the id,
    while the array of the previous state still reads as [hs]: the
    handler builds the next state beside the previous one and never edits
    it in place. *)
Theorem toggle_builds_a_new_array
  (id : Z) (h : list Store.Obj) (c : Store.Cells) (hs : list Habits.Habit) :
  Store.readHabits h (Store.habits c) = Some (map Store.viewOf hs) ->
  let s' := Store.step (h, c) (Store.ToggleHabitCompletion id) in
  Store.readHabits (fst s') (Store.habits (snd s'))
    = Some (map Store.viewOf (Habits.toggleHabitCompletion id hs))
  /\ Store.readHabits (fst s') (Store.habits c) = Some (map Store.viewOf hs)
  /\ (exists a, Store.habits (snd s') = Store.VRef a /\ (length h <= a)%nat
                /\ h !! a = None).
Proof.
  intros R. cbv zeta. split; [exact (store_toggle_refines id h c hs R)|].
  split.
  - eapply readHabits_extends; [|exact R].
    exact (step_extends (h, c) (Store.ToggleHabitCompletion id)).
  - unfold Store.step, Store.mapCell.
    destruct (Store.habits c) as [| | |a| |] eqn:Ec; try discriminate.
    unfold Store.readHabits in R.
    destruct (h !! a) as [[props|elems]|] eqn:Ea; try discriminate.
    pose proof (mapElems_extends (Store.toggleHabit id) (toggleHabit_extends id) elems h)
      as [k Hk].
    destruct (Store.mapElems (Store.toggleHabit id) elems h) as [h1 elems'] eqn:Em.
    cbn [fst snd Store.alloc Store.habits] in *. subst h1.
    exists (length (h ++ k)). split; [reflexivity|].
    rewrite length_app. split; [lia|].
    apply lookup_ge_None. lia.
Qed.

Lemma toggle_builds_a_new_array_witness :
  Store.readHabits (fst Store.firstRender) (Store.habits (snd Store.firstRender))
    = Some (map Store.viewOf Habits.initialHabits)
  /\ (let s' := Store.step (fst Store.firstRender, snd Store.firstRender)
                  (Store.ToggleHabitCompletion 1) in
      Store.readHabits (fst s') (Store.habits (snd s'))
        = Some (map Store.viewOf (Habits.toggleHabitCompletion 1 Habits.initialHabits))
      /\ Store.readHabits (fst s') (Store.habits (snd Store.firstRender))
         = Some (map Store.viewOf Habits.initialHabits)
      /\ (exists a, Store.habits (snd s') = Store.VRef a
                    /\ (length (fst Store.firstRender) <= a)%nat
                    /\ fst Store.firstRender !! a = None)).
Proof.
  assert (H : Store.readHabits (fst Store.firstRender)
                (Store.habits (snd Store.firstRender))
              = Some (map Store.viewOf Habits.initialHabits))
    by (vm_compute; reflexivity).
  split; [exact H|].
  exact (toggle_builds_a_new_array 1 (fst Store.firstRender) (snd Store.firstRender)
           Habits.initialHabits H).
Defined.

(** ** The boy character: what the body bounce holds *)

Section PaxtonBounce.
Import Reanimated Runtime Paxton.

Lemma holds_app (sv : SharedValue) (l1 l2 : list (Op SharedValue Callback)) cur :
  holds sv (l1 ++ l2) cur = holds sv l2 (holds sv l1 cur).
Proof. revert cur. induction l1 as [|op l1 IH]; intros cur; [reflexivity | apply IH]. Qed.

Lemma ops_append (l1 l2 : list (Q * Op SharedValue Callback)) :
  ops (l1 ++ l2) = ops l1 ++ ops l2.
Proof. apply map_app. Qed.

Lemma bounces_as {A} (f g : option Anim -> option Anim) (m : Eff A) :
  bounces f m -> (forall cur, f cur = g cur) -> bounces g m.
Proof.
  intros H E rnd w. destruct (H rnd w) as (R & l & El & Hl).
  split; [exact R|]. exists l. split; [exact El|]. intros cur. rewrite Hl. apply E.
Qed.

Lemma bounces_bind {A B} (f g : option Anim -> option Anim) (m : Eff A) (k : A -> Eff B) :
  bounces f m -> (forall x, bounces g (k x)) -> bounces (fun cur => g (f cur)) (bind m k).
Proof.
  intros Hm Hk rnd w. unfold bind.
  destruct (Hm rnd w) as ((x & Ex) & l1 & E1 & H1).
  destruct (m (quiet rnd) w) as [w1 r]; cbn in Ex, E1. subst r.
  destruct (Hk x rnd w1) as (R2 & l2 & E2 & H2).
  split; [exact R2|]. exists (l1 ++ l2).
  split; [rewrite E2, E1, app_assoc; reflexivity|].
  intros cur. rewrite ops_append, holds_app, H1, H2. reflexivity.
Qed.

Lemma leaves_bind {A B} (m : Eff A) (k : A -> Eff B) :
  leavesBounce m -> (forall x, leavesBounce (k x)) -> leavesBounce (bind m k).
Proof. intros Hm Hk. exact (bounces_bind _ _ m k Hm Hk). Qed.

Lemma sets_then_leaves {A B} (a : Anim) (m : Eff A) (k : A -> Eff B) :
  setsBounce a m -> (forall x, leavesBounce (k x)) -> setsBounce a (bind m k).
Proof. intros Hm Hk. exact (bounces_bind _ _ m k Hm Hk). Qed.

Lemma then_sets {A B} (a : Anim) (f : option Anim -> option Anim)
  (m : Eff A) (k : A -> Eff B) :
  bounces f m -> (forall x, setsBounce a (k x)) -> setsBounce a (bind m k).
Proof. intros Hm Hk. exact (bounces_bind f _ m k Hm Hk). Qed.

Lemma leaves_ret {A} (x : A) : leavesBounce (ret x : Eff A).
Proof.
  intros rnd w. split; [eexists; reflexivity|]. exists [].
  split; [cbn; rewrite app_nil_r; reflexivity | reflexivity].
Qed.

Lemma leaves_build (a : Anim) : leavesBounce (build a : Eff unit).
Proof.
  intros rnd w. split; [eexists; reflexivity|]. exists [].
  split; [cbn; rewrite app_nil_r; reflexivity | reflexivity].
Qed.

Lemma bounces_perform (op : Op SharedValue Callback) :
  bounces (fun cur => holds bodyBounce [op] cur) (perform op).
Proof.
  intros rnd w. split; [eexists; reflexivity|]. exists [(now w, op)].
  split; reflexivity.
Qed.

Lemma leaves_perform (op : Op SharedValue Callback) :
  (forall cur, holds bodyBounce [op] cur = cur) -> leavesBounce (perform op).
Proof. intros H. exact (bounces_as _ _ _ (bounces_perform op) H). Qed.

Lemma leaves_warn msg : leavesBounce (warn msg : Eff unit).
Proof.
  intros rnd w. split; [eexists; reflexivity|]. exists [(now w, Warn msg)].
  split; reflexivity.
Qed.

Lemma leaves_setTimeout cb d : leavesBounce (setTimeout cb d : Eff unit).
Proof.
  intros rnd w. split; [eexists; reflexivity|]. exists [(now w, SetTimeout cb d)].
  split; reflexivity.
Qed.

Lemma leaves_mathRandom : leavesBounce (mathRandom : Eff Q).
Proof.
  intros rnd w. split; [eexists; reflexivity|]. exists [].
  split; [cbn; rewrite app_nil_r; reflexivity | reflexivity].
Qed.

Lemma leaves_getMounted : leavesBounce (getMounted : Eff bool).
Proof.
  intros rnd w. split; [eexists; reflexivity|]. exists [].
  split; [cbn; rewrite app_nil_r; reflexivity | reflexivity].
Qed.

Lemma leaves_setMounted b : leavesBounce (setMounted b : Eff unit).
Proof.
  intros rnd w. split; [eexists; reflexivity|]. exists [].
  split; [cbn; rewrite app_nil_r; reflexivity | reflexivity].
Qed.

Lemma leaves_if {A} (c : bool) (m1 m2 : Eff A) :
  leavesBounce m1 -> leavesBounce m2 -> leavesBounce (if c then m1 else m2).
Proof. destruct c; auto. Qed.

(** When nothing throws, a [try] block is its body. *)
Lemma bounces_tryCatch (f : option Anim -> option Anim) (body handler : Eff unit) :
  bounces f body -> bounces f (tryCatch body handler).
Proof.
  intros Hb rnd w. unfold tryCatch.
  destruct (Hb rnd w) as ((x & Ex) & l & El & Hl).
  destruct (body (quiet rnd) w) as [w1 r]; cbn in Ex, El. subst r.
  split; [eexists; reflexivity|]. exists l. split; [exact El | exact Hl].
Qed.

Lemma leaves_tryCatch (body handler : Eff unit) :
  leavesBounce body -> leavesBounce (tryCatch body handler).
Proof. apply bounces_tryCatch. Qed.

Lemma bounces_startAnimation sv a :
  bounces (fun cur => holds bodyBounce [Cancel sv; Assign sv a] cur) (startAnimation sv a).
Proof.
  unfold startAnimation. apply bounces_tryCatch.
  eapply bounces_as.
  - apply bounces_bind; [apply bounces_perform | intros _; apply bounces_perform].
  - intros cur. reflexivity.
Qed.

Lemma leaves_startAnimation sv a :
  sv <> bodyBounce -> leavesBounce (startAnimation sv a).
Proof.
  intros Hsv. eapply bounces_as; [apply bounces_startAnimation|].
  intros cur. cbn [holds]. destruct (decide (sv = bodyBounce)); [contradiction | reflexivity].
Qed.

Lemma sets_startAnimation a :
  (forall x, a <> Num x) -> setsBounce a (startAnimation bodyBounce a).
Proof.
  intros Ha. eapply bounces_as; [apply bounces_startAnimation|].
  intros cur. cbn. destruct a; try reflexivity. destruct (Ha v eq_refl).
Qed.

Lemma bounces_startBuilt sv a :
  bounces (fun cur => holds bodyBounce [Cancel sv; Assign sv a] cur) (startBuilt sv a).
Proof.
  unfold startBuilt.
  exact (bounces_bind _ _ _ _ (leaves_build a) (fun _ => bounces_startAnimation sv a)).
Qed.

Lemma leaves_startBuilt sv a :
  sv <> bodyBounce -> leavesBounce (startBuilt sv a).
Proof.
  intros Hsv. unfold startBuilt.
  apply leaves_bind; [apply leaves_build | intros _; apply leaves_startAnimation; exact Hsv].
Qed.

Lemma sets_startBuilt a :
  (forall x, a <> Num x) -> setsBounce a (startBuilt bodyBounce a).
Proof.
  intros Ha. unfold startBuilt.
  eapply then_sets; [apply leaves_build | intros _; apply sets_startAnimation; exact Ha].
Qed.

Lemma leaves_animate sv a : sv <> bodyBounce -> leavesBounce (animate sv a : Eff unit).
Proof.
  intros Hsv. unfold animate.
  apply leaves_bind; [apply leaves_build | intros _].
  apply leaves_perform. intros cur. cbn [holds].
  destruct (decide (sv = bodyBounce)); [contradiction | reflexivity].
Qed.

End PaxtonBounce.

Ltac leaves_tac :=
  repeat
    (cbv beta zeta;
     lazymatch goal with
     | |- Paxton.leavesBounce (Runtime.bind _ _) => apply leaves_bind; [|intros ?]
     | |- Paxton.leavesBounce (if _ then _ else _) => apply leaves_if
     | |- Paxton.leavesBounce (Runtime.ret _) => apply leaves_ret
     | |- Paxton.leavesBounce (Runtime.build _) => apply leaves_build
     | |- Paxton.leavesBounce (Runtime.warn _) => apply leaves_warn
     | |- Paxton.leavesBounce (Runtime.setTimeout _ _) => apply leaves_setTimeout
     | |- Paxton.leavesBounce Runtime.mathRandom => apply leaves_mathRandom
     | |- Paxton.leavesBounce Runtime.getMounted => apply leaves_getMounted
     | |- Paxton.leavesBounce (Runtime.setMounted _) => apply leaves_setMounted
     | |- Paxton.leavesBounce (Runtime.tryCatch _ _) => apply leaves_tryCatch
     | |- Paxton.leavesBounce (Runtime.animate _ _) => apply leaves_animate; discriminate
     | |- Paxton.leavesBounce (Paxton.startBuilt _ _) => apply leaves_startBuilt; discriminate
     | |- Paxton.leavesBounce (Paxton.startAnimation _ _) =>
         apply leaves_startAnimation; discriminate
     | |- Paxton.leavesBounce Paxton.callOnPress => exact (leaves_ret tt)
     | |- Paxton.leavesBounce (Runtime.perform _) =>
         apply leaves_perform; intros ?; reflexivity
     end).

Section PaxtonBounceRuns.
Import Reanimated Runtime Paxton.

Lemma leaves_blink b : leavesBounce (blink b).
Proof. unfold blink. leaves_tac. Qed.

Lemma leaves_randomizeArmMovements : leavesBounce randomizeArmMovements.
Proof. unfold randomizeArmMovements. leaves_tac. Qed.

Lemma leaves_happyWave : leavesBounce happyWave.
Proof. unfold happyWave. leaves_tac. Qed.

Lemma leaves_changeGaze : leavesBounce changeGaze.
Proof. unfold changeGaze. leaves_tac. Qed.

Lemma leaves_callback cb : leavesBounce (callback cb).
Proof.
  destruct cb; unfold callback;
    [apply leaves_blink | apply leaves_randomizeArmMovements
    | apply leaves_happyWave | apply leaves_changeGaze].
Qed.

Lemma leaves_performJump : leavesBounce performJump.
Proof. unfold performJump. leaves_tac. Qed.

Lemma sets_moodAnimations mood : setsBounce (moodBounce mood) (moodAnimations mood).
Proof.
  destruct mood; unfold moodAnimations, moodBounce.
  - apply sets_then_leaves; [apply sets_startBuilt; discriminate | intros _].
    apply leaves_bind; [apply leaves_startBuilt; discriminate | intros _].
    apply leaves_happyWave.
  - eapply then_sets; [apply leaves_startBuilt; discriminate | intros _].
    apply sets_then_leaves; [apply sets_startBuilt; discriminate | intros _].
    apply leaves_changeGaze.
  - apply sets_then_leaves; [apply sets_startBuilt; discriminate | intros _].
    leaves_tac.
  - apply sets_then_leaves; [apply sets_startBuilt; discriminate | intros _].
    leaves_tac.
Qed.

Lemma sets_effect mood : setsBounce (moodBounce mood) (effect mood).
Proof.
  unfold effect, setupIdleBreathing, setupEyeBlink, setupHandMovements.
  do 10 (eapply then_sets; [apply bounces_perform | intros _]).
  eapply then_sets; [apply leaves_setMounted | intros _].
  eapply then_sets; [apply bounces_startBuilt | intros _].
  eapply then_sets; [apply bounces_startAnimation | intros _].
  eapply then_sets;
    [apply bounces_bind; [apply bounces_startBuilt | intros _; apply bounces_startBuilt]
    | intros _].
  eapply then_sets; [apply leaves_blink | intros _].
  eapply then_sets; [apply leaves_randomizeArmMovements | intros _].
  apply sets_moodAnimations.
Qed.

Lemma bounces_cleanup : exists f, bounces f cleanup.
Proof.
  unfold cleanup. eexists.
  apply bounces_bind; [apply leaves_setMounted | intros _].
  apply bounces_tryCatch.
  do 9 (apply bounces_bind; [apply bounces_perform | intros _]).
  apply bounces_perform.
Qed.

(** What [bodyBounce] holds after an event, from the action's effect on
    it. *)
Lemma holds_after {A} (f : option Anim -> option Anim) (m : Eff A) rnd (w : W) :
  bounces f m ->
  holds bodyBounce (ops (log (fst (m (quiet rnd) w)))) None
  = f (holds bodyBounce (ops (log w)) None).
Proof.
  intros H. destruct (H rnd w) as (_ & l & El & Hl).
  rewrite El, ops_append, holds_app. apply Hl.
Qed.

Lemma mood_step_bounce rnd (w : W) mood :
  holds bodyBounce (ops (log (step (quiet rnd) w (Mount mood)))) None
    = Some (moodBounce mood)
  /\ holds bodyBounce (ops (log (step (quiet rnd) w (ChangeMood mood)))) None
    = Some (moodBounce mood).
Proof.
  unfold step. split.
  - apply (holds_after _ _ rnd w (sets_effect mood)).
  - apply (holds_after _ _ rnd _ (sets_effect mood)).
Qed.

Lemma between_step_bounce rnd (w : W) ev :
  betweenMoods ev ->
  holds bodyBounce (ops (log (step (quiet rnd) w ev))) None
  = holds bodyBounce (ops (log w)) None.
Proof.
  destruct ev; cbn [betweenMoods]; try contradiction; intros _; unfold step.
  - apply (holds_after _ _ rnd w leaves_performJump).
  - destruct (timers w) as [|x ts] eqn:Ets.
    + rewrite (popTimer_none w Ets). reflexivity.
    + destruct (popTimer_some w) as (cb & w1 & i & y & Ep & _ & _ & _ & _ & Hlog & _);
        [rewrite Ets; discriminate|].
      rewrite Ep, <- Hlog. apply (holds_after _ _ rnd w1 (leaves_callback cb)).
Qed.

End PaxtonBounceRuns.

(** X22 (PaxtonCharacter.tsx, effect). When nothing throws, the effect
    leaves [bodyBounce] holding the animation of the mood's own block,
    on mount and on a change of mood alike: the default bounce and the
    idle breathing the effect starts first on the same value are both
    replaced before the effect returns. Presses and timers do not touch
    the value, so it holds the mood's bounce until the mood changes or
    the component unmounts. *)
Theorem body_bounce_is_the_moods
  (rnd : nat -> Q) (w : Paxton.W) (mood : Paxton.Mood) (evs : list Paxton.Event) :
  Forall Paxton.betweenMoods evs ->
  let env := Runtime.quiet rnd in
  let bounce w' := Paxton.holds Paxton.bodyBounce (Runtime.ops (Runtime.log w')) None in
  bounce (fold_left (Paxton.step env) evs (Paxton.step env w (Paxton.Mount mood)))
    = Some (Paxton.moodBounce mood)
  /\ bounce (fold_left (Paxton.step env) evs (Paxton.step env w (Paxton.ChangeMood mood)))
    = Some (Paxton.moodBounce mood).
Proof.
  intros Hevs. cbv beta zeta.
  assert (K : forall w0,
    Paxton.holds Paxton.bodyBounce
      (Runtime.ops (Runtime.log (fold_left (Paxton.step (Runtime.quiet rnd)) evs w0))) None
    = Paxton.holds Paxton.bodyBounce (Runtime.ops (Runtime.log w0)) None).
  { induction Hevs as [|ev evs Hev _ IH]; intros w0; [reflexivity|].
    cbn [fold_left]. rewrite IH. apply between_step_bounce. exact Hev. }
  rewrite !K. apply mood_step_bounce.
Qed.

Lemma body_bounce_is_the_moods_witness :
  let evs := [Paxton.Press; Paxton.TimerFires; Paxton.TimerFires] in
  let env := Runtime.quiet (fun _ => 19 # 20) in
  let bounce w' := Paxton.holds Paxton.bodyBounce (Runtime.ops (Runtime.log w')) None in
  Forall Paxton.betweenMoods evs
  /\ bounce (fold_left (Paxton.step env) evs
               (Paxton.step env Paxton.start (Paxton.Mount Paxton.thinking)))
     = Some (Paxton.moodBounce Paxton.thinking)
  /\ bounce (fold_left (Paxton.step env) evs
               (Paxton.step env Paxton.start (Paxton.ChangeMood Paxton.thinking)))
     = Some (Paxton.moodBounce Paxton.thinking).
Proof.
  cbv zeta.
  assert (H : Forall Paxton.betweenMoods [Paxton.Press; Paxton.TimerFires; Paxton.TimerFires])
    by (repeat constructor).
  split; [exact H|].
  exact (body_bounce_is_the_moods (fun _ => 19 # 20) Paxton.start Paxton.thinking _ H).
Defined.
